(** * Hydra Racing: the simulation core of [script.js] and of its
    "Ultra HD" variant, embedded in Rocq.

    The two source files share their game logic line for line.  The
    extended file adds the NITRO power-up (one more case in
    [collectPowerUp], the flag [gameState.hasNitro], the pair
    [visualFX.nitroActive] / [visualFX.nitroEndTime], a multiplier and a
    score bonus in [update]) and uses other constants.  The embedding
    follows the extended file and takes the constants from a [Config]
    record; [script.js] is the same code on worlds in which no NITRO
    power-up exists, where [hasNitro] stays [false] and the multiplier is 1.

    Numbers.  JavaScript numbers that hold counters, scores and
    millisecond time stamps are integers ([Z]); positions, speeds and
    distances are modelled as exact rationals ([Q]), so rounding of IEEE
    doubles is not part of the model.  [Date.now()] is an argument [now] of
    the functions that read the clock; one frame reads one instant.

    Not modelled: drawing, sounds, toasts, DOM updates, particles, stars,
    road markings, screen shake and persistence writes.

    Timers.  A world has no timers: the callbacks of the interval timers
    are operations of its step function, and the world-level [pauseGame],
    [resumeGame], [restartGame] and start callback are the bodies of these
    functions without the calls that start or clear a timer.  [Session]
    adds the three spawner timers and the countdown intervals to the world,
    and the session-level functions have those calls.  When a timer fires
    next is not modelled, nor the [stopSpawners()] of [gameOver]. *)

From Stdlib Require Import ZArith QArith Qround Qminmax Qpower Bool List Lia Lra
  Psatz.
Import ListNotations.

Local Open Scope Z_scope.

(** ** Numbers *)

(** [a < b] on JavaScript numbers. *)
Definition Qltb (a b : Q) : bool := negb (Qle_bool b a).

(** [Math.trunc], which the remainder operator is defined with. *)
Definition Qtrunc (a : Q) : Z :=
  if Qle_bool 0 a then Qfloor a else Qceiling a.

(** [a % b]: the result takes the sign of the dividend. *)
Definition js_rem (a b : Q) : Q :=
  (a - b * inject_Z (Qtrunc (a / b)))%Q.

(** ** Configuration *)

Record Config := {
  lanes : Z;
  playerWidth : Q;
  playerHeight : Q;
  enemyWidth : Q;
  enemyHeight : Q;
  initialEnemySpeed : Q;
  maxEnemySpeed : Q;
  enemySpawnRate : Z;
  minEnemySpawnRate : Z;
  coinSize : Q;
  coinValue : Z;
  coinSpawnRate : Z;
  powerUpSize : Q;
  powerUpSpawnRate : Z;
  shieldDuration : Z;
  magnetDuration : Z;
  slowMoDuration : Z;
  doublePointsDuration : Z;
  nitroDuration : Z;
  speedIncreaseRate : Q;
  comboTimeout : Z;
  difficultyIncreaseInterval : Q;
  roadMarkingSpeed : Q
}.

(** [CONFIG] of script.js ([nitroDuration] is not read there). *)
Definition CONFIG : Config := {|
  lanes := 5;
  playerWidth := 40; playerHeight := 75;
  enemyWidth := 40; enemyHeight := 75;
  initialEnemySpeed := 4; maxEnemySpeed := 12;
  enemySpawnRate := 1500; minEnemySpawnRate := 600;
  coinSize := 30; coinValue := 10; coinSpawnRate := 2000;
  powerUpSize := 40; powerUpSpawnRate := 8000;
  shieldDuration := 5000; magnetDuration := 7000;
  slowMoDuration := 5000; doublePointsDuration := 10000;
  nitroDuration := 3000;
  speedIncreaseRate := 0.0005;
  comboTimeout := 2000;
  difficultyIncreaseInterval := 5000;
  roadMarkingSpeed := 5
|}.


(** ** Data model *)

(** The keys of [POWER_UP_TYPES]; NITRO only in the Ultra HD variant. *)
Inductive PowerUpType := SHIELD | MAGNET | SLOW_MO | DOUBLE_POINTS | NITRO.

Definition PowerUpType_eqb (a b : PowerUpType) : bool :=
  match a, b with
  | SHIELD, SHIELD | MAGNET, MAGNET | SLOW_MO, SLOW_MO
  | DOUBLE_POINTS, DOUBLE_POINTS | NITRO, NITRO => true
  | _, _ => false
  end.

(** [gameState]. *)
Record GameState := {
  isPlaying : bool;
  isPaused : bool;
  isGameOver : bool;
  score : Z;
  topScore : Z;
  coins : Z;
  totalCoins : Z;
  distance : Q;
  dodgedCars : Z;
  combo : Z;
  lastDodgeTime : Z;
  currentSpeed : Q;
  difficultyLevel : Z;
  hasShield : bool;
  hasMagnet : bool;
  hasSlowMo : bool;
  hasDoublePoints : bool;
  hasNitro : bool;
  activePowerUp : option PowerUpType;
  powerUpEndTime : Z
}.

Definition set_isPlaying (v : bool) (r : GameState) : GameState :=
  {| isPlaying := v; isPaused := isPaused r; isGameOver := isGameOver r;
     score := score r; topScore := topScore r; coins := coins r;
     totalCoins := totalCoins r; distance := distance r; dodgedCars := dodgedCars r;
     combo := combo r; lastDodgeTime := lastDodgeTime r; currentSpeed := currentSpeed r;
     difficultyLevel := difficultyLevel r; hasShield := hasShield r;
     hasMagnet := hasMagnet r; hasSlowMo := hasSlowMo r;
     hasDoublePoints := hasDoublePoints r; hasNitro := hasNitro r;
     activePowerUp := activePowerUp r; powerUpEndTime := powerUpEndTime r |}.
Definition set_isPaused (v : bool) (r : GameState) : GameState :=
  {| isPlaying := isPlaying r; isPaused := v; isGameOver := isGameOver r;
     score := score r; topScore := topScore r; coins := coins r;
     totalCoins := totalCoins r; distance := distance r; dodgedCars := dodgedCars r;
     combo := combo r; lastDodgeTime := lastDodgeTime r; currentSpeed := currentSpeed r;
     difficultyLevel := difficultyLevel r; hasShield := hasShield r;
     hasMagnet := hasMagnet r; hasSlowMo := hasSlowMo r;
     hasDoublePoints := hasDoublePoints r; hasNitro := hasNitro r;
     activePowerUp := activePowerUp r; powerUpEndTime := powerUpEndTime r |}.
Definition set_isGameOver (v : bool) (r : GameState) : GameState :=
  {| isPlaying := isPlaying r; isPaused := isPaused r; isGameOver := v; score := score r;
     topScore := topScore r; coins := coins r; totalCoins := totalCoins r;
     distance := distance r; dodgedCars := dodgedCars r; combo := combo r;
     lastDodgeTime := lastDodgeTime r; currentSpeed := currentSpeed r;
     difficultyLevel := difficultyLevel r; hasShield := hasShield r;
     hasMagnet := hasMagnet r; hasSlowMo := hasSlowMo r;
     hasDoublePoints := hasDoublePoints r; hasNitro := hasNitro r;
     activePowerUp := activePowerUp r; powerUpEndTime := powerUpEndTime r |}.
Definition set_score (v : Z) (r : GameState) : GameState :=
  {| isPlaying := isPlaying r; isPaused := isPaused r; isGameOver := isGameOver r;
     score := v; topScore := topScore r; coins := coins r; totalCoins := totalCoins r;
     distance := distance r; dodgedCars := dodgedCars r; combo := combo r;
     lastDodgeTime := lastDodgeTime r; currentSpeed := currentSpeed r;
     difficultyLevel := difficultyLevel r; hasShield := hasShield r;
     hasMagnet := hasMagnet r; hasSlowMo := hasSlowMo r;
     hasDoublePoints := hasDoublePoints r; hasNitro := hasNitro r;
     activePowerUp := activePowerUp r; powerUpEndTime := powerUpEndTime r |}.
Definition set_topScore (v : Z) (r : GameState) : GameState :=
  {| isPlaying := isPlaying r; isPaused := isPaused r; isGameOver := isGameOver r;
     score := score r; topScore := v; coins := coins r; totalCoins := totalCoins r;
     distance := distance r; dodgedCars := dodgedCars r; combo := combo r;
     lastDodgeTime := lastDodgeTime r; currentSpeed := currentSpeed r;
     difficultyLevel := difficultyLevel r; hasShield := hasShield r;
     hasMagnet := hasMagnet r; hasSlowMo := hasSlowMo r;
     hasDoublePoints := hasDoublePoints r; hasNitro := hasNitro r;
     activePowerUp := activePowerUp r; powerUpEndTime := powerUpEndTime r |}.
Definition set_coins (v : Z) (r : GameState) : GameState :=
  {| isPlaying := isPlaying r; isPaused := isPaused r; isGameOver := isGameOver r;
     score := score r; topScore := topScore r; coins := v; totalCoins := totalCoins r;
     distance := distance r; dodgedCars := dodgedCars r; combo := combo r;
     lastDodgeTime := lastDodgeTime r; currentSpeed := currentSpeed r;
     difficultyLevel := difficultyLevel r; hasShield := hasShield r;
     hasMagnet := hasMagnet r; hasSlowMo := hasSlowMo r;
     hasDoublePoints := hasDoublePoints r; hasNitro := hasNitro r;
     activePowerUp := activePowerUp r; powerUpEndTime := powerUpEndTime r |}.
Definition set_totalCoins (v : Z) (r : GameState) : GameState :=
  {| isPlaying := isPlaying r; isPaused := isPaused r; isGameOver := isGameOver r;
     score := score r; topScore := topScore r; coins := coins r; totalCoins := v;
     distance := distance r; dodgedCars := dodgedCars r; combo := combo r;
     lastDodgeTime := lastDodgeTime r; currentSpeed := currentSpeed r;
     difficultyLevel := difficultyLevel r; hasShield := hasShield r;
     hasMagnet := hasMagnet r; hasSlowMo := hasSlowMo r;
     hasDoublePoints := hasDoublePoints r; hasNitro := hasNitro r;
     activePowerUp := activePowerUp r; powerUpEndTime := powerUpEndTime r |}.
Definition set_distance (v : Q) (r : GameState) : GameState :=
  {| isPlaying := isPlaying r; isPaused := isPaused r; isGameOver := isGameOver r;
     score := score r; topScore := topScore r; coins := coins r;
     totalCoins := totalCoins r; distance := v; dodgedCars := dodgedCars r;
     combo := combo r; lastDodgeTime := lastDodgeTime r; currentSpeed := currentSpeed r;
     difficultyLevel := difficultyLevel r; hasShield := hasShield r;
     hasMagnet := hasMagnet r; hasSlowMo := hasSlowMo r;
     hasDoublePoints := hasDoublePoints r; hasNitro := hasNitro r;
     activePowerUp := activePowerUp r; powerUpEndTime := powerUpEndTime r |}.
Definition set_dodgedCars (v : Z) (r : GameState) : GameState :=
  {| isPlaying := isPlaying r; isPaused := isPaused r; isGameOver := isGameOver r;
     score := score r; topScore := topScore r; coins := coins r;
     totalCoins := totalCoins r; distance := distance r; dodgedCars := v;
     combo := combo r; lastDodgeTime := lastDodgeTime r; currentSpeed := currentSpeed r;
     difficultyLevel := difficultyLevel r; hasShield := hasShield r;
     hasMagnet := hasMagnet r; hasSlowMo := hasSlowMo r;
     hasDoublePoints := hasDoublePoints r; hasNitro := hasNitro r;
     activePowerUp := activePowerUp r; powerUpEndTime := powerUpEndTime r |}.
Definition set_combo (v : Z) (r : GameState) : GameState :=
  {| isPlaying := isPlaying r; isPaused := isPaused r; isGameOver := isGameOver r;
     score := score r; topScore := topScore r; coins := coins r;
     totalCoins := totalCoins r; distance := distance r; dodgedCars := dodgedCars r;
     combo := v; lastDodgeTime := lastDodgeTime r; currentSpeed := currentSpeed r;
     difficultyLevel := difficultyLevel r; hasShield := hasShield r;
     hasMagnet := hasMagnet r; hasSlowMo := hasSlowMo r;
     hasDoublePoints := hasDoublePoints r; hasNitro := hasNitro r;
     activePowerUp := activePowerUp r; powerUpEndTime := powerUpEndTime r |}.
Definition set_lastDodgeTime (v : Z) (r : GameState) : GameState :=
  {| isPlaying := isPlaying r; isPaused := isPaused r; isGameOver := isGameOver r;
     score := score r; topScore := topScore r; coins := coins r;
     totalCoins := totalCoins r; distance := distance r; dodgedCars := dodgedCars r;
     combo := combo r; lastDodgeTime := v; currentSpeed := currentSpeed r;
     difficultyLevel := difficultyLevel r; hasShield := hasShield r;
     hasMagnet := hasMagnet r; hasSlowMo := hasSlowMo r;
     hasDoublePoints := hasDoublePoints r; hasNitro := hasNitro r;
     activePowerUp := activePowerUp r; powerUpEndTime := powerUpEndTime r |}.
Definition set_currentSpeed (v : Q) (r : GameState) : GameState :=
  {| isPlaying := isPlaying r; isPaused := isPaused r; isGameOver := isGameOver r;
     score := score r; topScore := topScore r; coins := coins r;
     totalCoins := totalCoins r; distance := distance r; dodgedCars := dodgedCars r;
     combo := combo r; lastDodgeTime := lastDodgeTime r; currentSpeed := v;
     difficultyLevel := difficultyLevel r; hasShield := hasShield r;
     hasMagnet := hasMagnet r; hasSlowMo := hasSlowMo r;
     hasDoublePoints := hasDoublePoints r; hasNitro := hasNitro r;
     activePowerUp := activePowerUp r; powerUpEndTime := powerUpEndTime r |}.
Definition set_difficultyLevel (v : Z) (r : GameState) : GameState :=
  {| isPlaying := isPlaying r; isPaused := isPaused r; isGameOver := isGameOver r;
     score := score r; topScore := topScore r; coins := coins r;
     totalCoins := totalCoins r; distance := distance r; dodgedCars := dodgedCars r;
     combo := combo r; lastDodgeTime := lastDodgeTime r; currentSpeed := currentSpeed r;
     difficultyLevel := v; hasShield := hasShield r; hasMagnet := hasMagnet r;
     hasSlowMo := hasSlowMo r; hasDoublePoints := hasDoublePoints r;
     hasNitro := hasNitro r; activePowerUp := activePowerUp r;
     powerUpEndTime := powerUpEndTime r |}.
Definition set_hasShield (v : bool) (r : GameState) : GameState :=
  {| isPlaying := isPlaying r; isPaused := isPaused r; isGameOver := isGameOver r;
     score := score r; topScore := topScore r; coins := coins r;
     totalCoins := totalCoins r; distance := distance r; dodgedCars := dodgedCars r;
     combo := combo r; lastDodgeTime := lastDodgeTime r; currentSpeed := currentSpeed r;
     difficultyLevel := difficultyLevel r; hasShield := v; hasMagnet := hasMagnet r;
     hasSlowMo := hasSlowMo r; hasDoublePoints := hasDoublePoints r;
     hasNitro := hasNitro r; activePowerUp := activePowerUp r;
     powerUpEndTime := powerUpEndTime r |}.
Definition set_hasMagnet (v : bool) (r : GameState) : GameState :=
  {| isPlaying := isPlaying r; isPaused := isPaused r; isGameOver := isGameOver r;
     score := score r; topScore := topScore r; coins := coins r;
     totalCoins := totalCoins r; distance := distance r; dodgedCars := dodgedCars r;
     combo := combo r; lastDodgeTime := lastDodgeTime r; currentSpeed := currentSpeed r;
     difficultyLevel := difficultyLevel r; hasShield := hasShield r; hasMagnet := v;
     hasSlowMo := hasSlowMo r; hasDoublePoints := hasDoublePoints r;
     hasNitro := hasNitro r; activePowerUp := activePowerUp r;
     powerUpEndTime := powerUpEndTime r |}.
Definition set_hasSlowMo (v : bool) (r : GameState) : GameState :=
  {| isPlaying := isPlaying r; isPaused := isPaused r; isGameOver := isGameOver r;
     score := score r; topScore := topScore r; coins := coins r;
     totalCoins := totalCoins r; distance := distance r; dodgedCars := dodgedCars r;
     combo := combo r; lastDodgeTime := lastDodgeTime r; currentSpeed := currentSpeed r;
     difficultyLevel := difficultyLevel r; hasShield := hasShield r;
     hasMagnet := hasMagnet r; hasSlowMo := v; hasDoublePoints := hasDoublePoints r;
     hasNitro := hasNitro r; activePowerUp := activePowerUp r;
     powerUpEndTime := powerUpEndTime r |}.
Definition set_hasDoublePoints (v : bool) (r : GameState) : GameState :=
  {| isPlaying := isPlaying r; isPaused := isPaused r; isGameOver := isGameOver r;
     score := score r; topScore := topScore r; coins := coins r;
     totalCoins := totalCoins r; distance := distance r; dodgedCars := dodgedCars r;
     combo := combo r; lastDodgeTime := lastDodgeTime r; currentSpeed := currentSpeed r;
     difficultyLevel := difficultyLevel r; hasShield := hasShield r;
     hasMagnet := hasMagnet r; hasSlowMo := hasSlowMo r; hasDoublePoints := v;
     hasNitro := hasNitro r; activePowerUp := activePowerUp r;
     powerUpEndTime := powerUpEndTime r |}.
Definition set_hasNitro (v : bool) (r : GameState) : GameState :=
  {| isPlaying := isPlaying r; isPaused := isPaused r; isGameOver := isGameOver r;
     score := score r; topScore := topScore r; coins := coins r;
     totalCoins := totalCoins r; distance := distance r; dodgedCars := dodgedCars r;
     combo := combo r; lastDodgeTime := lastDodgeTime r; currentSpeed := currentSpeed r;
     difficultyLevel := difficultyLevel r; hasShield := hasShield r;
     hasMagnet := hasMagnet r; hasSlowMo := hasSlowMo r;
     hasDoublePoints := hasDoublePoints r; hasNitro := v;
     activePowerUp := activePowerUp r; powerUpEndTime := powerUpEndTime r |}.
Definition set_activePowerUp (v : option PowerUpType) (r : GameState) : GameState :=
  {| isPlaying := isPlaying r; isPaused := isPaused r; isGameOver := isGameOver r;
     score := score r; topScore := topScore r; coins := coins r;
     totalCoins := totalCoins r; distance := distance r; dodgedCars := dodgedCars r;
     combo := combo r; lastDodgeTime := lastDodgeTime r; currentSpeed := currentSpeed r;
     difficultyLevel := difficultyLevel r; hasShield := hasShield r;
     hasMagnet := hasMagnet r; hasSlowMo := hasSlowMo r;
     hasDoublePoints := hasDoublePoints r; hasNitro := hasNitro r; activePowerUp := v;
     powerUpEndTime := powerUpEndTime r |}.
Definition set_powerUpEndTime (v : Z) (r : GameState) : GameState :=
  {| isPlaying := isPlaying r; isPaused := isPaused r; isGameOver := isGameOver r;
     score := score r; topScore := topScore r; coins := coins r;
     totalCoins := totalCoins r; distance := distance r; dodgedCars := dodgedCars r;
     combo := combo r; lastDodgeTime := lastDodgeTime r; currentSpeed := currentSpeed r;
     difficultyLevel := difficultyLevel r; hasShield := hasShield r;
     hasMagnet := hasMagnet r; hasSlowMo := hasSlowMo r;
     hasDoublePoints := hasDoublePoints r; hasNitro := hasNitro r;
     activePowerUp := activePowerUp r; powerUpEndTime := v |}.

(** The nitro pair of [visualFX], the only fields of it that are read
    outside the drawing code.  The fields that the game logic only writes
    for the renderer ([screenShake], [screenShakeIntensity], the particle
    arrays, [speedLines]) are not modelled. *)
Record VisualFX := {
  nitroActive : bool;
  nitroEndTime : Z
}.

(** What [checkCollision] reads of its two arguments. *)
Module Rect.
Record t := { x : Q; y : Q; width : Q; height : Q }.
End Rect.

Module Player.
Record t := { x : Q; y : Q; width : Q; height : Q; lane : Z }.
Definition rect (p : t) : Rect.t :=
  {| Rect.x := x p; Rect.y := y p; Rect.width := width p; Rect.height := height p |}.
Definition set_x (v : Q) (p : t) : t :=
  {| x := v; y := y p; width := width p; height := height p; lane := lane p |}.
Definition set_lane (v : Z) (p : t) : t :=
  {| x := x p; y := y p; width := width p; height := height p; lane := v |}.
End Player.

Module Enemy.
Record t := {
  x : Q; y : Q; width : Q; height : Q; lane : Z; speed : Q; passed : bool
}.
Definition rect (e : t) : Rect.t :=
  {| Rect.x := x e; Rect.y := y e; Rect.width := width e; Rect.height := height e |}.
Definition set_y (v : Q) (e : t) : t :=
  {| x := x e; y := v; width := width e; height := height e; lane := lane e;
     speed := speed e; passed := passed e |}.
Definition set_passed (v : bool) (e : t) : t :=
  {| x := x e; y := y e; width := width e; height := height e; lane := lane e;
     speed := speed e; passed := v |}.
End Enemy.

Module Coin.
Record t := { x : Q; y : Q; size : Q; lane : Z }.
Definition set_x (v : Q) (c : t) : t :=
  {| x := v; y := y c; size := size c; lane := lane c |}.
Definition set_y (v : Q) (c : t) : t :=
  {| x := x c; y := v; size := size c; lane := lane c |}.
End Coin.

Module PowerUp.
Record t := { x : Q; y : Q; size : Q; lane : Z; type : PowerUpType }.
Definition set_y (v : Q) (c : t) : t :=
  {| x := x c; y := v; size := size c; lane := lane c; type := type c |}.
End PowerUp.

(** The mutable globals of the script that the game logic touches:
    [gameState], [visualFX], [player], the three entity arrays,
    [inputState.targetLane], [CONFIG.laneWidth] and [canvasHeight]. *)
Module World.
Record t := {
  gameState : GameState;
  visualFX : VisualFX;
  player : Player.t;
  enemies : list Enemy.t;
  coins : list Coin.t;
  powerUps : list PowerUp.t;
  targetLane : Z;
  laneWidth : Q;
  canvasHeight : Q
}.
Definition set_gameState (v : GameState) (w : t) : t :=
  {| gameState := v; visualFX := visualFX w; player := player w;
     enemies := enemies w; coins := coins w; powerUps := powerUps w;
     targetLane := targetLane w; laneWidth := laneWidth w;
     canvasHeight := canvasHeight w |}.
Definition set_visualFX (v : VisualFX) (w : t) : t :=
  {| gameState := gameState w; visualFX := v; player := player w;
     enemies := enemies w; coins := coins w; powerUps := powerUps w;
     targetLane := targetLane w; laneWidth := laneWidth w;
     canvasHeight := canvasHeight w |}.
Definition set_player (v : Player.t) (w : t) : t :=
  {| gameState := gameState w; visualFX := visualFX w; player := v;
     enemies := enemies w; coins := coins w; powerUps := powerUps w;
     targetLane := targetLane w; laneWidth := laneWidth w;
     canvasHeight := canvasHeight w |}.
Definition set_enemies (v : list Enemy.t) (w : t) : t :=
  {| gameState := gameState w; visualFX := visualFX w; player := player w;
     enemies := v; coins := coins w; powerUps := powerUps w;
     targetLane := targetLane w; laneWidth := laneWidth w;
     canvasHeight := canvasHeight w |}.
Definition set_coins (v : list Coin.t) (w : t) : t :=
  {| gameState := gameState w; visualFX := visualFX w; player := player w;
     enemies := enemies w; coins := v; powerUps := powerUps w;
     targetLane := targetLane w; laneWidth := laneWidth w;
     canvasHeight := canvasHeight w |}.
Definition set_powerUps (v : list PowerUp.t) (w : t) : t :=
  {| gameState := gameState w; visualFX := visualFX w; player := player w;
     enemies := enemies w; coins := coins w; powerUps := v;
     targetLane := targetLane w; laneWidth := laneWidth w;
     canvasHeight := canvasHeight w |}.
Definition set_targetLane (v : Z) (w : t) : t :=
  {| gameState := gameState w; visualFX := visualFX w; player := player w;
     enemies := enemies w; coins := coins w; powerUps := powerUps w;
     targetLane := v; laneWidth := laneWidth w;
     canvasHeight := canvasHeight w |}.
Definition set_laneWidth (v : Q) (w : t) : t :=
  {| gameState := gameState w; visualFX := visualFX w; player := player w;
     enemies := enemies w; coins := coins w; powerUps := powerUps w;
     targetLane := targetLane w; laneWidth := v;
     canvasHeight := canvasHeight w |}.
Definition set_canvasHeight (v : Q) (w : t) : t :=
  {| gameState := gameState w; visualFX := visualFX w; player := player w;
     enemies := enemies w; coins := coins w; powerUps := powerUps w;
     targetLane := targetLane w; laneWidth := laneWidth w;
     canvasHeight := v |}.
(** Apply a function to [gameState] in place. *)
Definition on_gameState (f : GameState -> GameState) (w : t) : t :=
  set_gameState (f (gameState w)) w.
End World.

(** ** Collisions *)

(** [checkCollision(a, b)]. *)
Definition checkCollision (a b : Rect.t) : bool :=
  let padding := 10%Q in
  Qltb (Rect.x a) (Rect.x b + Rect.width b - padding) &&
  Qltb (Rect.x b + padding) (Rect.x a + Rect.width a) &&
  Qltb (Rect.y a) (Rect.y b + Rect.height b - padding) &&
  Qltb (Rect.y b + padding) (Rect.y a + Rect.height a).

(** The body shared by [checkCoinCollision] and [checkPowerUpCollision]:
    a circle of diameter [size] at [(ex, ey)] against the player. *)
Definition circleHitsPlayer (player : Player.t) (ex ey size : Q) : bool :=
  let centerX := (ex + size / 2)%Q in
  let centerY := (ey + size / 2)%Q in
  let closestX :=
    Qmax (Player.x player) (Qmin centerX (Player.x player + Player.width player)) in
  let closestY :=
    Qmax (Player.y player) (Qmin centerY (Player.y player + Player.height player)) in
  let dx := (centerX - closestX)%Q in
  let dy := (centerY - closestY)%Q in
  Qltb (dx * dx + dy * dy) ((size / 2) * (size / 2)).

(** [checkCoinCollision(player, coin)]. *)
Definition checkCoinCollision (player : Player.t) (coin : Coin.t) : bool :=
  circleHitsPlayer player (Coin.x coin) (Coin.y coin) (Coin.size coin).

(** [checkPowerUpCollision(player, powerUp)]. *)
Definition checkPowerUpCollision (player : Player.t) (powerUp : PowerUp.t) : bool :=
  circleHitsPlayer player (PowerUp.x powerUp) (PowerUp.y powerUp) (PowerUp.size powerUp).

Section Game.

Variable cfg : Config.

(** ** Lane geometry *)

(** [getLaneX(lane)], with [CONFIG.laneWidth] as an argument. *)
Definition getLaneX (laneWidth : Q) (lane : Z) : Q :=
  (inject_Z lane * laneWidth + (laneWidth - playerWidth cfg) / 2)%Q.

(** ** Controls *)

(** [moveLeft()]. *)
Definition moveLeft (w : World.t) : World.t :=
  let gs := World.gameState w in
  if negb (isPlaying gs) || isPaused gs then w
  else if 0 <? World.targetLane w
       then World.set_targetLane (World.targetLane w - 1) w
       else w.

(** [moveRight()]. *)
Definition moveRight (w : World.t) : World.t :=
  let gs := World.gameState w in
  if negb (isPlaying gs) || isPaused gs then w
  else if World.targetLane w <? lanes cfg - 1
       then World.set_targetLane (World.targetLane w + 1) w
       else w.

(** The callback that [startGame()] hands to [showCountdown], on the game
    state; it runs when the countdown ends.  [Session.startGame_callback]
    has its [startSpawners()]. *)
Definition startGame_callback (gs : GameState) : GameState :=
  set_isGameOver false (set_isPaused false (set_isPlaying true gs)).

(** [pauseGame()] on the game state; [Session.pauseGame] has its
    [stopSpawners()]. *)
Definition pauseGame (gs : GameState) : GameState := set_isPaused true gs.

(** [resumeGame()] on the game state; [Session.resumeGame] has its
    [startSpawners()]. *)
Definition resumeGame (gs : GameState) : GameState := set_isPaused false gs.

(** [gameOver()]. *)
Definition gameOver (gs : GameState) : GameState :=
  let gs := set_isPlaying false gs in
  let gs := set_isGameOver true gs in
  let isNewRecord := topScore gs <? score gs in
  let gs := if isNewRecord then set_topScore (score gs) gs else gs in
  set_totalCoins (totalCoins gs + coins gs) gs.

(** [initPlayer()]. *)
Definition initPlayer (w : World.t) : World.t :=
  let w := World.set_targetLane 2 w in
  World.set_player
    {| Player.x := getLaneX (World.laneWidth w) 1;
       Player.y := World.canvasHeight w - 150;
       Player.width := playerWidth cfg;
       Player.height := playerHeight cfg;
       Player.lane := 1 |} w.

(** [restartGame()] on the world; the [startGame()] at its end starts a
    countdown, which [Session.restartGame] has. *)
Definition restartGame (w : World.t) : World.t :=
  let gs := World.gameState w in
  let gs := set_score 0 gs in
  let gs := set_coins 0 gs in
  let gs := set_distance 0 gs in
  let gs := set_dodgedCars 0 gs in
  let gs := set_combo 0 gs in
  let gs := set_currentSpeed 1 gs in
  let gs := set_difficultyLevel 1 gs in
  let gs := set_isGameOver false gs in
  let gs := set_isPlaying false gs in
  let gs := set_isPaused false gs in
  let gs := set_hasShield false gs in
  let gs := set_hasMagnet false gs in
  let gs := set_hasSlowMo false gs in
  let gs := set_hasDoublePoints false gs in
  let gs := set_hasNitro false gs in
  let gs := set_activePowerUp None gs in
  let w := World.set_gameState gs w in
  let w := World.set_enemies [] w in
  let w := World.set_coins [] w in
  let w := World.set_powerUps [] w in
  let w := World.set_visualFX
             {| nitroActive := false;
                nitroEndTime := nitroEndTime (World.visualFX w) |} w in
  initPlayer w.

(** [togglePlayPause()]. *)
Definition togglePlayPause (w : World.t) : World.t :=
  let gs := World.gameState w in
  if isGameOver gs then restartGame w
  else if negb (isPlaying gs) then w
  else if isPaused gs then World.on_gameState resumeGame w
  else World.on_gameState pauseGame w.

(** [resetTopScore()]. *)
Definition resetTopScore (gs : GameState) : GameState := set_topScore 0 gs.

(** [resizeCanvas()], for a container of the given client size. *)
Definition resizeCanvas (clientWidth clientHeight : Q) (w : World.t) : World.t :=
  let w := World.set_canvasHeight clientHeight w in
  let w := World.set_laneWidth (clientWidth / inject_Z (lanes cfg)) w in
  World.set_player
    (Player.set_x (getLaneX (World.laneWidth w) (World.targetLane w)) (World.player w)) w.

(** ** Spawners *)

(** [spawnEnemy()]; [lane] is the random draw. *)
Definition spawnEnemy (lane : Z) (w : World.t) : World.t :=
  let gs := World.gameState w in
  if negb (isPlaying gs) || isPaused gs then w
  else
    let minDistance := (enemyHeight cfg * 2)%Q in
    let canSpawn :=
      negb (existsb (fun e => (Enemy.lane e =? lane) && Qltb (Enemy.y e) minDistance)
                    (World.enemies w)) in
    if canSpawn then
      World.set_enemies
        (World.enemies w ++
         [ {| Enemy.x := getLaneX (World.laneWidth w) lane;
              Enemy.y := - enemyHeight cfg;
              Enemy.width := enemyWidth cfg;
              Enemy.height := enemyHeight cfg;
              Enemy.lane := lane;
              Enemy.speed :=
                initialEnemySpeed cfg + inject_Z (difficultyLevel gs) * 0.5;
              Enemy.passed := false |} ]) w
    else w.

(** [spawnCoin()]; [lane] is the random draw. *)
Definition spawnCoin (lane : Z) (w : World.t) : World.t :=
  let gs := World.gameState w in
  if negb (isPlaying gs) || isPaused gs then w
  else
    let isSafe :=
      negb (existsb (fun e => (Enemy.lane e =? lane)
                              && Qltb (Enemy.y e) (coinSize cfg * 3))
                    (World.enemies w)) in
    if isSafe then
      World.set_coins
        (World.coins w ++
         [ {| Coin.x := getLaneX (World.laneWidth w) lane;
              Coin.y := - coinSize cfg;
              Coin.size := coinSize cfg;
              Coin.lane := lane |} ]) w
    else w.

(** [spawnPowerUp()]; [r] is the first [Math.random()], [lane] and [type]
    the two draws that follow. *)
Definition spawnPowerUp (r : Q) (lane : Z) (type : PowerUpType) (w : World.t)
  : World.t :=
  let gs := World.gameState w in
  if negb (isPlaying gs) || isPaused gs then w
  else if Qltb 0.5 r then w
  else
    World.set_powerUps
      (World.powerUps w ++
       [ {| PowerUp.x := getLaneX (World.laneWidth w) lane;
            PowerUp.y := - powerUpSize cfg;
            PowerUp.size := powerUpSize cfg;
            PowerUp.lane := lane;
            PowerUp.type := type |} ]) w.

(** ** Collection and scoring *)

(** [collectCoin(coin)]. *)
Definition collectCoin (coin : Coin.t) (gs : GameState) : GameState :=
  let value := if hasDoublePoints gs then coinValue cfg * 2 else coinValue cfg in
  let gs := set_coins (coins gs + value) gs in
  set_score (score gs + value * 10) gs.

(** [deactivatePowerUp()]. *)
Definition deactivatePowerUp (w : World.t) : World.t :=
  let gs := World.gameState w in
  let gs := set_hasShield false gs in
  let gs := set_hasMagnet false gs in
  let gs := set_hasSlowMo false gs in
  let gs := set_hasDoublePoints false gs in
  let gs := set_hasNitro false gs in
  let gs := set_activePowerUp None gs in
  let w := World.set_gameState gs w in
  World.set_visualFX
    {| nitroActive := false; nitroEndTime := nitroEndTime (World.visualFX w) |} w.

(** [collectPowerUp(powerUp)]. *)
Definition collectPowerUp (now : Z) (powerUp : PowerUp.t) (w : World.t) : World.t :=
  let type := PowerUp.type powerUp in
  let w := match activePowerUp (World.gameState w) with
           | Some _ => deactivatePowerUp w
           | None => w
           end in
  let w := World.on_gameState (set_activePowerUp (Some type)) w in
  let gs := World.gameState w in
  match type with
  | SHIELD =>
      World.set_gameState
        (set_powerUpEndTime (now + shieldDuration cfg) (set_hasShield true gs)) w
  | MAGNET =>
      World.set_gameState
        (set_powerUpEndTime (now + magnetDuration cfg) (set_hasMagnet true gs)) w
  | SLOW_MO =>
      World.set_gameState
        (set_powerUpEndTime (now + slowMoDuration cfg) (set_hasSlowMo true gs)) w
  | DOUBLE_POINTS =>
      World.set_gameState
        (set_powerUpEndTime (now + doublePointsDuration cfg)
           (set_hasDoublePoints true gs)) w
  | NITRO =>
      let gs := set_hasNitro true gs in
      let fx := {| nitroActive := true; nitroEndTime := now + nitroDuration cfg |} in
      let gs := set_powerUpEndTime (nitroEndTime fx) gs in
      World.set_visualFX fx (World.set_gameState gs w)
  end.

(** [handleDodge()]. *)
Definition handleDodge (now : Z) (gs : GameState) : GameState :=
  let gs := if now - lastDodgeTime gs <? comboTimeout cfg
            then set_combo (combo gs + 1) gs
            else set_combo 1 gs in
  let gs := set_lastDodgeTime now gs in
  let comboBonus := combo gs * 50 in
  let doubleMultiplier := if hasDoublePoints gs then 2 else 1 in
  set_score (score gs + comboBonus * doubleMultiplier) gs.

(** ** The per-frame update *)

(** The loop of [updateEnemies(deltaSpeed)].  The array is walked from its
    last index down: [pending] lists [enemies[i], ..., enemies[0]] and
    [kept] what remains of the indices above [i], in array order.  The
    result is the array when the function returns, and the world. *)
Fixpoint updateEnemies_loop (deltaSpeed : Q) (now : Z)
    (pending kept : list Enemy.t) (w : World.t) : World.t :=
  match pending with
  | [] => World.set_enemies kept w
  | enemy :: rest =>
      let gs := World.gameState w in
      let player := World.player w in
      let enemy :=
        Enemy.set_y (Enemy.y enemy + Enemy.speed enemy * currentSpeed gs * deltaSpeed)
                    enemy in
      if negb (hasShield gs) && checkCollision (Player.rect player) (Enemy.rect enemy)
      then
        World.set_enemies (rev rest ++ enemy :: kept) (World.on_gameState gameOver w)
      else
        let dodged :=
          negb (Enemy.passed enemy)
          && Qltb (Player.y player + Player.height player) (Enemy.y enemy) in
        let enemy := if dodged then Enemy.set_passed true enemy else enemy in
        let w :=
          if dodged
          then World.on_gameState
                 (fun gs => handleDodge now (set_dodgedCars (dodgedCars gs + 1) gs)) w
          else w in
        if Qltb (World.canvasHeight w + Enemy.height enemy) (Enemy.y enemy)
        then updateEnemies_loop deltaSpeed now rest kept w
        else updateEnemies_loop deltaSpeed now rest (enemy :: kept) w
  end.

(** [updateEnemies(deltaSpeed)]. *)
Definition updateEnemies (deltaSpeed : Q) (now : Z) (w : World.t) : World.t :=
  updateEnemies_loop deltaSpeed now (rev (World.enemies w)) [] w.

(** The loop of [updateCoins(deltaSpeed)], walked like the enemies.
    [Math.sqrt(dx*dx + dy*dy) < magnetRange] is compared on the squares;
    it is only evaluated under the magnet, where [magnetRange] is 150. *)
Fixpoint updateCoins_loop (deltaSpeed magnetRange : Q)
    (pending kept : list Coin.t) (w : World.t) : World.t :=
  match pending with
  | [] => World.set_coins kept w
  | coin :: rest =>
      let gs := World.gameState w in
      let player := World.player w in
      let coin :=
        Coin.set_y (Coin.y coin + roadMarkingSpeed cfg * currentSpeed gs * deltaSpeed)
                   coin in
      let coin :=
        if hasMagnet gs then
          let dx := (Player.x player - Coin.x coin)%Q in
          let dy := (Player.y player - Coin.y coin)%Q in
          if Qltb (dx * dx + dy * dy) (magnetRange * magnetRange)
          then Coin.set_y (Coin.y coin + dy * 0.1)
                          (Coin.set_x (Coin.x coin + dx * 0.1) coin)
          else coin
        else coin in
      if checkCoinCollision player coin
      then updateCoins_loop deltaSpeed magnetRange rest kept
             (World.on_gameState (collectCoin coin) w)
      else if Qltb (World.canvasHeight w + Coin.size coin) (Coin.y coin)
      then updateCoins_loop deltaSpeed magnetRange rest kept w
      else updateCoins_loop deltaSpeed magnetRange rest (coin :: kept) w
  end.

(** [updateCoins(deltaSpeed)]. *)
Definition updateCoins (deltaSpeed : Q) (w : World.t) : World.t :=
  let magnetRange : Q := if hasMagnet (World.gameState w) then 150%Q else 0%Q in
  updateCoins_loop deltaSpeed magnetRange (rev (World.coins w)) [] w.

(** The loop of [updatePowerUps(deltaSpeed)]. *)
Fixpoint updatePowerUps_loop (deltaSpeed : Q) (now : Z)
    (pending kept : list PowerUp.t) (w : World.t) : World.t :=
  match pending with
  | [] => World.set_powerUps kept w
  | powerUp :: rest =>
      let gs := World.gameState w in
      let player := World.player w in
      let powerUp :=
        PowerUp.set_y
          (PowerUp.y powerUp + roadMarkingSpeed cfg * currentSpeed gs * deltaSpeed)
          powerUp in
      if checkPowerUpCollision player powerUp
      then updatePowerUps_loop deltaSpeed now rest kept (collectPowerUp now powerUp w)
      else if Qltb (World.canvasHeight w + PowerUp.size powerUp) (PowerUp.y powerUp)
      then updatePowerUps_loop deltaSpeed now rest kept w
      else updatePowerUps_loop deltaSpeed now rest (powerUp :: kept) w
  end.

(** [updatePowerUps(deltaSpeed)]. *)
Definition updatePowerUps (deltaSpeed : Q) (now : Z) (w : World.t) : World.t :=
  updatePowerUps_loop deltaSpeed now (rev (World.powerUps w)) [] w.

(** [updatePowerUpTimers()]. *)
Definition updatePowerUpTimers (now : Z) (w : World.t) : World.t :=
  let gs := World.gameState w in
  match activePowerUp gs with
  | Some _ => if powerUpEndTime gs <? now then deactivatePowerUp w else w
  | None => w
  end.

(** [updateCombo()]. *)
Definition updateCombo (now : Z) (gs : GameState) : GameState :=
  if (0 <? combo gs) && (comboTimeout cfg <? now - lastDodgeTime gs)
  then set_combo 0 gs
  else gs.

(** The share of [updateVisualFX()] that the game logic can see. *)
Definition updateVisualFX (now : Z) (w : World.t) : World.t :=
  let fx := World.visualFX w in
  if nitroActive fx && (nitroEndTime fx <? now)
  then World.set_visualFX {| nitroActive := false; nitroEndTime := nitroEndTime fx |} w
  else w.

(** The head of [update()]: speed, distance, nitro bonus and difficulty. *)
Definition advanceClock (deltaSpeed nitroMultiplier : Q) (gs : GameState) : GameState :=
  let gs := set_currentSpeed (currentSpeed gs + speedIncreaseRate cfg) gs in
  let gs :=
    set_distance (distance gs + currentSpeed gs * deltaSpeed * nitroMultiplier) gs in
  let gs := if hasNitro gs
            then set_score (score gs + Qfloor (10 * deltaSpeed)) gs
            else gs in
  if Qltb (js_rem (distance gs) (difficultyIncreaseInterval cfg)) 10
  then set_difficultyLevel
         (Qfloor (distance gs / difficultyIncreaseInterval cfg) + 1) gs
  else gs.

(** The smooth lane transition of [update()]. *)
Definition easePlayer (w : World.t) : World.t :=
  let player := World.player w in
  let targetX := getLaneX (World.laneWidth w) (World.targetLane w) in
  let dx := (targetX - Player.x player)%Q in
  World.set_player
    (Player.set_lane (World.targetLane w)
       (Player.set_x (Player.x player + dx * 0.15) player)) w.

(** [update()]. *)
Definition update (now : Z) (w : World.t) : World.t :=
  let gs := World.gameState w in
  if negb (isPlaying gs) || isPaused gs then w
  else
    let deltaSpeed : Q := if hasSlowMo gs then 0.5%Q else 1%Q in
    let nitroMultiplier : Q := if hasNitro gs then 1.8%Q else 1%Q in
    let w := World.on_gameState (advanceClock deltaSpeed nitroMultiplier) w in
    let w := easePlayer w in
    let w := updateEnemies deltaSpeed now w in
    let w := updateCoins deltaSpeed w in
    let w := updatePowerUps deltaSpeed now w in
    let w := updatePowerUpTimers now w in
    let w := World.on_gameState (updateCombo now) w in
    World.on_gameState
      (fun gs => set_score (score gs + Qfloor (currentSpeed gs * deltaSpeed)) gs) w.

(** The game-logic share of one [render()] frame.  script.js calls
    [update()] alone; [nitroActive] is never set there and
    [updateVisualFX] changes nothing. *)
Definition render (now : Z) (w : World.t) : World.t :=
  update now (updateVisualFX now w).

(** ** Runs *)

(** What the host can call between two frames. *)
Inductive Op :=
| OpRender (now : Z)
| OpMoveLeft
| OpMoveRight
| OpTogglePlayPause
| OpCountdownDone
| OpRestart
| OpResetTopScore
| OpResize (clientWidth clientHeight : Q)
| OpSpawnEnemy (lane : Z)
| OpSpawnCoin (lane : Z)
| OpSpawnPowerUp (r : Q) (lane : Z) (type : PowerUpType).

Definition step (op : Op) (w : World.t) : World.t :=
  match op with
  | OpRender now => render now w
  | OpMoveLeft => moveLeft w
  | OpMoveRight => moveRight w
  | OpTogglePlayPause => togglePlayPause w
  | OpCountdownDone => World.on_gameState startGame_callback w
  | OpRestart => restartGame w
  | OpResetTopScore => World.on_gameState resetTopScore w
  | OpResize cw ch => resizeCanvas cw ch w
  | OpSpawnEnemy lane => spawnEnemy lane w
  | OpSpawnCoin lane => spawnCoin lane w
  | OpSpawnPowerUp r lane type => spawnPowerUp r lane type w
  end.

Definition run (ops : list Op) (w : World.t) : World.t :=
  fold_left (fun w op => step op w) ops w.

(** The literal [gameState] of the script, given what [localStorage]
    holds. *)
Definition gameState0 (storedTopScore storedCoins storedTotalCoins : Z) : GameState :=
  {| isPlaying := false; isPaused := false; isGameOver := false;
     score := 0; topScore := storedTopScore; coins := storedCoins;
     totalCoins := storedTotalCoins; distance := 0; dodgedCars := 0;
     combo := 0; lastDodgeTime := 0; currentSpeed := 1; difficultyLevel := 1;
     hasShield := false; hasMagnet := false; hasSlowMo := false;
     hasDoublePoints := false; hasNitro := false;
     activePowerUp := None; powerUpEndTime := 0 |}.

(** The world after [init()] in a container of the given client size. *)
Definition init (storedTopScore storedCoins storedTotalCoins : Z)
    (clientWidth clientHeight : Q) : World.t :=
  let laneWidth := (clientWidth / inject_Z (lanes cfg))%Q in
  initPlayer
    {| World.gameState := gameState0 storedTopScore storedCoins storedTotalCoins;
       World.visualFX := {| nitroActive := false; nitroEndTime := 0 |};
       World.player :=
         {| Player.x := 0; Player.y := 0; Player.width := 0; Player.height := 0;
            Player.lane := 0 |};
       World.enemies := []; World.coins := []; World.powerUps := [];
       World.targetLane := 1;
       World.laneWidth := laneWidth;
       World.canvasHeight := clientHeight |}.

End Game.

(** * Vocabulary of the properties, and the worlds they are tried on *)

(** A rectangle shrunk inward by [p] on its four sides. *)
Definition shrink (p : Q) (r : Rect.t) : Rect.t :=
  {| Rect.x := Rect.x r + p; Rect.y := Rect.y r + p;
     Rect.width := Rect.width r - 2 * p; Rect.height := Rect.height r - 2 * p |}.

(** Two axis-aligned rectangles overlap: they share an open region. *)
Definition overlap (a b : Rect.t) : Prop :=
  (Rect.x a < Rect.x b + Rect.width b)%Q /\
  (Rect.x b < Rect.x a + Rect.width a)%Q /\
  (Rect.y a < Rect.y b + Rect.height b)%Q /\
  (Rect.y b < Rect.y a + Rect.height a)%Q.

(** The free space between two rectangles along each axis; negative when
    their projections overlap. *)
Definition gap_x (a b : Rect.t) : Q :=
  Qmax (Rect.x b - (Rect.x a + Rect.width a)) (Rect.x a - (Rect.x b + Rect.width b)).
Definition gap_y (a b : Rect.t) : Q :=
  Qmax (Rect.y b - (Rect.y a + Rect.height a)) (Rect.y a - (Rect.y b + Rect.height b)).

(** Two player-sized boxes whose shrunk versions are 5 px apart on the
    x axis, and that [checkCollision] reports as colliding. *)
Definition box_a : Rect.t :=
  {| Rect.x := 0; Rect.y := 0; Rect.width := 40; Rect.height := 75 |}.
Definition box_b : Rect.t :=
  {| Rect.x := 25; Rect.y := 0; Rect.width := 40; Rect.height := 75 |}.

(** The centre and the radius of a coin. *)
Definition coinCenterX (coin : Coin.t) : Q := Coin.x coin + Coin.size coin / 2.
Definition coinCenterY (coin : Coin.t) : Q := Coin.y coin + Coin.size coin / 2.
Definition coinRadius (coin : Coin.t) : Q := Coin.size coin / 2.

(** The point [(qx, qy)] lies in the player's rectangle. *)
Definition inPlayer (player : Player.t) (qx qy : Q) : Prop :=
  (Player.x player <= qx <= Player.x player + Player.width player)%Q /\
  (Player.y player <= qy <= Player.y player + Player.height player)%Q.

Definition sqdist (ax ay bx by_ : Q) : Q :=
  (ax - bx) * (ax - bx) + (ay - by_) * (ay - by_).

(** [clamp(v, lo, hi)] as the source spells it. *)
Definition clamp (lo hi v : Q) : Q := Qmax lo (Qmin v hi).

(** The coin centre is at least [d] beyond one edge of the player. *)
Definition outside_by (d : Q) (player : Player.t) (coin : Coin.t) : Prop :=
  (coinCenterX coin <= Player.x player - d)%Q \/
  (Player.x player + Player.width player + d <= coinCenterX coin)%Q \/
  (coinCenterY coin <= Player.y player - d)%Q \/
  (Player.y player + Player.height player + d <= coinCenterY coin)%Q.

(** A player in lane 2 of a 400 x 800 canvas, a coin centred on it and a
    coin to its right. *)
Definition player0 : Player.t :=
  {| Player.x := 180; Player.y := 650; Player.width := 40; Player.height := 75;
     Player.lane := 2 |}.
Definition coin_centered : Coin.t :=
  {| Coin.x := 185; Coin.y := 672.5; Coin.size := 30; Coin.lane := 2 |}.
Definition coin_beside : Coin.t :=
  {| Coin.x := 221; Coin.y := 672.5; Coin.size := 30; Coin.lane := 3 |}.

(** The two actions of the input source. *)
Inductive Shift := ShiftLeft | ShiftRight.

Definition requestLaneShift (cfg : Config) (d : Shift) (w : World.t) : World.t :=
  match d with
  | ShiftLeft => moveLeft w
  | ShiftRight => moveRight cfg w
  end.

Definition laneInRange (cfg : Config) (w : World.t) : Prop :=
  0 <= World.targetLane w <= lanes cfg - 1.

(** A world right after [init()] in a 400 x 800 container, and the same
    world once the countdown has ended. *)
Definition world0 : World.t := init CONFIG 0 0 0 400 800.
Definition playing0 : World.t := World.on_gameState startGame_callback world0.

(** [P] holds of the [gameState] and the [visualFX] of a world. *)
Definition holds (P : GameState -> VisualFX -> Prop) (w : World.t) : Prop :=
  P (World.gameState w) (World.visualFX w).

(** Everything [update()] does after the clock has advanced. *)
Definition finishFrame (cfg : Config) (deltaSpeed : Q) (now : Z) (w : World.t)
  : World.t :=
  let w := easePlayer cfg w in
  let w := updateEnemies cfg deltaSpeed now w in
  let w := updateCoins cfg deltaSpeed w in
  let w := updatePowerUps cfg deltaSpeed now w in
  let w := updatePowerUpTimers now w in
  let w := World.on_gameState (updateCombo cfg now) w in
  World.on_gameState
    (fun gs => set_score (score gs + Qfloor (currentSpeed gs * deltaSpeed)) gs) w.

(** The operations that restart the run: the restart button, and the
    play/pause button on the game-over screen. *)
Definition restarts (op : Op) (w : World.t) : bool :=
  match op with
  | OpRestart => true
  | OpTogglePlayPause => isGameOver (World.gameState w)
  | _ => false
  end.

(** The boolean flag of [gameState] that belongs to a power-up type. *)
Definition flag (t : PowerUpType) (gs : GameState) : bool :=
  match t with
  | SHIELD => hasShield gs
  | MAGNET => hasMagnet gs
  | SLOW_MO => hasSlowMo gs
  | DOUBLE_POINTS => hasDoublePoints gs
  | NITRO => hasNitro gs
  end.

(** The duration that [collectPowerUp] adds to the clock for each type. *)
Definition powerUpDuration (cfg : Config) (t : PowerUpType) : Z :=
  match t with
  | SHIELD => shieldDuration cfg
  | MAGNET => magnetDuration cfg
  | SLOW_MO => slowMoDuration cfg
  | DOUBLE_POINTS => doublePointsDuration cfg
  | NITRO => nitroDuration cfg
  end.

(** The flags of [gs] are those of the active power-up [o] and no other. *)
Definition flagsExactly (o : option PowerUpType) (gs : GameState) : Prop :=
  forall t, flag t gs = match o with
                        | Some a => PowerUpType_eqb t a
                        | None => false
                        end.

(** The flags agree with [activePowerUp]; the nitro visual is only on
    under the nitro flag. *)
Definition powerUpState_ok (gs : GameState) (fx : VisualFX) : Prop :=
  flagsExactly (activePowerUp gs) gs /\
  (nitroActive fx = true -> hasNitro gs = true).

(** [gs'] has the power-up fields of [gs]. *)
Definition samePowerUp (gs gs' : GameState) : Prop :=
  activePowerUp gs' = activePowerUp gs /\ forall t, flag t gs' = flag t gs.

(** Power-ups lying on the player, and the playing world after a shield
    was collected at time 0. *)
Definition shield_pickup : PowerUp.t :=
  {| PowerUp.x := 180; PowerUp.y := 660; PowerUp.size := 40; PowerUp.lane := 2;
     PowerUp.type := SHIELD |}.
Definition magnet_pickup : PowerUp.t :=
  {| PowerUp.x := 180; PowerUp.y := 660; PowerUp.size := 40; PowerUp.lane := 2;
     PowerUp.type := MAGNET |}.
Definition shielded0 : World.t := collectPowerUp CONFIG 0 shield_pickup playing0.

(** C3 as the claim states it: picking up the type that is already active
    leaves the expiry where it was. *)
Definition repickup_keeps_expiry (cfg : Config) : Prop :=
  forall (now : Z) (powerUp : PowerUp.t) (w : World.t) (T : PowerUpType) (E : Z),
    activePowerUp (World.gameState w) = Some T ->
    powerUpEndTime (World.gameState w) = E ->
    PowerUp.type powerUp = T ->
    powerUpEndTime (World.gameState (collectPowerUp cfg now powerUp w)) = E.

(** C5 as the claim states it: the dodge after the gap of 2001 ms awards
    50 points, whether DoublePoints is active or not. *)
Definition gap_dodge_awards_50 (cfg : Config) : Prop :=
  forall (gs : GameState) (t1 t2 t3 t4 : Z),
    combo gs = 0 ->
    t2 - t1 < 2000 ->
    t3 - t2 < 2000 ->
    t4 - t3 = 2001 ->
    let g1 := handleDodge cfg t1 gs in
    let g2 := handleDodge cfg t2 g1 in
    let g3 := handleDodge cfg t3 g2 in
    let g4 := handleDodge cfg t4 g3 in
    combo g3 = 3 /\
    score g3 = score gs + (if hasDoublePoints gs then 600 else 300) /\
    combo g4 = 1 /\
    score g4 = score g3 + 50.

(** The playing world after a DoublePoints pickup was collected at time
    0; the effect lasts until 10000. *)
Definition double_pickup : PowerUp.t :=
  {| PowerUp.x := 180; PowerUp.y := 660; PowerUp.size := 40; PowerUp.lane := 2;
     PowerUp.type := DOUBLE_POINTS |}.
Definition doubled0 : World.t := collectPowerUp CONFIG 0 double_pickup playing0.

(** A playing world in a 400 x 800 canvas, about 800 frames into a run:
    score 100 and no record yet, a combo of 2 from a dodge at time 2995,
    DoublePoints active until 4990; the player in lane 2, an enemy that
    reaches it in this frame and another one further up, and a coin that
    reaches the player in this frame. *)
Definition crash_gameState : GameState :=
  {| isPlaying := true; isPaused := false; isGameOver := false;
     score := 100; topScore := 0; coins := 0; totalCoins := 0;
     distance := 1000; dodgedCars := 2; combo := 2; lastDodgeTime := 2995;
     currentSpeed := 1.4; difficultyLevel := 1;
     hasShield := false; hasMagnet := false; hasSlowMo := false;
     hasDoublePoints := true; hasNitro := false;
     activePowerUp := Some DOUBLE_POINTS; powerUpEndTime := 4990 |}.

Definition enemy_far : Enemy.t :=
  {| Enemy.x := 20; Enemy.y := 100; Enemy.width := 40; Enemy.height := 75;
     Enemy.lane := 0; Enemy.speed := 4.5; Enemy.passed := false |}.
Definition enemy_hit : Enemy.t :=
  {| Enemy.x := 180; Enemy.y := 580; Enemy.width := 40; Enemy.height := 75;
     Enemy.lane := 2; Enemy.speed := 4.5; Enemy.passed := false |}.
Definition coin_on_player : Coin.t :=
  {| Coin.x := 180; Coin.y := 615; Coin.size := 30; Coin.lane := 2 |}.

Definition crash0 : World.t :=
  {| World.gameState := crash_gameState;
     World.visualFX := {| nitroActive := false; nitroEndTime := 0 |};
     World.player := player0;
     World.enemies := [enemy_far; enemy_hit];
     World.coins := [coin_on_player];
     World.powerUps := [];
     World.targetLane := 2;
     World.laneWidth := 80;
     World.canvasHeight := 800 |}.

(** [gs'] has the distance, the speed and the level of [gs]. *)
Definition sameClock (gs gs' : GameState) : Prop :=
  distance gs' = distance gs /\ currentSpeed gs' = currentSpeed gs /\
  difficultyLevel gs' = difficultyLevel gs.







(** [gs'] has the mode flags of [gs]. *)
Definition sameMode (gs gs' : GameState) : Prop :=
  isPlaying gs' = isPlaying gs /\ isPaused gs' = isPaused gs /\
  hasSlowMo gs' = hasSlowMo gs /\ hasNitro gs' = hasNitro gs.


(** * Vocabulary of the further properties *)

(** The x of the target lane, which [update] steers the player to. *)
Definition targetX (cfg : Config) (w : World.t) : Q :=
  getLaneX cfg (World.laneWidth w) (World.targetLane w).

(** [w'] has the player, the target lane and the canvas of [w]. *)
Definition sameStage (w w' : World.t) : Prop :=
  World.player w' = World.player w /\
  World.targetLane w' = World.targetLane w /\
  World.laneWidth w' = World.laneWidth w /\
  World.canvasHeight w' = World.canvasHeight w.

(** The operations that the guard [!isPlaying || isPaused] protects:
    frames of the game logic, lane shifts and the spawner callbacks. *)
Definition guarded (op : Op) : bool :=
  match op with
  | OpRender _ | OpMoveLeft | OpMoveRight
  | OpSpawnEnemy _ | OpSpawnCoin _ | OpSpawnPowerUp _ _ _ => true
  | _ => false
  end.

(** The state of the game proper: everything but [visualFX]. *)
Definition sameGame (w w' : World.t) : Prop :=
  World.gameState w' = World.gameState w /\
  World.player w' = World.player w /\
  World.enemies w' = World.enemies w /\
  World.coins w' = World.coins w /\
  World.powerUps w' = World.powerUps w /\
  World.targetLane w' = World.targetLane w.

(** An enemy after its advance in a frame. *)
Definition enemyAdvanced (deltaSpeed speed : Q) (e : Enemy.t) : Enemy.t :=
  Enemy.set_y (Enemy.y e + Enemy.speed e * speed * deltaSpeed) e.

(** The advanced enemy overlaps the player. *)
Definition enemyHits (deltaSpeed speed : Q) (player : Player.t) (e : Enemy.t) : bool :=
  checkCollision (Player.rect player) (Enemy.rect (enemyAdvanced deltaSpeed speed e)).

(** The advanced enemy has cleared the player and was not counted yet. *)
Definition enemyDodged (deltaSpeed speed : Q) (player : Player.t) (e : Enemy.t) : bool :=
  negb (Enemy.passed e)
  && Qltb (Player.y player + Player.height player)
          (Enemy.y (enemyAdvanced deltaSpeed speed e)).

(** The enemy as the pass leaves it: advanced, and marked once dodged. *)
Definition enemyAfter (deltaSpeed speed : Q) (player : Player.t) (e : Enemy.t)
  : Enemy.t :=
  if enemyDodged deltaSpeed speed player e
  then Enemy.set_passed true (enemyAdvanced deltaSpeed speed e)
  else enemyAdvanced deltaSpeed speed e.

(** The enemy is still on the canvas. *)
Definition enemyOnCanvas (canvasHeight : Q) (e : Enemy.t) : bool :=
  negb (Qltb (canvasHeight + Enemy.height e) (Enemy.y e)).

(** What the enemy loop reads of the world and never writes. *)
Definition sameScene (w w' : World.t) : Prop :=
  sameStage w w' /\
  currentSpeed (World.gameState w') = currentSpeed (World.gameState w) /\
  hasShield (World.gameState w') = hasShield (World.gameState w) /\
  isGameOver (World.gameState w') = isGameOver (World.gameState w) /\
  isPlaying (World.gameState w') = isPlaying (World.gameState w).

(** The number of elements of [l] that satisfy [f]. *)
Definition countb {A : Type} (f : A -> bool) (l : list A) : Z :=
  Z.of_nat (length (filter f l)).

(** The flags that say whether a run is on. *)
Definition sameRunState (g p : bool) (gs : GameState) (_ : VisualFX) : Prop :=
  isGameOver gs = g /\ isPlaying gs = p.

(** What a run keeps true of its counters. *)
Definition countersInv (gs : GameState) : Prop :=
  0 <= score gs /\ 0 <= combo gs /\ (1 <= currentSpeed gs)%Q.

(** [gs'] has at least the score [s] and the wallet [c], the lifetime
    coins [tc], and its combo and speed are in range. *)
Definition grows (s c tc : Z) (gs' : GameState) : Prop :=
  s <= score gs' /\ c <= coins gs' /\ totalCoins gs' = tc /\
  0 <= combo gs' /\ (1 <= currentSpeed gs')%Q.

(** The lifetime coins [tc'] after an operation on a world with lifetime
    coins [tc] and wallet [c]: untouched, or increased by the wallet at a
    game over. *)
Definition banked (tc c tc' : Z) : Prop := tc' = tc \/ tc' = tc + c.

(** A coin after its advance in a frame: moved down the road and, under
    the magnet and within its range, pulled a tenth of the way towards the
    corner [(player.x, player.y)]. *)
Definition coinAfter (cfg : Config) (deltaSpeed speed : Q) (magnet : bool)
    (magnetRange : Q) (player : Player.t) (c : Coin.t) : Coin.t :=
  let coin := Coin.set_y (Coin.y c + roadMarkingSpeed cfg * speed * deltaSpeed) c in
  if magnet then
    let dx := (Player.x player - Coin.x coin)%Q in
    let dy := (Player.y player - Coin.y coin)%Q in
    if Qltb (dx * dx + dy * dy) (magnetRange * magnetRange)
    then Coin.set_y (Coin.y coin + dy * 0.1) (Coin.set_x (Coin.x coin + dx * 0.1) coin)
    else coin
  else coin.

(** The coin is still on the canvas. *)
Definition coinOnCanvas (canvasHeight : Q) (c : Coin.t) : bool :=
  negb (Qltb (canvasHeight + Coin.size c) (Coin.y c)).

(** The value of one coin. *)
Definition coinWorth (cfg : Config) (gs : GameState) : Z :=
  if hasDoublePoints gs then coinValue cfg * 2 else coinValue cfg.

(** What the coin loop reads of the world and never writes. *)
Definition sameCoinScene (w w' : World.t) : Prop :=
  sameStage w w' /\
  currentSpeed (World.gameState w') = currentSpeed (World.gameState w) /\
  hasMagnet (World.gameState w') = hasMagnet (World.gameState w) /\
  hasDoublePoints (World.gameState w') = hasDoublePoints (World.gameState w).

(** A coin off to the right of the player of [playing0], within the reach
    of the magnet, and that world with the magnet on and this coin on the
    road. *)
Definition coin_in_reach : Coin.t :=
  {| Coin.x := 200; Coin.y := 600; Coin.size := 30; Coin.lane := 2 |}.
Definition magnet0 : World.t :=
  World.set_coins [coin_in_reach]
    (World.on_gameState (set_hasMagnet true) playing0).

(** A pickup after its advance in a frame. *)
Definition powerUpAfter (cfg : Config) (deltaSpeed speed : Q) (p : PowerUp.t)
  : PowerUp.t :=
  PowerUp.set_y (PowerUp.y p + roadMarkingSpeed cfg * speed * deltaSpeed) p.

(** The pickup is still on the canvas. *)
Definition powerUpOnCanvas (canvasHeight : Q) (p : PowerUp.t) : bool :=
  negb (Qltb (canvasHeight + PowerUp.size p) (PowerUp.y p)).

(** The power-up state right after [p] was collected at [now]. *)
Definition pickedUp (cfg : Config) (now : Z) (p : PowerUp.t) (w : World.t) : Prop :=
  let gs := World.gameState w in
  activePowerUp gs = Some (PowerUp.type p) /\
  powerUpEndTime gs = now + powerUpDuration cfg (PowerUp.type p) /\
  flag (PowerUp.type p) gs = true.

(** The fields that decide what the coin and power-up passes and the
    power-up timer do are those of [gs0] and [fx0]. *)
Definition timerFields (gs0 : GameState) (fx0 : VisualFX)
    (gs : GameState) (fx : VisualFX) : Prop :=
  activePowerUp gs = activePowerUp gs0 /\
  (forall t, flag t gs = flag t gs0) /\
  powerUpEndTime gs = powerUpEndTime gs0 /\
  currentSpeed gs = currentSpeed gs0 /\
  fx = fx0.

(** The active power-up of [gs] has run out at [now]. *)
Definition expired (now : Z) (gs : GameState) : bool :=
  match activePowerUp gs with
  | Some _ => powerUpEndTime gs <? now
  | None => false
  end.

(** The level is at least 1 and never ahead of the step function of the
    distance. *)
Definition levelInv (cfg : Config) (gs : GameState) : Prop :=
  (0 <= distance gs)%Q /\ (1 <= currentSpeed gs)%Q /\
  1 <= difficultyLevel gs /\
  difficultyLevel gs
  <= Qfloor (distance gs / difficultyIncreaseInterval cfg) + 1.

(** The timers of the three spawners: the interval in milliseconds of each
    running timer. *)
Record Spawners := {
  enemySpawnTimer : option Z;
  coinSpawnTimer : option Z;
  powerUpSpawnTimer : option Z
}.

(** [stopSpawners()]. *)
Definition stopSpawners (s : Spawners) : Spawners :=
  {| enemySpawnTimer := None; coinSpawnTimer := None; powerUpSpawnTimer := None |}.

(** [startSpawners()]. *)
Definition startSpawners (cfg : Config) (gs : GameState) (s : Spawners) : Spawners :=
  let s := stopSpawners s in
  let spawnRate :=
    Z.max (minEnemySpawnRate cfg) (enemySpawnRate cfg - difficultyLevel gs * 100) in
  {| enemySpawnTimer := Some spawnRate;
     coinSpawnTimer := Some (coinSpawnRate cfg);
     powerUpSpawnTimer := Some (powerUpSpawnRate cfg) |}.

(** Every dodge of [ts] comes less than [timeout] after the one before,
    the first one after [last]. *)
Fixpoint streak (timeout last : Z) (ts : list Z) : bool :=
  match ts with
  | [] => true
  | t :: rest => (t - last <? timeout) && streak timeout t rest
  end.

(** [handleDodge()] at each of the times [ts] in turn. *)
Definition dodges (cfg : Config) (ts : list Z) (gs : GameState) : GameState :=
  fold_left (fun gs t => handleDodge cfg t gs) ts gs.

(** [F] does not read [visualFX]: run on a world with other visual
    effects, it gives the same world up to the visual effects. *)
Definition fxBlind (F : World.t -> World.t) : Prop :=
  forall w fx, exists fx',
    F (World.set_visualFX fx w) = World.set_visualFX fx' (F w).






(** The functions of the source that start or clear an interval timer,
    with that part of their body: the three spawner timers ([Spawners])
    and the countdown intervals of [showCountdown].  A countdown interval
    is its identifier and the [count] of its closure; [countdownInterval]
    is the variable of that name, [nextTimer] the identifier that the next
    [setInterval] returns.  When each timer fires next is not part of the
    state: a firing of a countdown is the event [Tick]. *)
Module Session.

Record t := {
  world : World.t;
  spawners : Spawners;
  countdowns : list (nat * Z);
  countdownInterval : option nat;
  nextTimer : nat
}.

Definition set_world (v : World.t) (s : t) : t :=
  {| world := v; spawners := spawners s; countdowns := countdowns s;
     countdownInterval := countdownInterval s; nextTimer := nextTimer s |}.
Definition set_spawners (v : Spawners) (s : t) : t :=
  {| world := world s; spawners := v; countdowns := countdowns s;
     countdownInterval := countdownInterval s; nextTimer := nextTimer s |}.
Definition set_countdowns (v : list (nat * Z)) (s : t) : t :=
  {| world := world s; spawners := spawners s; countdowns := v;
     countdownInterval := countdownInterval s; nextTimer := nextTimer s |}.

(** The [count] of the running countdown interval [id]. *)
Definition countOf (id : nat) (l : list (nat * Z)) : option Z :=
  match find (fun p => Nat.eqb (fst p) id) l with
  | Some p => Some (snd p)
  | None => None
  end.

(** The assignment to [count] in the closure of interval [id]. *)
Definition setCount (id : nat) (count : Z) (l : list (nat * Z)) : list (nat * Z) :=
  map (fun p => if Nat.eqb (fst p) id then (id, count) else p) l.

(** [clearInterval(handle)]; clearing [null] or an interval that does not
    run does nothing. *)
Definition clearInterval (handle : option nat) (l : list (nat * Z))
  : list (nat * Z) :=
  match handle with
  | Some id => filter (fun p => negb (Nat.eqb (fst p) id)) l
  | None => l
  end.

(** The callback of [startGame()], with its [startSpawners()]. *)
Definition startGame_callback (cfg : Config) (s : t) : t :=
  let s := set_world (World.on_gameState startGame_callback (world s)) s in
  set_spawners (startSpawners cfg (World.gameState (world s)) (spawners s)) s.

(** [showCountdown(callback)]: [count = 3] and a new interval, whose
    identifier goes to [countdownInterval]. *)
Definition showCountdown (s : t) : t :=
  {| world := world s; spawners := spawners s;
     countdowns := countdowns s ++ [(nextTimer s, 3)];
     countdownInterval := Some (nextTimer s);
     nextTimer := S (nextTimer s) |}.

(** [startGame()]. *)
Definition startGame (s : t) : t := showCountdown s.

(** One firing of the countdown interval [id]: the function that
    [showCountdown] hands to [setInterval].  An interval that was cleared
    does not fire. *)
Definition countdownTick (cfg : Config) (id : nat) (s : t) : t :=
  match countOf id (countdowns s) with
  | None => s
  | Some count =>
      let count := count - 1 in
      let s := set_countdowns (setCount id count (countdowns s)) s in
      if 0 <? count then s
      else
        let s :=
          set_countdowns (clearInterval (countdownInterval s) (countdowns s)) s in
        startGame_callback cfg s
  end.

(** [pauseGame()], with its [stopSpawners()]. *)
Definition pauseGame (s : t) : t :=
  let s := set_world (World.on_gameState pauseGame (world s)) s in
  set_spawners (stopSpawners (spawners s)) s.

(** [resumeGame()], with its [startSpawners()]. *)
Definition resumeGame (cfg : Config) (s : t) : t :=
  let s := set_world (World.on_gameState resumeGame (world s)) s in
  set_spawners (startSpawners cfg (World.gameState (world s)) (spawners s)) s.

(** [restartGame()], with the [startGame()] at its end. *)
Definition restartGame (cfg : Config) (s : t) : t :=
  startGame (set_world (restartGame cfg (world s)) s).

(** [togglePlayPause()]. *)
Definition togglePlayPause (cfg : Config) (s : t) : t :=
  let gs := World.gameState (world s) in
  if isGameOver gs then restartGame cfg s
  else if negb (isPlaying gs) then startGame s
  else if isPaused gs then resumeGame cfg s
  else pauseGame s.

(** What can happen to a session: a countdown interval fires, the
    play/pause button, the restart button, or any other code, which may
    change the world and the spawner timers but has no access to the
    countdown (frames with the game over they may call, lane shifts,
    spawner callbacks, resizes, the top-score reset). *)
Inductive Event :=
| Tick (id : nat)
| TogglePlayPause
| Restart
| Elsewhere (f : World.t * Spawners -> World.t * Spawners).

Definition step (cfg : Config) (ev : Event) (s : t) : t :=
  match ev with
  | Tick id => countdownTick cfg id s
  | TogglePlayPause => togglePlayPause cfg s
  | Restart => restartGame cfg s
  | Elsewhere f =>
      let r := f (world s, spawners s) in
      set_spawners (snd r) (set_world (fst r) s)
  end.

Definition run (cfg : Config) (evs : list Event) (s : t) : t :=
  fold_left (fun s ev => step cfg ev s) evs s.

(** The session when the page has loaded: no timer runs. *)
Definition init (w : World.t) : t :=
  {| world := w;
     spawners := {| enemySpawnTimer := None; coinSpawnTimer := None;
                    powerUpSpawnTimer := None |};
     countdowns := []; countdownInterval := None; nextTimer := 0 |}.

End Session.

(** The countdown interval [A] has been overtaken: it still runs, its
    next firing is its last step or beyond, and [countdownInterval] holds
    another identifier, so that no [clearInterval] of the program can
    reach it. *)
Definition overtaken (A : nat) (s : Session.t) : Prop :=
  (exists c, Session.countOf A (Session.countdowns s) = Some c /\ c <= 1) /\
  Session.countdownInterval s <> Some A /\
  (A < Session.nextTimer s)%nat.

(** The spawner timers that [startSpawners] leaves in the world [w]. *)
Definition spawnersAt (cfg : Config) (w : World.t) : Spawners :=
  {| enemySpawnTimer :=
       Some (Z.max (minEnemySpawnRate cfg)
                   (enemySpawnRate cfg
                    - difficultyLevel (World.gameState w) * 100));
     coinSpawnTimer := Some (coinSpawnRate cfg);
     powerUpSpawnTimer := Some (powerUpSpawnRate cfg) |}.

(** No operation of [ops], run from [w], restarts the game. *)
Fixpoint noRestart (cfg : Config) (ops : list Op) (w : World.t) : bool :=
  match ops with
  | [] => true
  | op :: rest => negb (restarts op w) && noRestart cfg rest (step cfg op w)
  end.

(** * Properties *)

(** ** Comparison and rounding lemmas *)

Lemma Qltb_lt (a b : Q) : Qltb a b = true <-> (a < b)%Q.
Proof.
  unfold Qltb. rewrite negb_true_iff. split.
  - intros H. apply Qnot_le_lt. intros Hle.
    apply Qle_bool_iff in Hle. congruence.
  - intros H. destruct (Qle_bool b a) eqn:E; [|reflexivity].
    apply Qle_bool_iff in E. exfalso. apply (Qlt_not_le _ _ H E).
Qed.

Lemma Qltb_ge (a b : Q) : Qltb a b = false <-> (b <= a)%Q.
Proof.
  unfold Qltb. rewrite negb_false_iff. apply Qle_bool_iff.
Qed.

(** Case analysis on every [Qmax] and [Qmin] of the goal. *)
Ltac split_minmax_at a b spec op :=
  let m := fresh "m" in
  destruct (spec a b) as [[? ?]|[? ?]];
  set (m := op a b) in *; clearbody m.

Ltac split_minmax :=
  repeat match goal with
  | |- context [Qmin ?a ?b] => split_minmax_at a b Q.min_spec Qmin
  | _ : context [Qmin ?a ?b] |- _ => split_minmax_at a b Q.min_spec Qmin
  | |- context [Qmax ?a ?b] => split_minmax_at a b Q.max_spec Qmax
  | _ : context [Qmax ?a ?b] |- _ => split_minmax_at a b Q.max_spec Qmax
  end.

(** ** Lane geometry *)

(** C10. For a positive lane width [getLaneX] is strictly increasing in the
    lane index, so two distinct lanes get two distinct x-coordinates, in
    the order of the lanes. *)
Theorem getLaneX_strictly_increasing :
  forall (cfg : Config) (laneWidth : Q) (a b : Z),
    (0 < laneWidth)%Q ->
    (a < b -> (getLaneX cfg laneWidth a < getLaneX cfg laneWidth b)%Q) /\
    (a <> b -> ~ (getLaneX cfg laneWidth a == getLaneX cfg laneWidth b)%Q).
Proof.
  intros cfg lw a b Hlw.
  assert (mono : forall i j : Z,
             i < j -> (getLaneX cfg lw i < getLaneX cfg lw j)%Q).
  { intros i j Hij. unfold getLaneX.
    rewrite Zlt_Qlt in Hij.
    set (qi := inject_Z i) in *. set (qj := inject_Z j) in *.
    nra. }
  split.
  - apply mono.
  - intros Hne Heq.
    destruct (Z.lt_total a b) as [Hlt|[Hab|Hgt]].
    + apply mono in Hlt. lra.
    + contradiction.
    + apply mono in Hgt. lra.
Qed.

Lemma getLaneX_strictly_increasing_witness :
  (getLaneX CONFIG 80 1 < getLaneX CONFIG 80 2)%Q /\
  ~ (getLaneX CONFIG 80 1 == getLaneX CONFIG 80 2)%Q.
Proof.
  destruct (getLaneX_strictly_increasing CONFIG 80 1 2) as [Hlt Hne].
  - reflexivity.
  - split; [apply Hlt; lia | apply Hne; lia].
Defined.

(** ** Enemy collision *)

Lemma checkCollision_true (a b : Rect.t) :
  checkCollision a b = true <->
  (Rect.x a < Rect.x b + Rect.width b - 10)%Q /\
  (Rect.x b + 10 < Rect.x a + Rect.width a)%Q /\
  (Rect.y a < Rect.y b + Rect.height b - 10)%Q /\
  (Rect.y b + 10 < Rect.y a + Rect.height a)%Q.
Proof.
  unfold checkCollision. rewrite !andb_true_iff, !Qltb_lt. tauto.
Qed.

(** C4, as stated, fails: [checkCollision] is not the overlap test of the
    two rectangles each shrunk by 10 px. *)
Lemma checkCollision_not_both_shrunk :
  ~ (checkCollision box_a box_b = true <->
     overlap (shrink 10 box_a) (shrink 10 box_b)).
Proof.
  intros [H _].
  assert (Hc : checkCollision box_a box_b = true) by reflexivity.
  destruct (H Hc) as (_ & Hx & _).
  unfold shrink, box_a, box_b in Hx; simpl in Hx. lra.
Qed.

(** C4, amended. [checkCollision a b] holds exactly when [a] overlaps [b]
    shrunk inward by 10 px on its four sides (equally: when the two
    rectangles each shrunk by 5 px overlap); identical boxes wider and
    taller than 20 px collide; boxes at least 10 px apart on every axis do
    not. *)
Theorem checkCollision_spec :
  forall a b : Rect.t,
    (checkCollision a b = true <-> overlap a (shrink 10 b)) /\
    (checkCollision a b = true <-> overlap (shrink 5 a) (shrink 5 b)) /\
    ((Rect.x a == Rect.x b)%Q -> (Rect.y a == Rect.y b)%Q ->
     (Rect.width a == Rect.width b)%Q -> (Rect.height a == Rect.height b)%Q ->
     (20 < Rect.width a)%Q -> (20 < Rect.height a)%Q ->
     checkCollision a b = true) /\
    ((10 <= gap_x a b)%Q -> (10 <= gap_y a b)%Q -> checkCollision a b = false).
Proof.
  intros a b. rewrite checkCollision_true.
  repeat split; unfold overlap, shrink in *; simpl in *;
    try solve [intuition lra].
  intros Hx Hy.
  destruct (checkCollision a b) eqn:E; [|reflexivity].
  apply checkCollision_true in E.
  revert Hx. unfold gap_x. split_minmax; intros; lra.
Qed.

Lemma checkCollision_spec_witness :
  checkCollision box_a box_a = true /\
  checkCollision box_a
    {| Rect.x := 50; Rect.y := 85; Rect.width := 40; Rect.height := 75 |} = false.
Proof.
  split.
  - destruct (checkCollision_spec box_a box_a) as (_ & _ & H & _).
    apply H; simpl; lra.
  - destruct (checkCollision_spec box_a
      {| Rect.x := 50; Rect.y := 85; Rect.width := 40; Rect.height := 75 |})
      as (_ & _ & _ & H).
    apply H; vm_compute; discriminate.
Defined.

(** ** Coin pickup *)

(** Division by the constant 2, in the form [lra] reads. *)
Ltac qhalf :=
  unfold Qdiv in *; change (/ 2)%Q with (1 # 2)%Q in *.

Lemma clamp_in_range (lo len v : Q) :
  (0 <= len)%Q -> (lo <= clamp lo (lo + len) v <= lo + len)%Q.
Proof.
  intros Hlen. unfold clamp. split_minmax; lra.
Qed.

Lemma clamp_nearest (lo len v q : Q) :
  (0 <= len)%Q -> (lo <= q <= lo + len)%Q ->
  ((v - clamp lo (lo + len) v) * (v - clamp lo (lo + len) v)
   <= (v - q) * (v - q))%Q.
Proof.
  intros Hlen Hq. unfold clamp. split_minmax; try nra.
  match goal with
  | |- ((v - ?c) * (v - ?c) <= _)%Q =>
      assert (E : (v - c == 0)%Q) by lra; rewrite E
  end.
  generalize (v - q)%Q. intros d. nra.
Qed.

Lemma checkCoinCollision_true (player : Player.t) (coin : Coin.t) :
  checkCoinCollision player coin = true <->
  (sqdist (coinCenterX coin) (coinCenterY coin)
     (clamp (Player.x player) (Player.x player + Player.width player)
            (coinCenterX coin))
     (clamp (Player.y player) (Player.y player + Player.height player)
            (coinCenterY coin))
   < coinRadius coin * coinRadius coin)%Q.
Proof.
  unfold checkCoinCollision, circleHitsPlayer. rewrite Qltb_lt. reflexivity.
Qed.

(** C7. The pickup test compares the squared distance from the coin centre
    to the closest point of the player rectangle with the squared radius,
    strictly; a coin centred on the centre of the player is collected; a
    coin whose centre is [radius + eps] beyond an edge is not. *)
Theorem checkCoinCollision_spec :
  forall (player : Player.t) (coin : Coin.t),
    (0 <= Player.width player)%Q -> (0 <= Player.height player)%Q ->
    (0 < Coin.size coin)%Q ->
    let cx := coinCenterX coin in
    let cy := coinCenterY coin in
    let r := coinRadius coin in
    let px := clamp (Player.x player) (Player.x player + Player.width player) cx in
    let py := clamp (Player.y player) (Player.y player + Player.height player) cy in
    (inPlayer player px py /\
     (forall qx qy, inPlayer player qx qy ->
        (sqdist cx cy px py <= sqdist cx cy qx qy)%Q) /\
     (checkCoinCollision player coin = true <-> (sqdist cx cy px py < r * r)%Q)) /\
    ((cx == Player.x player + Player.width player / 2)%Q ->
     (cy == Player.y player + Player.height player / 2)%Q ->
     checkCoinCollision player coin = true) /\
    (forall eps : Q, (0 < eps)%Q -> outside_by (r + eps) player coin ->
     checkCoinCollision player coin = false).
Proof.
  intros player coin Hw Hh Hs cx cy r px py.
  assert (Hr : (0 < r)%Q) by (unfold r, coinRadius; qhalf; lra).
  pose proof (clamp_in_range (Player.x player) (Player.width player) cx Hw) as Hpx.
  pose proof (clamp_in_range (Player.y player) (Player.height player) cy Hh) as Hpy.
  fold px in Hpx. fold py in Hpy.
  split; [split; [|split]|split].
  - split; assumption.
  - intros qx qy [Hqx Hqy]. unfold sqdist.
    pose proof (clamp_nearest (Player.x player) (Player.width player) cx qx Hw Hqx).
    pose proof (clamp_nearest (Player.y player) (Player.height player) cy qy Hh Hqy).
    fold px in H. fold py in H0. lra.
  - apply checkCoinCollision_true.
  - intros Hcx Hcy. apply checkCoinCollision_true.
    fold cx cy r px py. unfold sqdist.
    assert (Ex : (cx - px == 0)%Q)
      by (unfold px, clamp; qhalf; split_minmax; lra).
    assert (Ey : (cy - py == 0)%Q)
      by (unfold py, clamp; qhalf; split_minmax; lra).
    rewrite Ex, Ey. nra.
  - intros eps Heps Hout.
    destruct (checkCoinCollision player coin) eqn:E; [|reflexivity].
    apply checkCoinCollision_true in E. fold cx cy r px py in E.
    unfold sqdist in E. unfold outside_by in Hout. fold cx cy r in Hout.
    exfalso. clearbody px py cx cy r.
    assert (Hs0 : forall u : Q, (0 <= u * u)%Q) by (intros; nra).
    pose proof (Hs0 (cx - px)%Q). pose proof (Hs0 (cy - py)%Q).
    assert (Hsq : forall u : Q, (r + eps <= u)%Q -> (r * r < u * u)%Q)
      by (intros; nra).
    destruct Hout as [Ho|[Ho|[Ho|Ho]]].
    + pose proof (Hsq (px - cx)%Q ltac:(lra)). lra.
    + pose proof (Hsq (cx - px)%Q ltac:(lra)). lra.
    + pose proof (Hsq (py - cy)%Q ltac:(lra)). lra.
    + pose proof (Hsq (cy - py)%Q ltac:(lra)). lra.
Qed.

(** Closes a comparison between rational constants. *)
Ltac qconst := vm_compute; first [reflexivity | discriminate].

Lemma checkCoinCollision_spec_witness :
  checkCoinCollision player0 coin_centered = true /\
  checkCoinCollision player0 coin_beside = false.
Proof.
  split.
  - pose proof (checkCoinCollision_spec player0 coin_centered
                  ltac:(qconst) ltac:(qconst) ltac:(qconst)) as (_ & H & _).
    apply H; qconst.
  - pose proof (checkCoinCollision_spec player0 coin_beside
                  ltac:(qconst) ltac:(qconst) ltac:(qconst)) as (_ & _ & H).
    apply (H 1%Q); [qconst|].
    right; left. qconst.
Defined.

(** ** Combo scoring *)

(** C5, as stated, fails: with DoublePoints collected at time 0, dodges at
    1000, 2000 and 3000 bring the score from 0 to 600, and the dodge at
    5001 adds 100, not 50. *)
Lemma gap_dodge_pays_double : ~ gap_dodge_awards_50 CONFIG.
Proof.
  intros H.
  specialize (H (World.gameState doubled0) 1000 2000 3000 5001
                eq_refl eq_refl eq_refl eq_refl).
  cbv zeta in H. destruct H as (_ & _ & _ & H).
  vm_compute in H. discriminate H.
Qed.

(** C5, amended. From combo 0, three dodges less than 2000 ms apart bring
    the combo to 3 and add 50 + 100 + 150 = 300 points, 600 under
    DoublePoints; the next dodge, 2001 ms later, puts the combo back to 1
    and adds the bonus of a first dodge: 50 points, and 100 under
    DoublePoints. *)
Theorem handleDodge_combo :
  forall (cfg : Config) (gs : GameState) (t1 t2 t3 t4 : Z),
    comboTimeout cfg = 2000 ->
    combo gs = 0 ->
    t2 - t1 < 2000 ->
    t3 - t2 < 2000 ->
    t4 - t3 = 2001 ->
    let g1 := handleDodge cfg t1 gs in
    let g2 := handleDodge cfg t2 g1 in
    let g3 := handleDodge cfg t3 g2 in
    let g4 := handleDodge cfg t4 g3 in
    combo g1 = 1 /\ combo g2 = 2 /\ combo g3 = 3 /\ combo g4 = 1 /\
    (hasDoublePoints gs = false ->
     score g3 = score gs + 300 /\ score g4 = score g3 + 50) /\
    (hasDoublePoints gs = true ->
     score g3 = score gs + 600 /\ score g4 = score g3 + 100).
Proof.
  intros cfg gs t1 t2 t3 t4 Hto Hc H12 H23 H34.
  unfold handleDodge. rewrite Hto. simpl. rewrite Hc.
  assert (E1 : (if t1 - lastDodgeTime gs <? 2000
                then set_combo (0 + 1) gs else set_combo 1 gs) = set_combo 1 gs)
    by (destruct (t1 - lastDodgeTime gs <? 2000); reflexivity).
  rewrite E1. simpl.
  apply Z.ltb_lt in H12. rewrite H12. simpl.
  apply Z.ltb_lt in H23. rewrite H23. simpl.
  assert (H4 : (t4 - t3 <? 2000) = false) by (apply Z.ltb_ge; lia).
  rewrite H4. simpl.
  repeat (split; [reflexivity|]).
  destruct (hasDoublePoints gs); simpl;
    split; intros Hd; try discriminate Hd; split; lia.
Qed.

Lemma handleDodge_combo_witness :
  let gs := gameState0 0 0 0 in
  let g3 :=
    handleDodge CONFIG 3000 (handleDodge CONFIG 2000 (handleDodge CONFIG 1000 gs)) in
  let g4 := handleDodge CONFIG 5001 g3 in
  let gsd := World.gameState doubled0 in
  let g3d :=
    handleDodge CONFIG 3000 (handleDodge CONFIG 2000 (handleDodge CONFIG 1000 gsd)) in
  let g4d := handleDodge CONFIG 5001 g3d in
  (combo g3 = 3 /\ score g3 = 300 /\ combo g4 = 1 /\ score g4 = 350) /\
  (combo g3d = 3 /\ score g3d = 600 /\ combo g4d = 1 /\ score g4d = 700).
Proof.
  intros gs g3 g4 gsd g3d g4d.
  pose proof (handleDodge_combo CONFIG gs 1000 2000 3000 5001
                eq_refl eq_refl eq_refl eq_refl eq_refl)
    as (_ & _ & H3 & H4 & Hs & _).
  destruct (Hs eq_refl) as [Hs3 Hs4].
  pose proof (handleDodge_combo CONFIG gsd 1000 2000 3000 5001
                eq_refl eq_refl eq_refl eq_refl eq_refl)
    as (_ & _ & D3 & D4 & _ & Hd).
  destruct (Hd eq_refl) as [Hd3 Hd4].
  split.
  - split; [exact H3|]. split; [exact Hs3|]. split; [exact H4|exact Hs4].
  - split; [exact D3|]. split; [exact Hd3|]. split; [exact D4|].
    fold g3d g4d in Hd4. rewrite Hd4. fold g3d in Hd3. rewrite Hd3. reflexivity.
Defined.

(** ** Lane shifts *)

Lemma requestLaneShift_inRange (cfg : Config) (d : Shift) (w : World.t) :
  laneInRange cfg w -> laneInRange cfg (requestLaneShift cfg d w).
Proof.
  unfold laneInRange. intros H.
  destruct d; simpl; unfold moveLeft, moveRight;
    destruct (negb (isPlaying (World.gameState w)) || isPaused (World.gameState w));
    try assumption.
  - destruct (0 <? World.targetLane w) eqn:E; [|assumption].
    apply Z.ltb_lt in E. simpl. lia.
  - destruct (World.targetLane w <? lanes cfg - 1) eqn:E; [|assumption].
    apply Z.ltb_lt in E. simpl. lia.
Qed.

(** C8. Whatever the sequence of lane shifts, a target lane that starts in
    [0, lanes - 1] stays there; and a lane shift leaves the whole world as
    it is when the game is not playing or is paused. *)
Theorem requestLaneShift_clamped :
  forall (cfg : Config) (w : World.t),
    laneInRange cfg w ->
    (forall inputs : list Shift,
       laneInRange cfg (fold_left (fun w d => requestLaneShift cfg d w) inputs w)) /\
    (forall d : Shift,
       isPlaying (World.gameState w) = false \/ isPaused (World.gameState w) = true ->
       requestLaneShift cfg d w = w).
Proof.
  intros cfg w Hw. split.
  - intros inputs. revert w Hw.
    induction inputs as [|d inputs IH]; intros w Hw; simpl.
    + exact Hw.
    + apply IH. apply requestLaneShift_inRange. exact Hw.
  - intros d Hidle.
    destruct d; simpl; unfold moveLeft, moveRight;
      destruct Hidle as [E|E]; rewrite E; simpl; try reflexivity;
      rewrite orb_true_r; reflexivity.
Qed.

Lemma requestLaneShift_clamped_witness :
  laneInRange CONFIG
    (fold_left (fun w d => requestLaneShift CONFIG d w)
       [ShiftLeft; ShiftLeft; ShiftLeft; ShiftRight] playing0) /\
  requestLaneShift CONFIG ShiftLeft world0 = world0.
Proof.
  split.
  - apply (proj1 (requestLaneShift_clamped CONFIG playing0
                    ltac:(unfold laneInRange; simpl; lia))).
  - apply (proj2 (requestLaneShift_clamped CONFIG world0
                    ltac:(unfold laneInRange; simpl; lia))).
    left. reflexivity.
Defined.

(** ** Properties of [gameState] and [visualFX] that a frame keeps *)

Section Preservation.

Variable cfg : Config.
Variable P : GameState -> VisualFX -> Prop.

Hypothesis P_gameOver : forall gs fx, P gs fx -> P (gameOver gs) fx.
Hypothesis P_handleDodge :
  forall now gs fx,
    P gs fx -> P (handleDodge cfg now (set_dodgedCars (dodgedCars gs + 1) gs)) fx.
Hypothesis P_collectCoin : forall coin gs fx, P gs fx -> P (collectCoin cfg coin gs) fx.
Hypothesis P_collectPowerUp :
  forall now powerUp w, holds P w -> holds P (collectPowerUp cfg now powerUp w).
Hypothesis P_deactivatePowerUp : forall w, holds P w -> holds P (deactivatePowerUp w).
Hypothesis P_updateCombo : forall now gs fx, P gs fx -> P (updateCombo cfg now gs) fx.
Hypothesis P_set_score : forall v gs fx, P gs fx -> P (set_score v gs) fx.

Lemma holds_updateEnemies_loop (deltaSpeed : Q) (now : Z) :
  forall pending kept w,
    holds P w -> holds P (updateEnemies_loop cfg deltaSpeed now pending kept w).
Proof.
  induction pending as [|enemy rest IH]; intros kept w Hw; simpl.
  - exact Hw.
  - destruct (negb (hasShield (World.gameState w)) && checkCollision _ _).
    + unfold holds; simpl. apply P_gameOver. exact Hw.
    + match goal with
      | |- context [if ?c then Enemy.set_passed true _ else _] =>
          destruct c
      end.
      * match goal with
        | |- context [Qltb ?a ?b] => destruct (Qltb a b)
        end; apply IH; unfold holds; simpl; apply P_handleDodge; exact Hw.
      * match goal with
        | |- context [Qltb ?a ?b] => destruct (Qltb a b)
        end; apply IH; exact Hw.
Qed.

Lemma holds_updateCoins_loop (deltaSpeed magnetRange : Q) :
  forall pending kept w,
    holds P w ->
    holds P (updateCoins_loop cfg deltaSpeed magnetRange pending kept w).
Proof.
  induction pending as [|coin rest IH]; intros kept w Hw; simpl.
  - exact Hw.
  - match goal with
    | |- context [checkCoinCollision ?p ?c] => destruct (checkCoinCollision p c)
    end.
    + apply IH. unfold holds; simpl. apply P_collectCoin. exact Hw.
    + match goal with
      | |- context [if ?c then updateCoins_loop _ _ _ _ _ _ else _] => destruct c
      end; apply IH; exact Hw.
Qed.

Lemma holds_updatePowerUps_loop (deltaSpeed : Q) (now : Z) :
  forall pending kept w,
    holds P w ->
    holds P (updatePowerUps_loop cfg deltaSpeed now pending kept w).
Proof.
  induction pending as [|powerUp rest IH]; intros kept w Hw; simpl.
  - exact Hw.
  - match goal with
    | |- context [checkPowerUpCollision ?p ?c] => destruct (checkPowerUpCollision p c)
    end.
    + apply IH. apply P_collectPowerUp. exact Hw.
    + match goal with
      | |- context [if ?c then updatePowerUps_loop _ _ _ _ _ _ else _] => destruct c
      end; apply IH; exact Hw.
Qed.

Lemma holds_updatePowerUpTimers (now : Z) (w : World.t) :
  holds P w -> holds P (updatePowerUpTimers now w).
Proof.
  intros Hw. unfold updatePowerUpTimers.
  destruct (activePowerUp (World.gameState w)); [|exact Hw].
  destruct (powerUpEndTime (World.gameState w) <? now); [|exact Hw].
  apply P_deactivatePowerUp. exact Hw.
Qed.

Lemma holds_finishFrame (deltaSpeed : Q) (now : Z) (w : World.t) :
  holds P w -> holds P (finishFrame cfg deltaSpeed now w).
Proof.
  intros Hw. unfold finishFrame; cbv zeta.
  unfold holds at 1. simpl. apply P_set_score. apply P_updateCombo.
  apply holds_updatePowerUpTimers.
  apply holds_updatePowerUps_loop.
  apply holds_updateCoins_loop.
  apply holds_updateEnemies_loop.
  exact Hw.
Qed.

End Preservation.

Lemma update_unfold (cfg : Config) (now : Z) (w : World.t) :
  update cfg now w =
  let gs := World.gameState w in
  if negb (isPlaying gs) || isPaused gs then w
  else
    let deltaSpeed : Q := if hasSlowMo gs then 0.5%Q else 1%Q in
    let nitroMultiplier : Q := if hasNitro gs then 1.8%Q else 1%Q in
    finishFrame cfg deltaSpeed now
      (World.on_gameState (advanceClock cfg deltaSpeed nitroMultiplier) w).
Proof. reflexivity. Qed.

(** ** Speed *)

Lemma currentSpeed_gameOver (gs : GameState) :
  currentSpeed (gameOver gs) = currentSpeed gs.
Proof.
  unfold gameOver. simpl. destruct (topScore gs <? score gs); reflexivity.
Qed.

Lemma currentSpeed_handleDodge (cfg : Config) (now : Z) (gs : GameState) :
  currentSpeed (handleDodge cfg now gs) = currentSpeed gs.
Proof.
  unfold handleDodge.
  destruct (now - lastDodgeTime gs <? comboTimeout cfg); reflexivity.
Qed.

Lemma currentSpeed_collectCoin (cfg : Config) (coin : Coin.t) (gs : GameState) :
  currentSpeed (collectCoin cfg coin gs) = currentSpeed gs.
Proof. reflexivity. Qed.

Lemma currentSpeed_deactivatePowerUp (w : World.t) :
  currentSpeed (World.gameState (deactivatePowerUp w))
  = currentSpeed (World.gameState w).
Proof. reflexivity. Qed.

Lemma currentSpeed_collectPowerUp
    (cfg : Config) (now : Z) (powerUp : PowerUp.t) (w : World.t) :
  currentSpeed (World.gameState (collectPowerUp cfg now powerUp w))
  = currentSpeed (World.gameState w).
Proof.
  unfold collectPowerUp.
  destruct (activePowerUp (World.gameState w)); destruct (PowerUp.type powerUp);
    reflexivity.
Qed.

Lemma currentSpeed_updateCombo (cfg : Config) (now : Z) (gs : GameState) :
  currentSpeed (updateCombo cfg now gs) = currentSpeed gs.
Proof.
  unfold updateCombo.
  destruct ((0 <? combo gs) && (comboTimeout cfg <? now - lastDodgeTime gs));
    reflexivity.
Qed.

Lemma currentSpeed_advanceClock (cfg : Config) (d n : Q) (gs : GameState) :
  currentSpeed (advanceClock cfg d n gs)
  = (currentSpeed gs + speedIncreaseRate cfg)%Q.
Proof.
  unfold advanceClock. simpl.
  destruct (hasNitro gs); simpl;
    match goal with |- context [Qltb ?a ?b] => destruct (Qltb a b) end;
    reflexivity.
Qed.

Lemma currentSpeed_finishFrame
    (cfg : Config) (deltaSpeed : Q) (now : Z) (w : World.t) :
  currentSpeed (World.gameState (finishFrame cfg deltaSpeed now w))
  = currentSpeed (World.gameState w).
Proof.
  apply (holds_finishFrame cfg
           (fun gs _ => currentSpeed gs = currentSpeed (World.gameState w)));
    unfold holds; intros.
  - rewrite currentSpeed_gameOver. assumption.
  - rewrite currentSpeed_handleDodge. assumption.
  - rewrite currentSpeed_collectCoin. assumption.
  - rewrite currentSpeed_collectPowerUp. assumption.
  - rewrite currentSpeed_deactivatePowerUp. assumption.
  - rewrite currentSpeed_updateCombo. assumption.
  - assumption.
  - reflexivity.
Qed.

(** What one [update()] does to the speed. *)
Lemma currentSpeed_update (cfg : Config) (now : Z) (w : World.t) :
  currentSpeed (World.gameState (update cfg now w)) =
  if negb (isPlaying (World.gameState w)) || isPaused (World.gameState w)
  then currentSpeed (World.gameState w)
  else (currentSpeed (World.gameState w) + speedIncreaseRate cfg)%Q.
Proof.
  rewrite update_unfold. cbv zeta.
  destruct (negb (isPlaying (World.gameState w)) || isPaused (World.gameState w)).
  - reflexivity.
  - rewrite currentSpeed_finishFrame. simpl. apply currentSpeed_advanceClock.
Qed.

Lemma currentSpeed_step (cfg : Config) (op : Op) (w : World.t) :
  (0 <= speedIncreaseRate cfg)%Q ->
  restarts op w = false ->
  (currentSpeed (World.gameState w)
   <= currentSpeed (World.gameState (step cfg op w)))%Q.
Proof.
  intros Hrate Hop. destruct op; simpl in *; try discriminate.
  - unfold render. rewrite currentSpeed_update.
    replace (World.gameState (updateVisualFX now w)) with (World.gameState w)
      by (unfold updateVisualFX; destruct (_ && _); reflexivity).
    destruct (_ || _); lra.
  - unfold moveLeft. destruct (_ || _); [|destruct (_ <? _)]; simpl; lra.
  - unfold moveRight. destruct (_ || _); [|destruct (_ <? _)]; simpl; lra.
  - unfold togglePlayPause. rewrite Hop.
    destruct (negb _); [lra|]. destruct (isPaused _); simpl; lra.
  - lra.
  - lra.
  - lra.
  - unfold spawnEnemy. destruct (_ || _); [|destruct (negb _)]; simpl; lra.
  - unfold spawnCoin. destruct (_ || _); [|destruct (negb _)]; simpl; lra.
  - unfold spawnPowerUp. destruct (_ || _); [|destruct (Qltb _ _)]; simpl; lra.
Qed.

Lemma currentSpeed_restart (cfg : Config) (op : Op) (w : World.t) :
  restarts op w = true ->
  currentSpeed (World.gameState (step cfg op w)) = 1%Q.
Proof.
  intros Hop. destruct op; simpl in *; try discriminate.
  - unfold togglePlayPause. rewrite Hop. reflexivity.
  - reflexivity.
Qed.

(** C9. No operation of a run lowers [currentSpeed]: not a frame, a lane
    shift, a pause or a resume, a spawn, a resize, nor the collections,
    the dodge and the game over that a frame performs.  Only a restart
    sets it, to 1; and since it is at least 1 in every world a run can
    reach, a restart is the only operation that can lower it. *)
Theorem currentSpeed_never_decreases :
  forall cfg : Config,
    (0 <= speedIncreaseRate cfg)%Q ->
    (forall op w,
       restarts op w = false ->
       (currentSpeed (World.gameState w)
        <= currentSpeed (World.gameState (step cfg op w)))%Q) /\
    (forall op w,
       restarts op w = true ->
       currentSpeed (World.gameState (step cfg op w)) = 1%Q) /\
    (forall now coin powerUp w,
       let gs := World.gameState w in
       currentSpeed (collectCoin cfg coin gs) = currentSpeed gs /\
       currentSpeed (World.gameState (collectPowerUp cfg now powerUp w))
         = currentSpeed gs /\
       currentSpeed (handleDodge cfg now gs) = currentSpeed gs /\
       currentSpeed (pauseGame gs) = currentSpeed gs /\
       currentSpeed (resumeGame gs) = currentSpeed gs /\
       currentSpeed (gameOver gs) = currentSpeed gs) /\
    (forall ops top c tc cw ch,
       (1 <= currentSpeed (World.gameState (run cfg ops (init cfg top c tc cw ch))))%Q).
Proof.
  intros cfg Hrate. split; [|split; [|split]].
  - intros op w. apply currentSpeed_step. exact Hrate.
  - intros op w. apply currentSpeed_restart.
  - intros now coin powerUp w gs. subst gs.
    rewrite currentSpeed_collectPowerUp, currentSpeed_handleDodge,
      currentSpeed_gameOver.
    repeat split; reflexivity.
  - intros ops top c tc cw ch.
    assert (Hinv : forall ops w,
               (1 <= currentSpeed (World.gameState w))%Q ->
               (1 <= currentSpeed (World.gameState (run cfg ops w)))%Q).
    { clear ops. induction ops as [|op ops IH]; intros w Hw; simpl.
      - exact Hw.
      - apply IH. destruct (restarts op w) eqn:R.
        + rewrite (currentSpeed_restart cfg op w R). lra.
        + pose proof (currentSpeed_step cfg op w Hrate R). lra. }
    apply Hinv. simpl. lra.
Qed.

Lemma currentSpeed_never_decreases_witness :
  (currentSpeed (World.gameState playing0)
   <= currentSpeed (World.gameState (step CONFIG (OpRender 1000) playing0)))%Q /\
  currentSpeed (World.gameState (step CONFIG OpRestart playing0)) = 1%Q.
Proof.
  pose proof (currentSpeed_never_decreases CONFIG ltac:(qconst)) as (Hup & Hre & _).
  split.
  - apply Hup. reflexivity.
  - apply Hre. reflexivity.
Defined.

(** ** Power-ups *)

Lemma PowerUpType_eqb_eq (a b : PowerUpType) : PowerUpType_eqb a b = true <-> a = b.
Proof. destruct a, b; simpl; split; congruence. Qed.

Lemma powerUpState_ok_same (gs gs' : GameState) (fx : VisualFX) :
  samePowerUp gs gs' -> powerUpState_ok gs fx -> powerUpState_ok gs' fx.
Proof.
  intros [Ha Hf] [Hok Hn]. split.
  - intros t. rewrite Ha, Hf. apply Hok.
  - intros H. change (flag NITRO gs' = true).
    rewrite (Hf NITRO). apply Hn. exact H.
Qed.

Ltac same_powerUp :=
  split; [reflexivity | intros t; destruct t; reflexivity].

Lemma samePowerUp_gameOver (gs : GameState) : samePowerUp gs (gameOver gs).
Proof. unfold gameOver; simpl. destruct (topScore gs <? score gs); same_powerUp. Qed.

Lemma samePowerUp_handleDodge (cfg : Config) (now : Z) (gs : GameState) :
  samePowerUp gs (handleDodge cfg now (set_dodgedCars (dodgedCars gs + 1) gs)).
Proof. unfold handleDodge; simpl. destruct (_ <? _); same_powerUp. Qed.

Lemma samePowerUp_collectCoin (cfg : Config) (coin : Coin.t) (gs : GameState) :
  samePowerUp gs (collectCoin cfg coin gs).
Proof. same_powerUp. Qed.

Lemma samePowerUp_updateCombo (cfg : Config) (now : Z) (gs : GameState) :
  samePowerUp gs (updateCombo cfg now gs).
Proof. unfold updateCombo. destruct (_ && _); same_powerUp. Qed.

Lemma samePowerUp_advanceClock (cfg : Config) (d n : Q) (gs : GameState) :
  samePowerUp gs (advanceClock cfg d n gs).
Proof.
  unfold advanceClock; simpl.
  destruct (hasNitro gs) eqn:E; simpl;
    match goal with |- context [Qltb ?a ?b] => destruct (Qltb a b) end;
    split; try reflexivity; intros t; destruct t; simpl; auto.
Qed.

Lemma powerUpState_ok_deactivatePowerUp (w : World.t) :
  powerUpState_ok (World.gameState (deactivatePowerUp w))
                  (World.visualFX (deactivatePowerUp w)).
Proof.
  split.
  - intros t; destruct t; reflexivity.
  - simpl. discriminate.
Qed.

(** What [collectPowerUp] leaves behind, when it starts from an active
    power-up or from consistent idle flags. *)
Lemma collectPowerUp_result
    (cfg : Config) (now : Z) (powerUp : PowerUp.t) (w : World.t) :
  (activePowerUp (World.gameState w) <> None \/
   powerUpState_ok (World.gameState w) (World.visualFX w)) ->
  let w' := collectPowerUp cfg now powerUp w in
  let B := PowerUp.type powerUp in
  activePowerUp (World.gameState w') = Some B /\
  flagsExactly (Some B) (World.gameState w') /\
  powerUpEndTime (World.gameState w') = now + powerUpDuration cfg B /\
  (nitroActive (World.visualFX w') = true <-> B = NITRO).
Proof.
  intros Hpre. unfold collectPowerUp.
  destruct (activePowerUp (World.gameState w)) as [A|] eqn:EA.
  - destruct (PowerUp.type powerUp); simpl;
      (split; [reflexivity|]); (split; [intros t; destruct t; reflexivity|]);
      (split; [reflexivity|]); split; congruence.
  - destruct Hpre as [Hpre|[Hf Hn]]; [congruence|].
    rewrite EA in Hf.
    pose proof (Hf SHIELD) as F1. pose proof (Hf MAGNET) as F2.
    pose proof (Hf SLOW_MO) as F3. pose proof (Hf DOUBLE_POINTS) as F4.
    pose proof (Hf NITRO) as F5. simpl in F1, F2, F3, F4, F5.
    assert (Fn : nitroActive (World.visualFX w) = false).
    { destruct (nitroActive (World.visualFX w)); [|reflexivity].
      rewrite Hn in F5; [discriminate|reflexivity]. }
    destruct (PowerUp.type powerUp); simpl;
      (split; [reflexivity|]);
      (split; [intros t; destruct t; simpl; assumption || reflexivity|]);
      (split; [reflexivity|]); rewrite ?Fn; split; congruence.
Qed.

Lemma powerUpState_ok_collectPowerUp
    (cfg : Config) (now : Z) (powerUp : PowerUp.t) (w : World.t) :
  holds powerUpState_ok w ->
  holds powerUpState_ok (collectPowerUp cfg now powerUp w).
Proof.
  intros Hw.
  destruct (collectPowerUp_result cfg now powerUp w (or_intror Hw))
    as (Ha & Hf & _ & Hn).
  split.
  - rewrite Ha. exact Hf.
  - intros H. apply Hn in H.
    change (flag NITRO (World.gameState (collectPowerUp cfg now powerUp w)) = true).
    rewrite (Hf NITRO), H. reflexivity.
Qed.

Lemma powerUpState_ok_update (cfg : Config) (now : Z) (w : World.t) :
  holds powerUpState_ok w -> holds powerUpState_ok (update cfg now w).
Proof.
  intros Hw. rewrite update_unfold. cbv zeta.
  destruct (_ || _); [exact Hw|].
  apply holds_finishFrame.
  - intros gs fx. apply powerUpState_ok_same, samePowerUp_gameOver.
  - intros t gs fx. apply powerUpState_ok_same, samePowerUp_handleDodge.
  - intros c gs fx. apply powerUpState_ok_same, samePowerUp_collectCoin.
  - intros t p w1. apply powerUpState_ok_collectPowerUp.
  - intros w1 _. apply powerUpState_ok_deactivatePowerUp.
  - intros t gs fx. apply powerUpState_ok_same, samePowerUp_updateCombo.
  - intros v gs fx. apply powerUpState_ok_same. same_powerUp.
  - unfold holds. simpl.
    apply (powerUpState_ok_same (World.gameState w)); [|exact Hw].
    apply samePowerUp_advanceClock.
Qed.

Lemma powerUpState_ok_restartGame (cfg : Config) (w : World.t) :
  holds powerUpState_ok (restartGame cfg w).
Proof.
  split.
  - intros t; destruct t; reflexivity.
  - simpl. discriminate.
Qed.

Lemma powerUpState_ok_step (cfg : Config) (op : Op) (w : World.t) :
  holds powerUpState_ok w -> holds powerUpState_ok (step cfg op w).
Proof.
  intros Hw. destruct op; simpl.
  - unfold render. apply powerUpState_ok_update.
    unfold updateVisualFX. destruct (_ && _); [|exact Hw].
    destruct Hw as [Hf _]. split; [exact Hf|]. simpl. discriminate.
  - unfold moveLeft. destruct (_ || _); [|destruct (_ <? _)]; exact Hw.
  - unfold moveRight. destruct (_ || _); [|destruct (_ <? _)]; exact Hw.
  - unfold togglePlayPause.
    destruct (isGameOver _); [apply powerUpState_ok_restartGame|].
    destruct (negb _); [exact Hw|].
    destruct (isPaused _); unfold holds; simpl;
      (eapply powerUpState_ok_same; [|exact Hw]); same_powerUp.
  - unfold holds; simpl. eapply powerUpState_ok_same; [|exact Hw]. same_powerUp.
  - apply powerUpState_ok_restartGame.
  - unfold holds; simpl. eapply powerUpState_ok_same; [|exact Hw]. same_powerUp.
  - exact Hw.
  - unfold spawnEnemy. destruct (_ || _); [|destruct (negb _)]; exact Hw.
  - unfold spawnCoin. destruct (_ || _); [|destruct (negb _)]; exact Hw.
  - unfold spawnPowerUp. destruct (_ || _); [|destruct (Qltb _ _)]; exact Hw.
Qed.

Lemma powerUpState_ok_run (cfg : Config) (ops : list Op) :
  forall w, holds powerUpState_ok w -> holds powerUpState_ok (run cfg ops w).
Proof.
  induction ops as [|op ops IH]; intros w Hw; simpl.
  - exact Hw.
  - apply IH, powerUpState_ok_step, Hw.
Qed.

Lemma powerUpState_ok_init (cfg : Config) (top c tc : Z) (cw ch : Q) :
  holds powerUpState_ok (init cfg top c tc cw ch).
Proof.
  split.
  - intros t; destruct t; reflexivity.
  - simpl. discriminate.
Qed.

(** C2. Collecting a power-up of type B while a type A is active leaves B
    in [activePowerUp], B's flag (for NITRO also the nitro visual) on and
    every other flag, A's included, off; and in every world a run reaches
    at most one power-up flag is on, the one of [activePowerUp]. *)
Theorem powerUp_exclusive :
  forall cfg : Config,
    (forall now powerUp w A,
       activePowerUp (World.gameState w) = Some A ->
       let w' := collectPowerUp cfg now powerUp w in
       let B := PowerUp.type powerUp in
       activePowerUp (World.gameState w') = Some B /\
       (forall t, flag t (World.gameState w') = true <-> t = B) /\
       (A <> B -> flag A (World.gameState w') = false) /\
       (nitroActive (World.visualFX w') = true <-> B = NITRO)) /\
    (forall ops top c tc cw ch,
       let gs := World.gameState (run cfg ops (init cfg top c tc cw ch)) in
       (forall t, flag t gs = true <-> activePowerUp gs = Some t) /\
       (forall t1 t2, flag t1 gs = true -> flag t2 gs = true -> t1 = t2)).
Proof.
  intros cfg. split.
  - intros now powerUp w A HA w' B.
    destruct (collectPowerUp_result cfg now powerUp w) as (Ha & Hf & _ & Hn).
    { left. congruence. }
    fold w' B in Ha, Hf, Hn.
    split; [exact Ha|]. split; [|split; [|exact Hn]].
    + intros t. rewrite (Hf t). apply PowerUpType_eqb_eq.
    + intros Hne. rewrite (Hf A).
      destruct (PowerUpType_eqb A B) eqn:E; [|reflexivity].
      apply PowerUpType_eqb_eq in E. contradiction.
  - intros ops top c tc cw ch gs.
    destruct (powerUpState_ok_run cfg ops _ (powerUpState_ok_init cfg top c tc cw ch))
      as [Hf _].
    fold gs in Hf.
    assert (Hiff : forall t, flag t gs = true <-> activePowerUp gs = Some t).
    { intros t. rewrite (Hf t). destruct (activePowerUp gs) as [a|].
      - rewrite PowerUpType_eqb_eq. split; congruence.
      - split; discriminate. }
    split; [exact Hiff|].
    intros t1 t2 H1 H2. apply Hiff in H1. apply Hiff in H2. congruence.
Qed.

Lemma powerUp_exclusive_witness :
  let w' := collectPowerUp CONFIG 3000 magnet_pickup shielded0 in
  activePowerUp (World.gameState w') = Some MAGNET /\
  flag MAGNET (World.gameState w') = true /\
  flag SHIELD (World.gameState w') = false.
Proof.
  intros w'.
  pose proof (proj1 (powerUp_exclusive CONFIG) 3000 magnet_pickup shielded0 SHIELD
                eq_refl) as (Ha & Hf & HA & _).
  split; [exact Ha|]. split.
  - apply Hf. reflexivity.
  - apply HA. discriminate.
Defined.

(** C3, as stated, fails: a shield collected at time 0 ends at 5000; a
    second shield collected at 3000 moves the end to 8000. *)
Lemma repickup_moves_expiry : ~ repickup_keeps_expiry CONFIG.
Proof.
  intros H.
  specialize (H 3000 shield_pickup shielded0 SHIELD 5000 eq_refl eq_refl eq_refl).
  vm_compute in H. discriminate H.
Qed.

(** C3, amended. Picking up the type that is already active restarts its
    timer: the effect stays active and its expiry becomes the pickup time
    plus the duration of the type, whatever the previous expiry was.  The
    durations are not added up. *)
Theorem repickup_restarts_timer :
  forall (cfg : Config) (now : Z) (powerUp : PowerUp.t) (w : World.t)
         (T : PowerUpType) (E : Z),
    activePowerUp (World.gameState w) = Some T ->
    powerUpEndTime (World.gameState w) = E ->
    PowerUp.type powerUp = T ->
    let gs' := World.gameState (collectPowerUp cfg now powerUp w) in
    activePowerUp gs' = Some T /\
    (forall t, flag t gs' = true <-> t = T) /\
    powerUpEndTime gs' = now + powerUpDuration cfg T.
Proof.
  intros cfg now powerUp w T E HT _ Hty gs'.
  destruct (collectPowerUp_result cfg now powerUp w) as (Ha & Hf & He & _).
  { left. congruence. }
  rewrite Hty in Ha, Hf, He. fold gs' in Ha, Hf, He.
  split; [exact Ha|]. split; [|exact He].
  intros t. rewrite (Hf t). apply PowerUpType_eqb_eq.
Qed.

Lemma repickup_restarts_timer_witness :
  let gs' := World.gameState (collectPowerUp CONFIG 3000 shield_pickup shielded0) in
  activePowerUp gs' = Some SHIELD /\ powerUpEndTime gs' = 8000.
Proof.
  intros gs'.
  pose proof (repickup_restarts_timer CONFIG 3000 shield_pickup shielded0 SHIELD 5000
                eq_refl eq_refl eq_refl) as (Ha & _ & He).
  split; [exact Ha | exact He].
Defined.

(** ** The frame in which the run ends *)

(** C1 does not hold of the code. In the frame at time 5000 the enemy in
    the lane of the player collides and [gameOver()] runs with score 100,
    which it records as the top score.  The [return] that follows only
    leaves [updateEnemies]: the enemy further up is not moved, but [update]
    goes on, collects the coin (20 coins, 200 points), lets the power-up
    expire, resets the combo and adds the point of the frame. *)
Theorem update_continues_after_gameOver :
  let atGameOver :=
    updateEnemies CONFIG 1 5000
      (easePlayer CONFIG (World.on_gameState (advanceClock CONFIG 1 1) crash0)) in
  let w' := update CONFIG 5000 crash0 in
  (isGameOver (World.gameState atGameOver) = true /\
   score (World.gameState atGameOver) = 100 /\
   topScore (World.gameState atGameOver) = 100 /\
   nth_error (World.enemies atGameOver) 0 = Some enemy_far) /\
  (isGameOver (World.gameState w') = true /\
   isPlaying (World.gameState w') = false /\
   topScore (World.gameState w') = 100 /\
   score (World.gameState w') = 301 /\
   coins (World.gameState w') = 20 /\
   totalCoins (World.gameState w') = 0 /\
   World.coins w' = [] /\
   activePowerUp (World.gameState w') = None /\
   hasDoublePoints (World.gameState w') = false /\
   combo (World.gameState w') = 0).
Proof.
  vm_compute. repeat split; reflexivity.
Qed.

(** ** Difficulty *)

(** Rational arithmetic stays folded under [simpl] from here on. *)
#[local] Arguments Qfloor : simpl never.
#[local] Arguments Qplus : simpl never.
#[local] Arguments Qminus : simpl never.
#[local] Arguments Qmult : simpl never.
#[local] Arguments Qdiv : simpl never.
#[local] Arguments Qle_bool : simpl never.
#[local] Arguments Z.add : simpl never.

Lemma Qfloor_unique (q : Q) (k : Z) :
  (inject_Z k <= q)%Q -> (q < inject_Z (k + 1))%Q -> Qfloor q = k.
Proof.
  intros Hlo Hhi.
  pose proof (Qfloor_le q) as Hf1. pose proof (Qlt_floor q) as Hf2.
  assert (H1 : (inject_Z (Qfloor q) < inject_Z (k + 1))%Q) by lra.
  assert (H2 : (inject_Z k < inject_Z (Qfloor q + 1))%Q) by lra.
  rewrite <- Zlt_Qlt in H1, H2. lia.
Qed.

(** Bounds on a quotient by a positive number, without the division. *)
Lemma Qdiv_bounds (a b : Q) (k : Z) :
  (0 < b)%Q ->
  ((inject_Z k <= a / b)%Q <-> (inject_Z k * b <= a)%Q) /\
  ((a / b < inject_Z k)%Q <-> (a < inject_Z k * b)%Q).
Proof.
  intros Hb.
  assert (Ha : (a == (a / b) * b)%Q) by (field; lra).
  set (q := (a / b)%Q) in *. clearbody q.
  set (z := inject_Z k). clearbody z.
  split; split; intros H; nra.
Qed.

Ltac same_clock := repeat split; reflexivity.

Lemma sameClock_finishFrame
    (cfg : Config) (deltaSpeed : Q) (now : Z) (w : World.t) :
  sameClock (World.gameState w)
            (World.gameState (finishFrame cfg deltaSpeed now w)).
Proof.
  apply (holds_finishFrame cfg (fun gs _ => sameClock (World.gameState w) gs));
    unfold holds, sameClock; intros *.
  - unfold gameOver; simpl. destruct (_ <? _); simpl; auto.
  - unfold handleDodge; simpl. destruct (_ <? _); simpl; auto.
  - auto.
  - unfold collectPowerUp.
    destruct (activePowerUp _); destruct (PowerUp.type _); simpl; auto.
  - auto.
  - unfold updateCombo. destruct (_ && _); simpl; auto.
  - auto.
  - same_clock.
Qed.

(** The distance and the level that one [update()] of a running game
    leaves. *)
Lemma update_clock (cfg : Config) (now : Z) (w : World.t) :
  let gs := World.gameState w in
  let gs' := World.gameState (update cfg now w) in
  let deltaSpeed : Q := if hasSlowMo gs then 0.5%Q else 1%Q in
  let nitroMultiplier : Q := if hasNitro gs then 1.8%Q else 1%Q in
  isPlaying gs = true -> isPaused gs = false ->
  distance gs' =
    (distance gs
     + (currentSpeed gs + speedIncreaseRate cfg) * deltaSpeed * nitroMultiplier)%Q /\
  difficultyLevel gs' =
    if Qltb (js_rem (distance gs') (difficultyIncreaseInterval cfg)) 10
    then Qfloor (distance gs' / difficultyIncreaseInterval cfg) + 1
    else difficultyLevel gs.
Proof.
  intros gs gs' deltaSpeed nitroMultiplier.
  subst gs gs' deltaSpeed nitroMultiplier. intros Hp Hq.
  rewrite update_unfold. cbv zeta. rewrite Hp, Hq. cbn [negb orb].
  match goal with
  | |- context [finishFrame ?c ?d ?n ?w1] =>
      destruct (sameClock_finishFrame c d n w1) as (Hd & _ & Hl)
  end.
  rewrite Hd, Hl. unfold advanceClock. simpl.
  destruct (hasNitro (World.gameState w)); simpl;
    match goal with |- context [Qltb ?a ?b] => destruct (Qltb a b) eqn:E end;
    simpl; rewrite ?E; split; reflexivity.
Qed.


Lemma Qfloor_zero_div (b : Q) : (0 < b)%Q -> Qfloor (0 / b) = 0.
Proof.
  intros Hb. apply Qfloor_unique.
  - apply (Qdiv_bounds 0 b 0 Hb). change (inject_Z 0) with 0%Q. lra.
  - apply (Qdiv_bounds 0 b (0 + 1) Hb). change (inject_Z (0 + 1)) with 1%Q. lra.
Qed.








(** *** A run that misses the window *)


Lemma sameMode_advanceClock (cfg : Config) (d n : Q) (gs : GameState) :
  sameMode gs (advanceClock cfg d n gs).
Proof.
  unfold advanceClock; simpl.
  destruct (hasNitro gs) eqn:E; simpl;
    match goal with |- context [Qltb ?a ?b] => destruct (Qltb a b) end;
    repeat split; simpl; auto.
Qed.







Lemma run_cons (cfg : Config) (op : Op) (ops : list Op) (w : World.t) :
  run cfg (op :: ops) w = run cfg ops (step cfg op w).
Proof. reflexivity. Qed.




(** * Further properties *)

(** ** Lanes on the canvas *)

(** X1. After [resizeCanvas] the lanes tile the canvas: the player stands
    at the x of its target lane, and for every lane index in
    [0, lanes - 1] the centre of a car placed by [getLaneX] is the centre
    of the lane and lies strictly inside the canvas. *)
Theorem resizeCanvas_lane_centres :
  forall (cfg : Config) (clientWidth clientHeight : Q) (w : World.t) (lane : Z),
    (0 < clientWidth)%Q ->
    0 <= lane < lanes cfg ->
    let w' := resizeCanvas cfg clientWidth clientHeight w in
    let laneWidth := World.laneWidth w' in
    let centre := (getLaneX cfg laneWidth lane + playerWidth cfg / 2)%Q in
    (laneWidth * inject_Z (lanes cfg) == clientWidth)%Q /\
    (centre == (inject_Z lane + 0.5) * laneWidth)%Q /\
    (0 < centre < clientWidth)%Q /\
    Player.x (World.player w') = getLaneX cfg laneWidth (World.targetLane w) /\
    World.canvasHeight w' = clientHeight.
Proof.
  intros cfg cw ch w lane Hcw [Hl0 Hl1] w' lw centre.
  assert (Hn : (0 < inject_Z (lanes cfg))%Q).
  { change 0%Q with (inject_Z 0). rewrite <- Zlt_Qlt. lia. }
  assert (Hlw : (lw * inject_Z (lanes cfg) == cw)%Q).
  { unfold lw, w', resizeCanvas. simpl. field. lra. }
  assert (Hc : (centre == (inject_Z lane + 0.5) * lw)%Q).
  { unfold centre, getLaneX. field. }
  assert (Hq0 : (0 <= inject_Z lane)%Q).
  { change 0%Q with (inject_Z 0). rewrite <- Zle_Qle. lia. }
  assert (Hq1 : (inject_Z lane + 1 <= inject_Z (lanes cfg))%Q).
  { change 1%Q with (inject_Z 1). rewrite <- inject_Z_plus, <- Zle_Qle. lia. }
  assert (Hpos : (0 < lw)%Q).
  { destruct (Qlt_le_dec 0 lw) as [H|H]; [exact H|]. exfalso. nra. }
  split; [exact Hlw|]. split; [exact Hc|]. split; [|split; reflexivity].
  rewrite Hc. clearbody lw centre.
  set (l := inject_Z lane) in *. set (n := inject_Z (lanes cfg)) in *.
  clearbody l n. split; nra.
Qed.

Lemma resizeCanvas_lane_centres_witness :
  let lw := World.laneWidth (resizeCanvas CONFIG 400 800 world0) in
  (0 < getLaneX CONFIG lw 4 + playerWidth CONFIG / 2 < 400)%Q.
Proof.
  intros lw.
  pose proof (resizeCanvas_lane_centres CONFIG 400 800 world0 4
                ltac:(qconst) ltac:(simpl; lia)) as (_ & _ & H & _).
  exact H.
Defined.

(** X2. Cars that sit in two different lanes never collide, whatever their
    heights and vertical positions, as long as neither is wider than a lane
    plus the 10 px padding. *)
Theorem distinct_lanes_never_collide :
  forall (cfg : Config) (laneWidth : Q) (player : Player.t) (enemy : Enemy.t)
         (a b : Z),
    (0 <= laneWidth)%Q ->
    (Player.x player == getLaneX cfg laneWidth a)%Q ->
    (Enemy.x enemy == getLaneX cfg laneWidth b)%Q ->
    (Player.width player <= laneWidth + 10)%Q ->
    (Enemy.width enemy <= laneWidth + 10)%Q ->
    a <> b ->
    checkCollision (Player.rect player) (Enemy.rect enemy) = false.
Proof.
  intros cfg lw p e a b Hlw Hp He Hpw Hew Hab.
  destruct (checkCollision (Player.rect p) (Enemy.rect e)) eqn:E; [|reflexivity].
  apply checkCollision_true in E. simpl in E. destruct E as (E1 & E2 & _).
  exfalso. unfold getLaneX in Hp, He.
  destruct (Z.lt_total a b) as [H|[H|H]]; [|contradiction|].
  - assert (Hq : (inject_Z a + 1 <= inject_Z b)%Q).
    { change 1%Q with (inject_Z 1). rewrite <- inject_Z_plus, <- Zle_Qle. lia. }
    set (qa := inject_Z a) in *. set (qb := inject_Z b) in *. clearbody qa qb.
    nra.
  - assert (Hq : (inject_Z b + 1 <= inject_Z a)%Q).
    { change 1%Q with (inject_Z 1). rewrite <- inject_Z_plus, <- Zle_Qle. lia. }
    set (qa := inject_Z a) in *. set (qb := inject_Z b) in *. clearbody qa qb.
    nra.
Qed.

Lemma distinct_lanes_never_collide_witness :
  checkCollision (Player.rect player0) (Enemy.rect enemy_far) = false.
Proof.
  apply (distinct_lanes_never_collide CONFIG 80 player0 enemy_far 2 0);
    qconst.
Defined.

(** ** The lane transition *)

(** X3. Each frame removes 15 percent of the distance between the player
    and its target lane: after [n] frames with the same target the
    remaining offset is [0.85 ^ n] times the first one.  The player
    therefore never overshoots and, unless it starts on the target, never
    reaches it. *)
Theorem easePlayer_converges :
  forall (cfg : Config) (w : World.t) (n : nat),
    let w' := Nat.iter n (easePlayer cfg) w in
    (targetX cfg w - Player.x (World.player w')
     == 0.85 ^ Z.of_nat n * (targetX cfg w - Player.x (World.player w)))%Q /\
    (~ (Player.x (World.player w) == targetX cfg w)%Q ->
     ~ (Player.x (World.player w') == targetX cfg w)%Q) /\
    ((Player.x (World.player w) <= targetX cfg w)%Q ->
     (Player.x (World.player w) <= Player.x (World.player w') <= targetX cfg w)%Q).
Proof.
  intros cfg w n w'.
  assert (Hstep : forall v,
             targetX cfg (easePlayer cfg v) = targetX cfg v /\
             (targetX cfg v - Player.x (World.player (easePlayer cfg v))
              == 0.85 * (targetX cfg v - Player.x (World.player v)))%Q).
  { intros v. split; [reflexivity|]. unfold easePlayer, targetX. simpl. field. }
  assert (Hiter : targetX cfg w' = targetX cfg w /\
                  (targetX cfg w - Player.x (World.player w')
                   == 0.85 ^ Z.of_nat n
                      * (targetX cfg w - Player.x (World.player w)))%Q).
  { unfold w'. clear w'. induction n as [|n [IHt IHx]].
    - split; [reflexivity|]. simpl. field.
    - rewrite Nat.iter_succ.
      destruct (Hstep (Nat.iter n (easePlayer cfg) w)) as [Ht Hx].
      split; [rewrite Ht; exact IHt|].
      rewrite IHt in Hx. rewrite Hx, IHx.
      rewrite Nat2Z.inj_succ. unfold Z.succ.
      rewrite Qpower_plus by (intros H; discriminate H).
      change (0.85 ^ 1)%Q with 0.85%Q. ring. }
  destruct Hiter as [_ Hx].
  assert (Hpow : (0 < 0.85 ^ Z.of_nat n <= 1)%Q).
  { clear. induction n as [|n IH].
    - simpl. split; [reflexivity | discriminate].
    - rewrite Nat2Z.inj_succ. unfold Z.succ.
      rewrite Qpower_plus by (intros H; discriminate H).
      change (0.85 ^ 1)%Q with 0.85%Q.
      set (p := (0.85 ^ Z.of_nat n)%Q) in *. clearbody p. split; nra. }
  set (k := (0.85 ^ Z.of_nat n)%Q) in *. clearbody k.
  set (t := targetX cfg w) in *. clearbody t.
  set (x0 := Player.x (World.player w)) in *.
  set (xn := Player.x (World.player w')) in *. clearbody x0 xn.
  split; [exact Hx|]. split.
  - intros Hne Heq. apply Hne.
    assert (H0 : (k * (t - x0) == 0)%Q) by lra.
    apply Qmult_integral in H0. destruct H0 as [H0|H0]; lra.
  - intros Hle. split; nra.
Qed.

Lemma sameStage_refl (w : World.t) : sameStage w w.
Proof. repeat split. Qed.

Lemma sameStage_trans (w1 w2 w3 : World.t) :
  sameStage w1 w2 -> sameStage w2 w3 -> sameStage w1 w3.
Proof.
  intros (A1 & A2 & A3 & A4) (B1 & B2 & B3 & B4).
  repeat split; congruence.
Qed.

Lemma sameStage_collectPowerUp
    (cfg : Config) (now : Z) (powerUp : PowerUp.t) (w : World.t) :
  sameStage w (collectPowerUp cfg now powerUp w).
Proof.
  unfold collectPowerUp.
  destruct (activePowerUp (World.gameState w)); destruct (PowerUp.type powerUp);
    repeat split.
Qed.

Lemma sameStage_updateEnemies_loop (cfg : Config) (deltaSpeed : Q) (now : Z) :
  forall pending kept w,
    sameStage w (updateEnemies_loop cfg deltaSpeed now pending kept w).
Proof.
  induction pending as [|enemy rest IH]; intros kept w; simpl.
  - repeat split.
  - destruct (negb (hasShield (World.gameState w)) && checkCollision _ _).
    + repeat split.
    + match goal with
      | |- context [if ?c then Enemy.set_passed true _ else _] => destruct c
      end;
        match goal with
        | |- context [Qltb ?a ?b] => destruct (Qltb a b)
        end;
        (eapply sameStage_trans; [|apply IH]); repeat split.
Qed.

Lemma sameStage_updateCoins_loop (cfg : Config) (deltaSpeed magnetRange : Q) :
  forall pending kept w,
    sameStage w (updateCoins_loop cfg deltaSpeed magnetRange pending kept w).
Proof.
  induction pending as [|coin rest IH]; intros kept w; simpl.
  - repeat split.
  - match goal with
    | |- context [checkCoinCollision ?p ?c] => destruct (checkCoinCollision p c)
    end.
    + eapply sameStage_trans; [|apply IH]. repeat split.
    + match goal with
      | |- context [if ?c then updateCoins_loop _ _ _ _ _ _ else _] => destruct c
      end; apply IH.
Qed.

Lemma sameStage_updatePowerUps_loop (cfg : Config) (deltaSpeed : Q) (now : Z) :
  forall pending kept w,
    sameStage w (updatePowerUps_loop cfg deltaSpeed now pending kept w).
Proof.
  induction pending as [|powerUp rest IH]; intros kept w; simpl.
  - repeat split.
  - match goal with
    | |- context [checkPowerUpCollision ?p ?c] => destruct (checkPowerUpCollision p c)
    end.
    + eapply sameStage_trans; [|apply IH]. apply sameStage_collectPowerUp.
    + match goal with
      | |- context [if ?c then updatePowerUps_loop _ _ _ _ _ _ else _] => destruct c
      end; apply IH.
Qed.

Lemma sameStage_afterEase (cfg : Config) (deltaSpeed : Q) (now : Z) (w : World.t) :
  sameStage (easePlayer cfg w) (finishFrame cfg deltaSpeed now w).
Proof.
  unfold finishFrame; cbv zeta.
  eapply sameStage_trans; [apply sameStage_updateEnemies_loop|].
  eapply sameStage_trans; [apply sameStage_updateCoins_loop|].
  eapply sameStage_trans; [apply sameStage_updatePowerUps_loop|].
  unfold updatePowerUpTimers.
  destruct (activePowerUp _); [destruct (_ <? _)|]; repeat split.
Qed.

(** X4. A frame of a running game moves the player exactly as the lane
    transition does, towards the target lane by 15 percent of the offset,
    and never changes the target lane, the lane width or the canvas
    height; a frame of a game that is not running moves nothing. *)
Theorem update_moves_player_only_by_easing :
  forall (cfg : Config) (now : Z) (w : World.t),
    let w' := update cfg now w in
    World.targetLane w' = World.targetLane w /\
    World.laneWidth w' = World.laneWidth w /\
    World.canvasHeight w' = World.canvasHeight w /\
    (isPlaying (World.gameState w) = true ->
     isPaused (World.gameState w) = false ->
     World.player w' = World.player (easePlayer cfg w) /\
     Player.lane (World.player w') = World.targetLane w /\
     (targetX cfg w - Player.x (World.player w')
      == 0.85 * (targetX cfg w - Player.x (World.player w)))%Q) /\
    (isPlaying (World.gameState w) = false \/ isPaused (World.gameState w) = true ->
     w' = w).
Proof.
  intros cfg now w w'. unfold w'. rewrite update_unfold. cbv zeta.
  destruct (isPlaying (World.gameState w)) eqn:Hp;
    destruct (isPaused (World.gameState w)) eqn:Hq; cbn [negb orb];
    try (repeat split; intros; try discriminate; try reflexivity;
         destruct H; discriminate).
  match goal with
  | |- context [finishFrame cfg ?d now ?w1] =>
      destruct (sameStage_afterEase cfg d now w1) as (S1 & S2 & S3 & S4)
  end.
  rewrite S1, S2, S3, S4.
  split; [reflexivity|]. split; [reflexivity|]. split; [reflexivity|].
  split.
  - intros _ _. split; [reflexivity|]. split; [reflexivity|].
    unfold easePlayer, targetX. simpl. field.
  - intros [H|H]; discriminate H.
Qed.

Lemma update_moves_player_only_by_easing_witness :
  Player.lane (World.player (update CONFIG 0 playing0)) = 2 /\
  update CONFIG 0 world0 = world0.
Proof.
  pose proof (update_moves_player_only_by_easing CONFIG 0 playing0)
    as (_ & _ & _ & Hrun & _).
  pose proof (update_moves_player_only_by_easing CONFIG 0 world0)
    as (_ & _ & _ & _ & Hidle).
  split.
  - exact (proj1 (proj2 (Hrun eq_refl eq_refl))).
  - apply Hidle. left. reflexivity.
Defined.

Lemma easePlayer_converges_witness :
  let w' := Nat.iter 3 (easePlayer CONFIG) world0 in
  (Player.x (World.player world0) <= Player.x (World.player w')
   <= targetX CONFIG world0)%Q /\
  ~ (Player.x (World.player w') == targetX CONFIG world0)%Q.
Proof.
  intros w'.
  pose proof (easePlayer_converges CONFIG world0 3) as (_ & Hne & Hle).
  split.
  - apply Hle. qconst.
  - apply Hne. qconst.
Defined.

(** ** The top score *)

Lemma topScore_gameOver (gs : GameState) :
  topScore (gameOver gs) = Z.max (topScore gs) (score gs).
Proof.
  unfold gameOver. cbn -[Z.add].
  destruct (topScore gs <? score gs) eqn:E; cbn -[Z.add].
  - apply Z.ltb_lt in E. lia.
  - apply Z.ltb_ge in E. lia.
Qed.

Lemma topScore_finishFrame
    (cfg : Config) (deltaSpeed : Q) (now : Z) (w : World.t) :
  topScore (World.gameState w)
  <= topScore (World.gameState (finishFrame cfg deltaSpeed now w)).
Proof.
  apply (holds_finishFrame cfg
           (fun gs _ => topScore (World.gameState w) <= topScore gs));
    unfold holds; intros *.
  - rewrite topScore_gameOver. lia.
  - unfold handleDodge. cbn -[Z.add Z.mul]. destruct (_ <? _); auto.
  - auto.
  - unfold collectPowerUp.
    destruct (activePowerUp _); destruct (PowerUp.type _); auto.
  - auto.
  - unfold updateCombo. destruct (_ && _); auto.
  - auto.
  - lia.
Qed.

(** X6. The top score never goes down except by the reset action, which
    puts it to 0; a game over makes it the larger of the old top score and
    the score of the run, and adds the wallet of the run to the lifetime
    coins. *)
Theorem topScore_only_reset_lowers :
  forall (cfg : Config) (op : Op) (w : World.t),
    (op <> OpResetTopScore ->
     topScore (World.gameState w) <= topScore (World.gameState (step cfg op w))) /\
    (op = OpResetTopScore -> topScore (World.gameState (step cfg op w)) = 0) /\
    (let gs := World.gameState w in
     topScore (gameOver gs) = Z.max (topScore gs) (score gs) /\
     totalCoins (gameOver gs) = totalCoins gs + coins gs /\
     score gs <= topScore (gameOver gs)).
Proof.
  intros cfg op w. split; [|split].
  - intros Hop. destruct op; simpl; try lia.
    + unfold render. rewrite update_unfold. cbv zeta.
      assert (E : World.gameState (updateVisualFX now w) = World.gameState w)
        by (unfold updateVisualFX; destruct (_ && _); reflexivity).
      rewrite E. destruct (_ || _); [rewrite E; lia|].
      eapply Z.le_trans; [|apply topScore_finishFrame].
      simpl. rewrite E. unfold advanceClock. cbn -[Z.add].
      destruct (hasNitro _); cbn -[Z.add];
        match goal with |- context [Qltb ?a ?b] => destruct (Qltb a b) end;
        cbn -[Z.add]; lia.
    + unfold moveLeft. destruct (_ || _); [|destruct (_ <? _)]; simpl; lia.
    + unfold moveRight. destruct (_ || _); [|destruct (_ <? _)]; simpl; lia.
    + unfold togglePlayPause. destruct (isGameOver _); [simpl; lia|].
      destruct (negb _); [lia|]. destruct (isPaused _); simpl; lia.
    + contradiction.
    + unfold spawnEnemy. destruct (_ || _); [|destruct (negb _)]; simpl; lia.
    + unfold spawnCoin. destruct (_ || _); [|destruct (negb _)]; simpl; lia.
    + unfold spawnPowerUp. destruct (_ || _); [|destruct (Qltb _ _)]; simpl; lia.
  - intros ->. reflexivity.
  - cbv zeta. rewrite topScore_gameOver. split; [reflexivity|].
    split; [|lia]. unfold gameOver. cbn -[Z.add].
    destruct (_ <? _); reflexivity.
Qed.

Lemma topScore_only_reset_lowers_witness :
  topScore (World.gameState crash0)
  <= topScore (World.gameState (step CONFIG (OpRender 5000) crash0)) /\
  topScore (World.gameState (step CONFIG OpResetTopScore crash0)) = 0.
Proof.
  pose proof (topScore_only_reset_lowers CONFIG (OpRender 5000) crash0)
    as (Hup & _).
  pose proof (topScore_only_reset_lowers CONFIG OpResetTopScore crash0)
    as (_ & Hre & _).
  split.
  - apply Hup. discriminate.
  - apply Hre. reflexivity.
Defined.

(** ** Stopped and paused games *)

Lemma guarded_step_stopped (cfg : Config) (op : Op) (w : World.t) :
  guarded op = true ->
  isPlaying (World.gameState w) = false \/ isPaused (World.gameState w) = true ->
  sameGame w (step cfg op w).
Proof.
  intros Hop Hs.
  assert (Hg : negb (isPlaying (World.gameState w)) || isPaused (World.gameState w)
               = true).
  { destruct Hs as [H|H]; rewrite H; [reflexivity | apply orb_true_r]. }
  destruct op; simpl in *; try discriminate.
  - unfold render, update.
    assert (E : World.gameState (updateVisualFX now w) = World.gameState w)
      by (unfold updateVisualFX; destruct (_ && _); reflexivity).
    cbv zeta. rewrite E, Hg.
    unfold updateVisualFX. destruct (_ && _); repeat split.
  - unfold moveLeft. rewrite Hg. repeat split.
  - unfold moveRight. rewrite Hg. repeat split.
  - unfold spawnEnemy. rewrite Hg. repeat split.
  - unfold spawnCoin. rewrite Hg. repeat split.
  - unfold spawnPowerUp. rewrite Hg. repeat split.
Qed.

(** X7. Game over and pause freeze the game: while the game is not playing
    (before the start, after a game over) or is paused, no sequence of
    frames, lane shifts and spawner callbacks changes the game state, the
    player, the entities or the target lane. *)
Theorem stopped_game_is_frozen :
  forall (cfg : Config) (ops : list Op) (w : World.t),
    forallb guarded ops = true ->
    isPlaying (World.gameState w) = false \/ isPaused (World.gameState w) = true ->
    sameGame w (run cfg ops w).
Proof.
  intros cfg ops. induction ops as [|op ops IH]; intros w Hops Hs.
  - repeat split.
  - simpl in Hops. apply andb_true_iff in Hops. destruct Hops as [Hop Hops].
    rewrite run_cons.
    destruct (guarded_step_stopped cfg op w Hop Hs) as (E1 & E2 & E3 & E4 & E5 & E6).
    assert (Hs' : isPlaying (World.gameState (step cfg op w)) = false \/
                  isPaused (World.gameState (step cfg op w)) = true)
      by (rewrite E1; exact Hs).
    destruct (IH (step cfg op w) Hops Hs') as (F1 & F2 & F3 & F4 & F5 & F6).
    repeat split; congruence.
Qed.

Lemma stopped_game_is_frozen_witness :
  let over := update CONFIG 5000 crash0 in
  sameGame over
    (run CONFIG [OpRender 5016; OpMoveLeft; OpSpawnEnemy 1; OpSpawnCoin 3;
                 OpSpawnPowerUp 0.2 2 SHIELD; OpRender 5033] over).
Proof.
  intros over.
  apply (stopped_game_is_frozen CONFIG); [reflexivity|].
  left. vm_compute. reflexivity.
Defined.

(** ** The enemy pass *)

Lemma sameScene_dodge (cfg : Config) (now : Z) (w : World.t) :
  sameScene w
    (World.on_gameState
       (fun gs => handleDodge cfg now (set_dodgedCars (dodgedCars gs + 1) gs)) w).
Proof.
  unfold sameScene, handleDodge. cbn -[Z.add Z.mul].
  destruct (_ <? _); repeat split.
Qed.

Lemma dodgedCars_dodge (cfg : Config) (now : Z) (gs : GameState) :
  dodgedCars (handleDodge cfg now (set_dodgedCars (dodgedCars gs + 1) gs))
  = dodgedCars gs + 1.
Proof.
  unfold handleDodge. cbn -[Z.add Z.mul]. destruct (_ <? _); reflexivity.
Qed.

Lemma countb_cons {A : Type} (f : A -> bool) (a : A) (l : list A) :
  countb f (a :: l) = (if f a then 1 else 0) + countb f l.
Proof.
  unfold countb. simpl. destruct (f a); simpl length; lia.
Qed.

Lemma countb_rev {A : Type} (f : A -> bool) (l : list A) :
  countb f (rev l) = countb f l.
Proof.
  unfold countb. induction l as [|a l IH]; [reflexivity|].
  simpl rev. rewrite filter_app, length_app, Nat2Z.inj_add, IH.
  simpl. destruct (f a); simpl length; lia.
Qed.

Lemma existsb_rev {A : Type} (f : A -> bool) (l : list A) :
  existsb f (rev l) = existsb f l.
Proof.
  apply Bool.eq_iff_eq_true. rewrite !existsb_exists.
  split; intros (x & Hin & Hx); exists x; split; try assumption;
    [apply in_rev | apply in_rev in Hin]; assumption.
Qed.

(** One turn of the enemy loop, in the vocabulary above. *)
Lemma updateEnemies_loop_cons
    (cfg : Config) (deltaSpeed : Q) (now : Z)
    (enemy : Enemy.t) (rest kept : list Enemy.t) (w : World.t) :
  updateEnemies_loop cfg deltaSpeed now (enemy :: rest) kept w =
  let speed := currentSpeed (World.gameState w) in
  let player := World.player w in
  if negb (hasShield (World.gameState w)) && enemyHits deltaSpeed speed player enemy
  then World.set_enemies (rev rest ++ enemyAdvanced deltaSpeed speed enemy :: kept)
         (World.on_gameState gameOver w)
  else
    let w1 :=
      if enemyDodged deltaSpeed speed player enemy
      then World.on_gameState
             (fun gs => handleDodge cfg now (set_dodgedCars (dodgedCars gs + 1) gs)) w
      else w in
    if enemyOnCanvas (World.canvasHeight w) (enemyAfter deltaSpeed speed player enemy)
    then updateEnemies_loop cfg deltaSpeed now rest
           (enemyAfter deltaSpeed speed player enemy :: kept) w1
    else updateEnemies_loop cfg deltaSpeed now rest kept w1.
Proof.
  cbv zeta. unfold enemyHits, enemyOnCanvas, enemyAfter, enemyDodged, enemyAdvanced.
  cbn [updateEnemies_loop].
  destruct (negb (hasShield (World.gameState w)) && checkCollision _ _);
    [reflexivity|].
  cbn [Enemy.passed Enemy.y Enemy.height Enemy.set_y Enemy.set_passed].
  destruct (negb (Enemy.passed enemy) && Qltb _ _);
    cbn [Enemy.passed Enemy.y Enemy.height Enemy.set_y Enemy.set_passed
         World.canvasHeight World.on_gameState World.set_gameState];
    destruct (Qltb _ _); reflexivity.
Qed.

(** The enemy loop when no collision is detected: with the shield on, or
    with no pending enemy that hits. *)
Lemma updateEnemies_loop_clear (cfg : Config) (deltaSpeed : Q) (now : Z) :
  forall pending kept w,
    let speed := currentSpeed (World.gameState w) in
    let player := World.player w in
    negb (hasShield (World.gameState w))
    && existsb (enemyHits deltaSpeed speed player) pending = false ->
    let w' := updateEnemies_loop cfg deltaSpeed now pending kept w in
    sameScene w w' /\
    World.enemies w'
    = filter (enemyOnCanvas (World.canvasHeight w))
        (map (enemyAfter deltaSpeed speed player) (rev pending)) ++ kept /\
    dodgedCars (World.gameState w')
    = dodgedCars (World.gameState w)
      + countb (enemyDodged deltaSpeed speed player) pending.
Proof.
  induction pending as [|enemy rest IH]; intros kept w speed player Hclear w'.
  - unfold w'. simpl. unfold countb. simpl.
    split; [repeat split|]. split; [reflexivity|lia].
  - unfold w'. clear w'. rewrite updateEnemies_loop_cons. cbv zeta.
    fold speed player.
    assert (Hhit : negb (hasShield (World.gameState w))
                   && enemyHits deltaSpeed speed player enemy = false).
    { simpl existsb in Hclear. destruct (hasShield _); [reflexivity|].
      simpl in *. apply orb_false_iff in Hclear. apply Hclear. }
    assert (Hrest : negb (hasShield (World.gameState w))
                    && existsb (enemyHits deltaSpeed speed player) rest = false).
    { simpl existsb in Hclear. destruct (hasShield _); [reflexivity|].
      simpl in *. apply orb_false_iff in Hclear. apply Hclear. }
    rewrite Hhit, countb_cons.
    cbn [rev]. rewrite map_app, filter_app. cbn [map filter].
    set (w1 := if enemyDodged deltaSpeed speed player enemy
               then World.on_gameState
                      (fun gs => handleDodge cfg now
                                   (set_dodgedCars (dodgedCars gs + 1) gs)) w
               else w).
    assert (Hs : sameScene w w1 /\
                 dodgedCars (World.gameState w1)
                 = dodgedCars (World.gameState w)
                   + (if enemyDodged deltaSpeed speed player enemy then 1 else 0)).
    { unfold w1. destruct (enemyDodged deltaSpeed speed player enemy).
      - split; [apply sameScene_dodge | apply dodgedCars_dodge].
      - split; [repeat split | lia]. }
    clearbody w1.
    destruct Hs as (((S1 & S2 & S3 & S4) & S5 & S6 & S7 & S8) & Hd1).
    assert (Hrest1 : negb (hasShield (World.gameState w1))
              && existsb (enemyHits deltaSpeed
                            (currentSpeed (World.gameState w1))
                            (World.player w1)) rest = false).
    { rewrite S1, S5, S6. exact Hrest. }
    destruct (enemyOnCanvas (World.canvasHeight w)
                (enemyAfter deltaSpeed speed player enemy)).
    + destruct (IH (enemyAfter deltaSpeed speed player enemy :: kept) w1 Hrest1)
        as (((T1 & T2 & T3 & T4) & T5 & T6 & T7 & T8) & Tl & Td).
      cbv zeta in Tl, Td. rewrite S4 in Tl. rewrite S1, S5 in Tl, Td.
      fold speed player in Tl, Td.
      split; [repeat split; congruence|].
      split; [rewrite Tl; rewrite <- app_assoc; reflexivity|].
      rewrite Td, Hd1. lia.
    + destruct (IH kept w1 Hrest1)
        as (((T1 & T2 & T3 & T4) & T5 & T6 & T7 & T8) & Tl & Td).
      cbv zeta in Tl, Td. rewrite S4 in Tl. rewrite S1, S5 in Tl, Td.
      fold speed player in Tl, Td.
      split; [repeat split; congruence|].
      split; [rewrite Tl; rewrite app_nil_r; reflexivity|].
      rewrite Td, Hd1. lia.
Qed.

(** The enemy loop when a collision is detected. *)
Lemma updateEnemies_loop_hit (cfg : Config) (deltaSpeed : Q) (now : Z) :
  forall pending kept w,
    negb (hasShield (World.gameState w))
    && existsb (enemyHits deltaSpeed (currentSpeed (World.gameState w))
                  (World.player w)) pending = true ->
    let w' := updateEnemies_loop cfg deltaSpeed now pending kept w in
    isGameOver (World.gameState w') = true /\
    isPlaying (World.gameState w') = false.
Proof.
  induction pending as [|enemy rest IH]; intros kept w Hhit w'.
  - simpl in Hhit. rewrite andb_false_r in Hhit. discriminate.
  - unfold w'. clear w'. rewrite updateEnemies_loop_cons. cbv zeta.
    apply andb_true_iff in Hhit. destruct Hhit as [Hsh Hex]. rewrite Hsh.
    cbn [existsb] in Hex. cbn [andb].
    destruct (enemyHits deltaSpeed (currentSpeed (World.gameState w))
                (World.player w) enemy) eqn:E.
    + unfold gameOver. cbn -[Z.add]. destruct (_ <? _); split; reflexivity.
    + cbn [orb] in Hex.
      set (w1 := if enemyDodged deltaSpeed (currentSpeed (World.gameState w))
                      (World.player w) enemy
                 then World.on_gameState
                        (fun gs => handleDodge cfg now
                                     (set_dodgedCars (dodgedCars gs + 1) gs)) w
                 else w).
      assert (Hs : sameScene w w1).
      { unfold w1. destruct (enemyDodged _ _ _ _);
          [apply sameScene_dodge | repeat split]. }
      clearbody w1. destruct Hs as ((S1 & _) & S5 & S6 & _).
      assert (Hhit1 : negb (hasShield (World.gameState w1))
                && existsb (enemyHits deltaSpeed (currentSpeed (World.gameState w1))
                              (World.player w1)) rest = true).
      { rewrite S1, S5, S6, Hsh, Hex. reflexivity. }
      destruct (enemyOnCanvas _ _); apply IH; exact Hhit1.
Qed.

(** What the enemy pass does to the flags of the run. *)
Lemma updateEnemies_flags (cfg : Config) (deltaSpeed : Q) (now : Z) (w : World.t) :
  let speed := currentSpeed (World.gameState w) in
  let player := World.player w in
  let w' := updateEnemies cfg deltaSpeed now w in
  (negb (hasShield (World.gameState w))
   && existsb (enemyHits deltaSpeed speed player) (World.enemies w) = true ->
   isGameOver (World.gameState w') = true /\
   isPlaying (World.gameState w') = false) /\
  (negb (hasShield (World.gameState w))
   && existsb (enemyHits deltaSpeed speed player) (World.enemies w) = false ->
   isGameOver (World.gameState w') = isGameOver (World.gameState w) /\
   isPlaying (World.gameState w') = isPlaying (World.gameState w)).
Proof.
  cbv zeta. unfold updateEnemies. split.
  - intros H. apply updateEnemies_loop_hit. rewrite existsb_rev. exact H.
  - intros H.
    destruct (updateEnemies_loop_clear cfg deltaSpeed now
                (rev (World.enemies w)) [] w)
      as ((_ & _ & _ & S7 & S8) & _).
    { rewrite existsb_rev. exact H. }
    split; assumption.
Qed.

(** X10. [updateEnemies] misses no collision and keeps the order of the
    array.  If the shield is off and some enemy, once advanced, overlaps
    the player, the run ends.  Otherwise the run goes on and the array
    holds, in their order, the advanced enemies that are still on the
    canvas, each enemy that has cleared the player being marked and
    counted exactly once in [dodgedCars]. *)
Theorem updateEnemies_spec :
  forall (cfg : Config) (deltaSpeed : Q) (now : Z) (w : World.t),
    let speed := currentSpeed (World.gameState w) in
    let player := World.player w in
    let w' := updateEnemies cfg deltaSpeed now w in
    (negb (hasShield (World.gameState w))
     && existsb (enemyHits deltaSpeed speed player) (World.enemies w) = true ->
     isGameOver (World.gameState w') = true /\
     isPlaying (World.gameState w') = false) /\
    (negb (hasShield (World.gameState w))
     && existsb (enemyHits deltaSpeed speed player) (World.enemies w) = false ->
     isGameOver (World.gameState w') = isGameOver (World.gameState w) /\
     isPlaying (World.gameState w') = isPlaying (World.gameState w) /\
     World.enemies w'
     = filter (enemyOnCanvas (World.canvasHeight w))
         (map (enemyAfter deltaSpeed speed player) (World.enemies w)) /\
     dodgedCars (World.gameState w')
     = dodgedCars (World.gameState w)
       + countb (enemyDodged deltaSpeed speed player) (World.enemies w)).
Proof.
  intros cfg deltaSpeed now w speed player w'. unfold w', updateEnemies. split.
  - intros H. apply updateEnemies_loop_hit. rewrite existsb_rev. exact H.
  - intros H.
    destruct (updateEnemies_loop_clear cfg deltaSpeed now
                (rev (World.enemies w)) [] w)
      as ((_ & _ & _ & S7 & S8) & Tl & Td).
    { rewrite existsb_rev. exact H. }
    rewrite rev_involutive, app_nil_r in Tl. rewrite countb_rev in Td.
    repeat split; assumption.
Qed.

Lemma updateEnemies_spec_witness :
  isGameOver (World.gameState (updateEnemies CONFIG 1 5000 crash0)) = true /\
  World.enemies (updateEnemies CONFIG 1 0 playing0) = [].
Proof.
  split.
  - apply (proj1 (updateEnemies_spec CONFIG 1 5000 crash0)).
    vm_compute. reflexivity.
  - pose proof (proj2 (updateEnemies_spec CONFIG 1 0 playing0)) as H.
    destruct H as (_ & _ & H & _); [reflexivity|]. exact H.
Defined.

Lemma sameRunState_afterEnemies
    (cfg : Config) (deltaSpeed : Q) (now : Z) (w : World.t) :
  let w' :=
    World.on_gameState
      (fun gs => set_score (score gs + Qfloor (currentSpeed gs * deltaSpeed)) gs)
      (World.on_gameState (updateCombo cfg now)
         (updatePowerUpTimers now
            (updatePowerUps cfg deltaSpeed now (updateCoins cfg deltaSpeed w)))) in
  isGameOver (World.gameState w') = isGameOver (World.gameState w) /\
  isPlaying (World.gameState w') = isPlaying (World.gameState w).
Proof.
  cbv zeta.
  set (P := sameRunState (isGameOver (World.gameState w))
                         (isPlaying (World.gameState w))).
  assert (H : holds P (updatePowerUpTimers now
                         (updatePowerUps cfg deltaSpeed now
                            (updateCoins cfg deltaSpeed w)))).
  { apply (holds_updatePowerUpTimers P).
    { intros w1 H1. exact H1. }
    apply (holds_updatePowerUps_loop cfg P).
    { intros t p w1 H1. unfold holds, P, sameRunState, collectPowerUp in *.
      destruct (activePowerUp (World.gameState w1)); destruct (PowerUp.type p);
        exact H1. }
    apply (holds_updateCoins_loop cfg P).
    { intros c gs fx H1. exact H1. }
    split; reflexivity. }
  unfold holds, P, sameRunState in H.
  unfold updateCombo. cbn -[Z.add].
  destruct (_ && _); exact H.
Qed.

Lemma isGameOver_advanceClock (cfg : Config) (d n : Q) (gs : GameState) :
  isGameOver (advanceClock cfg d n gs) = isGameOver gs.
Proof.
  unfold advanceClock; simpl.
  destruct (hasNitro gs) eqn:E; simpl;
    match goal with |- context [Qltb ?a ?b] => destruct (Qltb a b) end;
    reflexivity.
Qed.

(** X11. A frame of a running game ends the run exactly when the shield is
    off and some enemy, advanced at the speed of the frame, overlaps the
    player after its lane transition; with the shield on no enemy ends the
    run. *)
Theorem update_ends_run_iff_hit :
  forall (cfg : Config) (now : Z) (w : World.t),
    isPlaying (World.gameState w) = true ->
    isPaused (World.gameState w) = false ->
    isGameOver (World.gameState w) = false ->
    let gs := World.gameState w in
    let deltaSpeed : Q := if hasSlowMo gs then 0.5%Q else 1%Q in
    let speed := (currentSpeed gs + speedIncreaseRate cfg)%Q in
    let player := World.player (easePlayer cfg w) in
    let hit :=
      negb (hasShield gs)
      && existsb (enemyHits deltaSpeed speed player) (World.enemies w) in
    isGameOver (World.gameState (update cfg now w)) = hit /\
    isPlaying (World.gameState (update cfg now w)) = negb hit.
Proof.
  intros cfg now w Hp Hq Hgo gs deltaSpeed speed player hit.
  rewrite update_unfold. cbv zeta. rewrite Hp, Hq. cbn [negb orb].
  fold gs. fold deltaSpeed. unfold finishFrame. cbv zeta.
  set (w0 := easePlayer cfg
               (World.on_gameState
                  (advanceClock cfg deltaSpeed (if hasNitro gs then 1.8 else 1)) w)).
  assert (E1 : currentSpeed (World.gameState w0) = speed)
    by apply currentSpeed_advanceClock.
  assert (E2 : hasShield (World.gameState w0) = hasShield gs)
    by apply (proj2 (samePowerUp_advanceClock cfg _ _ gs) SHIELD).
  assert (E3 : World.player w0 = player) by reflexivity.
  assert (E4 : World.enemies w0 = World.enemies w) by reflexivity.
  destruct (sameMode_advanceClock cfg deltaSpeed
              (if hasNitro gs then 1.8 else 1)%Q gs) as (M1 & _).
  assert (E5 : isPlaying (World.gameState w0) = true)
    by (change (isPlaying (World.gameState w0))
          with (isPlaying (advanceClock cfg deltaSpeed
                             (if hasNitro gs then 1.8 else 1)%Q gs));
        rewrite M1; exact Hp).
  assert (E6 : isGameOver (World.gameState w0) = false).
  { change (isGameOver (World.gameState w0))
      with (isGameOver (advanceClock cfg deltaSpeed
                          (if hasNitro gs then 1.8 else 1)%Q gs)).
    rewrite isGameOver_advanceClock. exact Hgo. }
  destruct (sameRunState_afterEnemies cfg deltaSpeed now
              (updateEnemies cfg deltaSpeed now w0)) as [R1 R2].
  cbv zeta in R1, R2. rewrite R1, R2.
  pose proof (updateEnemies_flags cfg deltaSpeed now w0) as [Hhit Hclear].
  rewrite E1, E2, E3, E4 in Hhit, Hclear. fold hit in Hhit, Hclear.
  clearbody w0. destruct hit.
  - destruct (Hhit eq_refl) as [A B]. split; assumption.
  - destruct (Hclear eq_refl) as (A & B). rewrite A, B, E5, E6.
    split; reflexivity.
Qed.

Lemma update_ends_run_iff_hit_witness :
  isGameOver (World.gameState (update CONFIG 5000 crash0)) = true /\
  isGameOver (World.gameState
                (update CONFIG 5000
                   (World.on_gameState (set_hasShield true) crash0))) = false.
Proof.
  split.
  - rewrite (proj1 (update_ends_run_iff_hit CONFIG 5000 crash0
                      eq_refl eq_refl eq_refl)).
    vm_compute. reflexivity.
  - rewrite (proj1 (update_ends_run_iff_hit CONFIG 5000
                      (World.on_gameState (set_hasShield true) crash0)
                      eq_refl eq_refl eq_refl)).
    reflexivity.
Defined.

(** ** Scores and wallets *)

Lemma Qfloor_nonneg (q : Q) : (0 <= q)%Q -> 0 <= Qfloor q.
Proof.
  intros H. change 0 with (Qfloor 0). apply Qfloor_resp_le. exact H.
Qed.

(** The enemy pass calls [gameOver] at most once, with the wallet it
    started with. *)
Lemma grows_updateEnemies_loop (cfg : Config) (deltaSpeed : Q) (now : Z)
    (s c tc : Z) :
  forall pending kept w,
    grows s c tc (World.gameState w) -> coins (World.gameState w) = c ->
    let gs' := World.gameState (updateEnemies_loop cfg deltaSpeed now pending kept w) in
    grows s c tc gs' \/ grows s c (tc + c) gs'.
Proof.
  induction pending as [|enemy rest IH]; intros kept w Hw Hc; cbv zeta.
  - left. exact Hw.
  - rewrite updateEnemies_loop_cons. cbv zeta.
    destruct Hw as (H1 & H2 & H3 & H4 & H5).
    destruct (negb (hasShield (World.gameState w)) && enemyHits _ _ _ _).
    + right. unfold grows, gameOver. cbn -[Z.mul Z.add].
      destruct (topScore (World.gameState w) <? score (World.gameState w));
        cbn -[Z.mul Z.add]; rewrite H3, Hc; repeat split; try assumption; lia.
    + assert (Hd : grows s c tc
                     (handleDodge cfg now
                        (set_dodgedCars (dodgedCars (World.gameState w) + 1)
                           (World.gameState w))) /\
                   coins (handleDodge cfg now
                            (set_dodgedCars (dodgedCars (World.gameState w) + 1)
                               (World.gameState w))) = c).
      { unfold grows, handleDodge. cbn -[Z.mul Z.add].
        destruct (now - lastDodgeTime (World.gameState w) <? comboTimeout cfg);
          cbn -[Z.mul Z.add];
          destruct (hasDoublePoints (World.gameState w));
          repeat split; try assumption; lia. }
      destruct (enemyDodged _ _ _ _); destruct (enemyOnCanvas _ _);
        apply IH; try (exact (proj1 Hd)); try (exact (proj2 Hd));
        try (repeat split; assumption); exact Hc.
Qed.

(** The passes after the enemy pass never touch the lifetime coins. *)
Lemma grows_afterEnemies
    (cfg : Config) (deltaSpeed : Q) (now : Z) (w : World.t) (s c tc : Z) :
  0 <= coinValue cfg -> (0 <= deltaSpeed)%Q ->
  grows s c tc (World.gameState w) ->
  grows s c tc
    (World.gameState
       (World.on_gameState
          (fun gs => set_score (score gs + Qfloor (currentSpeed gs * deltaSpeed)) gs)
          (World.on_gameState (updateCombo cfg now)
             (updatePowerUpTimers now
                (updatePowerUps cfg deltaSpeed now
                   (updateCoins cfg deltaSpeed w)))))).
Proof.
  intros Hcv Hd Hw.
  set (P := fun (gs : GameState) (_ : VisualFX) => grows s c tc gs).
  assert (Hstages :
    holds P (updatePowerUpTimers now
               (updatePowerUps cfg deltaSpeed now (updateCoins cfg deltaSpeed w)))).
  { apply (holds_updatePowerUpTimers P).
    { intros w1 H. unfold holds, P, grows in *. simpl. exact H. }
    apply (holds_updatePowerUps_loop cfg P).
    { intros t p w1 (H1 & H2 & H3 & H4 & H5). unfold holds, P, grows.
      rewrite currentSpeed_collectPowerUp.
      unfold collectPowerUp.
      destruct (activePowerUp (World.gameState w1)); destruct (PowerUp.type p);
        simpl; auto. }
    apply (holds_updateCoins_loop cfg P).
    { intros coin gs fx (H1 & H2 & H3 & H4 & H5). unfold P, grows, collectCoin.
      cbn -[Z.mul Z.add].
      destruct (hasDoublePoints gs); repeat split; try assumption; lia. }
    exact Hw. }
  unfold holds, P in Hstages.
  match type of Hstages with
  | grows s c tc (World.gameState ?w1) => set (w2 := w1) in *
  end.
  clearbody w2. destruct Hstages as (H1 & H2 & H3 & H4 & H5).
  assert (Hcombo : grows s c tc (updateCombo cfg now (World.gameState w2))).
  { unfold updateCombo, grows.
    destruct (_ && _); cbn -[Z.mul Z.add]; repeat split; try assumption; lia. }
  destruct Hcombo as (C1 & C2 & C3 & C4 & C5).
  unfold grows. simpl.
  repeat split; try assumption.
  match goal with
  | |- _ <= _ + Qfloor ?q => assert (0 <= Qfloor q) by (apply Qfloor_nonneg; nra)
  end.
  lia.
Qed.

Lemma grows_finishFrame
    (cfg : Config) (deltaSpeed : Q) (now : Z) (w : World.t) (s c tc : Z) :
  0 <= coinValue cfg -> (0 <= deltaSpeed)%Q ->
  grows s c tc (World.gameState w) -> coins (World.gameState w) = c ->
  let gs' := World.gameState (finishFrame cfg deltaSpeed now w) in
  grows s c tc gs' \/ grows s c (tc + c) gs'.
Proof.
  intros Hcv Hd Hw Hc. unfold finishFrame; cbv zeta.
  destruct (grows_updateEnemies_loop cfg deltaSpeed now s c tc
              (rev (World.enemies (easePlayer cfg w))) [] (easePlayer cfg w)
              Hw Hc) as [H|H];
    [left|right]; apply grows_afterEnemies; assumption.
Qed.

Lemma grows_advanceClock (cfg : Config) (d n : Q) (gs : GameState) :
  (0 <= speedIncreaseRate cfg)%Q -> (0 <= d)%Q ->
  0 <= combo gs -> (1 <= currentSpeed gs)%Q ->
  grows (score gs) (coins gs) (totalCoins gs) (advanceClock cfg d n gs) /\
  coins (advanceClock cfg d n gs) = coins gs.
Proof.
  intros Hrate Hd Hc Hs. unfold advanceClock, grows.
  assert (Hb : 0 <= Qfloor (10 * d)) by (apply Qfloor_nonneg; lra).
  cbn -[Z.mul Z.add].
  destruct (hasNitro gs); cbn -[Z.mul Z.add];
    match goal with |- context [Qltb ?a ?b] => destruct (Qltb a b) end;
    cbn -[Z.mul Z.add]; repeat split; try lia; lra.
Qed.

Lemma grows_update (cfg : Config) (now : Z) (w : World.t) :
  0 <= coinValue cfg -> (0 <= speedIncreaseRate cfg)%Q ->
  countersInv (World.gameState w) ->
  let gs := World.gameState w in
  let gs' := World.gameState (update cfg now w) in
  grows (score gs) (coins gs) (totalCoins gs) gs' \/
  grows (score gs) (coins gs) (totalCoins gs + coins gs) gs'.
Proof.
  intros Hcv Hrate (H1 & H3 & H4) gs gs'. subst gs gs'.
  rewrite update_unfold. cbv zeta.
  destruct (negb (isPlaying (World.gameState w)) || isPaused (World.gameState w)).
  - left. unfold grows. repeat split; try assumption; lia.
  - assert (Hd : (0 <= (if hasSlowMo (World.gameState w) then 0.5 else 1))%Q)
      by (destruct (hasSlowMo _); lra).
    destruct (grows_advanceClock cfg
                (if hasSlowMo (World.gameState w) then 0.5 else 1)%Q
                (if hasNitro (World.gameState w) then 1.8 else 1)%Q
                (World.gameState w) Hrate Hd H3 H4) as [G Gc].
    apply grows_finishFrame; assumption.
Qed.

Lemma counters_step (cfg : Config) (op : Op) (w : World.t) :
  0 <= coinValue cfg -> (0 <= speedIncreaseRate cfg)%Q ->
  countersInv (World.gameState w) ->
  countersInv (World.gameState (step cfg op w)) /\
  (restarts op w = false ->
   score (World.gameState w) <= score (World.gameState (step cfg op w)) /\
   coins (World.gameState w) <= coins (World.gameState (step cfg op w)) /\
   banked (totalCoins (World.gameState w)) (coins (World.gameState w))
          (totalCoins (World.gameState (step cfg op w)))).
Proof.
  intros Hcv Hrate Hw.
  assert (Hfresh : forall v, countersInv (World.gameState (restartGame cfg v))).
  { intros v. unfold countersInv. simpl. repeat split; try lia; lra. }
  assert (Hkeep : forall w' : World.t,
             World.gameState w' = World.gameState w ->
             countersInv (World.gameState w') /\
             (restarts op w = false ->
              score (World.gameState w) <= score (World.gameState w') /\
              coins (World.gameState w) <= coins (World.gameState w') /\
              banked (totalCoins (World.gameState w)) (coins (World.gameState w))
                     (totalCoins (World.gameState w')))).
  { intros w' E. rewrite E. split; [exact Hw|]. intros _.
    split; [lia|]. split; [lia|]. left; reflexivity. }
  destruct op; simpl.
  - unfold render.
    assert (E : World.gameState (updateVisualFX now w) = World.gameState w)
      by (unfold updateVisualFX; destruct (_ && _); reflexivity).
    pose proof (grows_update cfg now (updateVisualFX now w) Hcv Hrate) as G.
    rewrite E in G. specialize (G Hw). cbv zeta in G.
    destruct Hw as (H1 & H3 & H4).
    destruct G as [(G1 & G2 & G3 & G4 & G5)|(G1 & G2 & G3 & G4 & G5)];
      (split; [repeat split; try assumption; lia|]); intros _;
      (split; [exact G1|]); (split; [exact G2|]);
      [left|right]; exact G3.
  - apply Hkeep. unfold moveLeft. destruct (_ || _); [|destruct (_ <? _)]; reflexivity.
  - apply Hkeep. unfold moveRight. destruct (_ || _); [|destruct (_ <? _)]; reflexivity.
  - unfold togglePlayPause.
    destruct (isGameOver (World.gameState w)) eqn:Hgo;
      [split; [apply Hfresh | discriminate]|].
    destruct (negb _);
      [split; [exact Hw | intros _; split; [lia|split; [lia|left; reflexivity]]]|].
    destruct (isPaused _); simpl; (split; [exact Hw|]);
      intros _; (split; [lia|]); (split; [lia|]); left; reflexivity.
  - simpl; (split; [exact Hw|]); intros _;
      (split; [lia|]); (split; [lia|]); left; reflexivity.
  - split; [apply Hfresh | discriminate].
  - simpl; (split; [exact Hw|]); intros _;
      (split; [lia|]); (split; [lia|]); left; reflexivity.
  - apply Hkeep. reflexivity.
  - apply Hkeep. unfold spawnEnemy. destruct (_ || _); [|destruct (negb _)]; reflexivity.
  - apply Hkeep. unfold spawnCoin. destruct (_ || _); [|destruct (negb _)]; reflexivity.
  - apply Hkeep. unfold spawnPowerUp.
    destruct (_ || _); [|destruct (Qltb _ _)]; reflexivity.
Qed.

Lemma restart_counters (cfg : Config) (op : Op) (w : World.t) :
  restarts op w = true ->
  score (World.gameState (step cfg op w)) = 0 /\
  coins (World.gameState (step cfg op w)) = 0 /\
  totalCoins (World.gameState (step cfg op w)) = totalCoins (World.gameState w).
Proof.
  intros Hop. destruct op; simpl in Hop; try discriminate.
  - simpl. unfold togglePlayPause. rewrite Hop. repeat split.
  - repeat split.
Qed.

(** X5. Within a run the score and the coin wallet never decrease: no
    frame, lane shift, pause, resume, spawn, resize or top-score reset
    lowers them, and only a restart puts them back to 0.  The score is
    never negative; the wallet, which starts as the stored wallet [c]
    whatever its sign, is never below [min 0 c].  The lifetime coins
    change only at a game over, which adds the wallet of that moment to
    them, so they decrease only if that wallet is negative. *)
Theorem score_and_coins_never_decrease :
  forall cfg : Config,
    0 <= coinValue cfg -> (0 <= speedIncreaseRate cfg)%Q ->
    forall (ops : list Op) (top c tc : Z) (cw ch : Q),
      let w := run cfg ops (init cfg top c tc cw ch) in
      (0 <= score (World.gameState w) /\ Z.min 0 c <= coins (World.gameState w)) /\
      (forall op,
         restarts op w = false ->
         score (World.gameState w) <= score (World.gameState (step cfg op w)) /\
         coins (World.gameState w) <= coins (World.gameState (step cfg op w)) /\
         banked (totalCoins (World.gameState w)) (coins (World.gameState w))
                (totalCoins (World.gameState (step cfg op w)))) /\
      (forall op,
         restarts op w = true ->
         score (World.gameState (step cfg op w)) = 0 /\
         coins (World.gameState (step cfg op w)) = 0 /\
         totalCoins (World.gameState (step cfg op w))
         = totalCoins (World.gameState w)).
Proof.
  intros cfg Hcv Hrate ops top c tc cw ch w.
  assert (Hrun : forall ops v,
             countersInv (World.gameState v) ->
             Z.min 0 c <= coins (World.gameState v) ->
             countersInv (World.gameState (run cfg ops v)) /\
             Z.min 0 c <= coins (World.gameState (run cfg ops v))).
  { clear ops w. induction ops as [|op ops IH]; intros v Hv Hm.
    - split; assumption.
    - rewrite run_cons.
      destruct (counters_step cfg op v Hcv Hrate Hv) as [Hi Hs].
      apply IH; [exact Hi|].
      destruct (restarts op v) eqn:Hop.
      + destruct (restart_counters cfg op v Hop) as (_ & E & _). rewrite E. lia.
      + destruct (Hs eq_refl) as (_ & Hle & _). lia. }
  destruct (Hrun ops (init cfg top c tc cw ch)) as [Hinv Hmin].
  { unfold countersInv. simpl. repeat split; try lia; lra. }
  { simpl. lia. }
  fold w in Hinv, Hmin.
  split; [|split].
  - destruct Hinv as (H1 & _). split; assumption.
  - intros op. apply counters_step; assumption.
  - intros op. apply restart_counters.
Qed.

Lemma score_and_coins_never_decrease_witness :
  let w := run CONFIG [OpCountdownDone] (init CONFIG 0 (-7) 0 400 800) in
  -7 <= coins (World.gameState w) /\
  score (World.gameState w) <= score (World.gameState (step CONFIG (OpRender 16) w)).
Proof.
  intros w.
  pose proof (score_and_coins_never_decrease CONFIG
                ltac:(vm_compute; discriminate) ltac:(vm_compute; discriminate)
                [OpCountdownDone] 0 (-7) 0 400 800) as ([_ Hm] & Hs & _).
  split; [exact Hm|]. exact (proj1 (Hs (OpRender 16) eq_refl)).
Defined.

(** ** The coin pass *)

Lemma updateCoins_loop_cons
    (cfg : Config) (deltaSpeed magnetRange : Q)
    (coin : Coin.t) (rest kept : list Coin.t) (w : World.t) :
  updateCoins_loop cfg deltaSpeed magnetRange (coin :: rest) kept w =
  let player := World.player w in
  let coin' := coinAfter cfg deltaSpeed (currentSpeed (World.gameState w))
                 (hasMagnet (World.gameState w)) magnetRange player coin in
  if checkCoinCollision player coin'
  then updateCoins_loop cfg deltaSpeed magnetRange rest kept
         (World.on_gameState (collectCoin cfg coin') w)
  else if coinOnCanvas (World.canvasHeight w) coin'
  then updateCoins_loop cfg deltaSpeed magnetRange rest (coin' :: kept) w
  else updateCoins_loop cfg deltaSpeed magnetRange rest kept w.
Proof.
  cbv zeta. unfold coinOnCanvas. cbn [updateCoins_loop].
  fold (coinAfter cfg deltaSpeed (currentSpeed (World.gameState w))
          (hasMagnet (World.gameState w)) magnetRange (World.player w) coin).
  destruct (checkCoinCollision _ _); [reflexivity|].
  destruct (Qltb _ _); reflexivity.
Qed.

Lemma updateCoins_loop_spec (cfg : Config) (deltaSpeed magnetRange : Q) :
  forall pending kept w,
    let gs := World.gameState w in
    let player := World.player w in
    let after :=
      map (coinAfter cfg deltaSpeed (currentSpeed gs) (hasMagnet gs) magnetRange
             player) (rev pending) in
    let w' := updateCoins_loop cfg deltaSpeed magnetRange pending kept w in
    sameCoinScene w w' /\
    World.coins w'
    = filter (fun c => negb (checkCoinCollision player c)
                       && coinOnCanvas (World.canvasHeight w) c) after ++ kept /\
    coins (World.gameState w')
    = coins gs + countb (checkCoinCollision player) after * coinWorth cfg gs /\
    score (World.gameState w')
    = score gs + countb (checkCoinCollision player) after * coinWorth cfg gs * 10.
Proof.
  induction pending as [|coin rest IH]; intros kept w gs player after w'.
  - subst w' after gs player. unfold countb. cbn [rev map filter length app updateCoins_loop World.coins World.gameState World.set_coins].
    split; [repeat split|]. split; [reflexivity|]. split; lia.
  - unfold w'. clear w'. rewrite updateCoins_loop_cons. cbv zeta.
    fold gs player.
    set (coin' := coinAfter cfg deltaSpeed (currentSpeed gs) (hasMagnet gs)
                    magnetRange player coin).
    assert (Eafter : after
              = map (coinAfter cfg deltaSpeed (currentSpeed gs) (hasMagnet gs)
                       magnetRange player) (rev rest) ++ [coin']).
    { unfold after. cbn [rev]. rewrite map_app. reflexivity. }
    rewrite Eafter, filter_app. cbn [filter].
    unfold countb. rewrite filter_app, length_app, Nat2Z.inj_add.
    cbn [filter]. fold (countb (checkCoinCollision player)
      (map (coinAfter cfg deltaSpeed (currentSpeed gs) (hasMagnet gs)
              magnetRange player) (rev rest))).
    destruct (checkCoinCollision player coin') eqn:Ehit; cbn [negb andb].
    + set (w1 := World.on_gameState (collectCoin cfg coin') w).
      destruct (IH kept w1)
        as (((T1 & T2 & T3 & T4) & T5 & T6 & T7) & Tl & Tc & Ts).
      change (World.player w1) with player in *.
      change (World.canvasHeight w1) with (World.canvasHeight w) in *.
      change (currentSpeed (World.gameState w1)) with (currentSpeed gs) in *.
      change (hasMagnet (World.gameState w1)) with (hasMagnet gs) in *.
      change (hasDoublePoints (World.gameState w1)) with (hasDoublePoints gs) in *.
      change (coinWorth cfg (World.gameState w1)) with (coinWorth cfg gs) in *.
      change (coins (World.gameState w1)) with (coins gs + coinWorth cfg gs) in Tc.
      change (score (World.gameState w1))
        with (score gs + coinWorth cfg gs * 10) in Ts.
      split; [repeat split; assumption|].
      split; [rewrite Tl, app_nil_r; reflexivity|].
      rewrite Tc, Ts. cbn [length]. split; lia.
    + destruct (coinOnCanvas (World.canvasHeight w) coin').
      * destruct (IH (coin' :: kept) w) as (Tsc & Tl & Tc & Ts).
        fold gs player in Tl, Tc, Ts.
        split; [exact Tsc|].
        split; [rewrite Tl, <- app_assoc; reflexivity|].
        rewrite Tc, Ts. cbn [length]. split; lia.
      * destruct (IH kept w) as (Tsc & Tl & Tc & Ts).
        fold gs player in Tl, Tc, Ts.
        split; [exact Tsc|].
        split; [rewrite Tl, app_nil_r; reflexivity|].
        rewrite Tc, Ts. cbn [length]. split; lia.
Qed.

(** The coins that the coin pass leaves. *)
Lemma coins_after_updateCoins (cfg : Config) (deltaSpeed : Q) (w : World.t) :
  let gs := World.gameState w in
  let player := World.player w in
  let magnetRange : Q := if hasMagnet gs then 150%Q else 0%Q in
  World.coins (updateCoins cfg deltaSpeed w)
  = filter (fun c => negb (checkCoinCollision player c)
                     && coinOnCanvas (World.canvasHeight w) c)
      (map (coinAfter cfg deltaSpeed (currentSpeed gs) (hasMagnet gs) magnetRange
              player) (World.coins w)).
Proof.
  cbv zeta. unfold updateCoins.
  destruct (updateCoins_loop_spec cfg deltaSpeed
              (if hasMagnet (World.gameState w) then 150%Q else 0%Q)
              (rev (World.coins w)) [] w) as (_ & Tl & _).
  rewrite rev_involutive, app_nil_r in Tl. exact Tl.
Qed.

(** X12. [updateCoins] collects every coin that touches the player once it
    has moved, and no other: the array keeps, in their order, the moved
    coins that were not collected and are still on the canvas; the wallet
    grows by the number of collected coins times the coin value (doubled
    under DoublePoints) and the score by ten times that. *)
Theorem updateCoins_spec :
  forall (cfg : Config) (deltaSpeed : Q) (w : World.t),
    let gs := World.gameState w in
    let player := World.player w in
    let magnetRange : Q := if hasMagnet gs then 150%Q else 0%Q in
    let after :=
      map (coinAfter cfg deltaSpeed (currentSpeed gs) (hasMagnet gs) magnetRange
             player) (World.coins w) in
    let collected := countb (checkCoinCollision player) after in
    let w' := updateCoins cfg deltaSpeed w in
    World.coins w'
    = filter (fun c => negb (checkCoinCollision player c)
                       && coinOnCanvas (World.canvasHeight w) c) after /\
    coins (World.gameState w') = coins gs + collected * coinWorth cfg gs /\
    score (World.gameState w') = score gs + collected * coinWorth cfg gs * 10 /\
    World.player w' = player.
Proof.
  intros cfg deltaSpeed w gs player magnetRange after collected w'.
  unfold w', updateCoins. fold gs magnetRange.
  destruct (updateCoins_loop_spec cfg deltaSpeed magnetRange
              (rev (World.coins w)) [] w)
    as (((T1 & _) & _) & Tl & Tc & Ts).
  rewrite rev_involutive in Tl, Tc, Ts. rewrite app_nil_r in Tl.
  repeat split; assumption.
Qed.

(** What the magnet does to one coin. *)
Lemma coinAfter_pull :
  forall (cfg : Config) (deltaSpeed speed : Q) (magnet : bool)
         (player : Player.t) (c : Coin.t),
    let magnetRange : Q := if magnet then 150%Q else 0%Q in
    let moved := (Coin.y c + roadMarkingSpeed cfg * speed * deltaSpeed)%Q in
    let dx := (Player.x player - Coin.x c)%Q in
    let dy := (Player.y player - moved)%Q in
    let c' := coinAfter cfg deltaSpeed speed magnet magnetRange player c in
    Coin.size c' = Coin.size c /\
    (magnet = true -> (dx * dx + dy * dy < 150 * 150)%Q ->
     (Player.x player - Coin.x c' == 0.9 * dx)%Q /\
     (Player.y player - Coin.y c' == 0.9 * dy)%Q) /\
    (magnet = false \/ (150 * 150 <= dx * dx + dy * dy)%Q ->
     Coin.x c' = Coin.x c /\ Coin.y c' = moved).
Proof.
  intros cfg deltaSpeed speed magnet player c magnetRange moved dx dy c'.
  unfold c', coinAfter, magnetRange. cbn [Coin.x Coin.y Coin.size Coin.set_y Coin.set_x].
  fold moved dx dy.
  destruct magnet.
  - destruct (Qltb (dx * dx + dy * dy) (150 * 150)) eqn:E.
    + split; [reflexivity|]. split.
      * intros _ _. cbn [Coin.x Coin.y Coin.set_y Coin.set_x].
        subst dx dy. split; lra.
      * intros [H|H]; [discriminate|]. apply Qltb_lt in E. lra.
    + split; [reflexivity|]. split.
      * intros _ H. apply Qltb_ge in E. lra.
      * intros _. split; reflexivity.
  - split; [reflexivity|]. split; [discriminate|]. intros _. split; reflexivity.
Qed.

(** X13. The magnet only pulls.  Every coin that [updateCoins] leaves on
    the road comes from a coin that was there, with its size; under the
    magnet, if its distance to the corner [(player.x, player.y)] is below
    150 px after its move down the road, it ends the frame at nine tenths
    of its offset from that corner on both axes; out of range, or without
    the magnet, it has only moved down the road. *)
Theorem updateCoins_magnet :
  forall (cfg : Config) (deltaSpeed : Q) (w : World.t) (c' : Coin.t),
    In c' (World.coins (updateCoins cfg deltaSpeed w)) ->
    exists c,
      In c (World.coins w) /\ Coin.size c' = Coin.size c /\
      let gs := World.gameState w in
      let player := World.player w in
      let moved :=
        (Coin.y c + roadMarkingSpeed cfg * currentSpeed gs * deltaSpeed)%Q in
      let dx := (Player.x player - Coin.x c)%Q in
      let dy := (Player.y player - moved)%Q in
      (hasMagnet gs = true -> (dx * dx + dy * dy < 150 * 150)%Q ->
       (Player.x player - Coin.x c' == 0.9 * dx)%Q /\
       (Player.y player - Coin.y c' == 0.9 * dy)%Q) /\
      (hasMagnet gs = false \/ (150 * 150 <= dx * dx + dy * dy)%Q ->
       Coin.x c' = Coin.x c /\ Coin.y c' = moved).
Proof.
  intros cfg deltaSpeed w c' Hin.
  rewrite coins_after_updateCoins in Hin. cbv zeta in Hin.
  apply filter_In in Hin. destruct Hin as [Hin _].
  apply in_map_iff in Hin. destruct Hin as (c & Ec & Hc).
  exists c. split; [exact Hc|]. subst c'.
  destruct (coinAfter_pull cfg deltaSpeed (currentSpeed (World.gameState w))
              (hasMagnet (World.gameState w)) (World.player w) c)
    as (Hs & Hpull & Hstay).
  split; [exact Hs|]. cbv zeta. split; assumption.
Qed.

Lemma updateCoins_magnet_witness :
  let c' := hd coin_in_reach (World.coins (updateCoins CONFIG 1 magnet0)) in
  In c' (World.coins (updateCoins CONFIG 1 magnet0)) /\
  (Player.x (World.player magnet0) - Coin.x c' == 0.9 * (100 - 200))%Q.
Proof.
  intros c'.
  assert (Hin : In c' (World.coins (updateCoins CONFIG 1 magnet0)))
    by (vm_compute; left; reflexivity).
  split; [exact Hin|].
  destruct (updateCoins_magnet CONFIG 1 magnet0 c' Hin) as (c & Hc & _ & Hpull & _).
  destruct Hc as [Hc|[]]. subst c.
  destruct (Hpull eq_refl ltac:(vm_compute; reflexivity)) as [Hx _].
  rewrite Hx. vm_compute. reflexivity.
Defined.

(** ** The power-up pass *)

Lemma find_snoc {A : Type} (f : A -> bool) (l : list A) (x : A) :
  find f (l ++ [x])
  = match find f l with
    | Some y => Some y
    | None => if f x then Some x else None
    end.
Proof.
  induction l as [|a l IH]; [reflexivity|].
  cbn [app find]. destruct (f a); [reflexivity|exact IH].
Qed.

Lemma pickedUp_collectPowerUp
    (cfg : Config) (now : Z) (p : PowerUp.t) (w : World.t) :
  pickedUp cfg now p (collectPowerUp cfg now p w).
Proof.
  unfold pickedUp, collectPowerUp.
  destruct (activePowerUp (World.gameState w)); destruct (PowerUp.type p);
    repeat split.
Qed.

Lemma updatePowerUps_loop_cons
    (cfg : Config) (deltaSpeed : Q) (now : Z)
    (p : PowerUp.t) (rest kept : list PowerUp.t) (w : World.t) :
  updatePowerUps_loop cfg deltaSpeed now (p :: rest) kept w =
  let p' := powerUpAfter cfg deltaSpeed (currentSpeed (World.gameState w)) p in
  if checkPowerUpCollision (World.player w) p'
  then updatePowerUps_loop cfg deltaSpeed now rest kept (collectPowerUp cfg now p' w)
  else if powerUpOnCanvas (World.canvasHeight w) p'
  then updatePowerUps_loop cfg deltaSpeed now rest (p' :: kept) w
  else updatePowerUps_loop cfg deltaSpeed now rest kept w.
Proof.
  cbv zeta. unfold powerUpOnCanvas. cbn [updatePowerUps_loop].
  fold (powerUpAfter cfg deltaSpeed (currentSpeed (World.gameState w)) p).
  destruct (checkPowerUpCollision _ _); [reflexivity|].
  destruct (Qltb _ _); reflexivity.
Qed.

Lemma updatePowerUps_loop_spec (cfg : Config) (deltaSpeed : Q) (now : Z) :
  forall pending kept w,
    let player := World.player w in
    let after :=
      map (powerUpAfter cfg deltaSpeed (currentSpeed (World.gameState w)))
          (rev pending) in
    let w' := updatePowerUps_loop cfg deltaSpeed now pending kept w in
    World.powerUps w'
    = filter (fun p => negb (checkPowerUpCollision player p)
                       && powerUpOnCanvas (World.canvasHeight w) p) after ++ kept /\
    match find (checkPowerUpCollision player) after with
    | Some p => pickedUp cfg now p w'
    | None => World.gameState w' = World.gameState w /\
              World.visualFX w' = World.visualFX w
    end.
Proof.
  induction pending as [|p rest IH]; intros kept w player after w'.
  - subst w' after player. cbn. split; [reflexivity|]. split; reflexivity.
  - unfold w'. clear w'. rewrite updatePowerUps_loop_cons. cbv zeta.
    fold player.
    set (p' := powerUpAfter cfg deltaSpeed (currentSpeed (World.gameState w)) p).
    assert (Eafter : after
              = map (powerUpAfter cfg deltaSpeed (currentSpeed (World.gameState w)))
                    (rev rest) ++ [p']).
    { unfold after. cbn [rev]. rewrite map_app. reflexivity. }
    rewrite Eafter, filter_app, find_snoc. cbn [filter].
    destruct (checkPowerUpCollision player p') eqn:Ehit; cbn [negb andb].
    + set (w1 := collectPowerUp cfg now p' w).
      destruct (IH kept w1) as (Tl & Tf).
      destruct (sameStage_collectPowerUp cfg now p' w) as (S1 & _ & _ & S4).
      fold w1 in S1, S4.
      pose proof (currentSpeed_collectPowerUp cfg now p' w) as S5. fold w1 in S5.
      cbv zeta in Tl, Tf. rewrite S1, S4, S5 in Tl. rewrite S1, S5 in Tf.
      fold player in Tl, Tf.
      split; [rewrite Tl, app_nil_r; reflexivity|].
      destruct (find _ _) as [q|]; [exact Tf|].
      destruct Tf as [Tg _]. unfold pickedUp. rewrite Tg.
      apply pickedUp_collectPowerUp.
    + destruct (powerUpOnCanvas (World.canvasHeight w) p').
      * destruct (IH (p' :: kept) w) as (Tl & Tf). fold player in Tl, Tf.
        split; [rewrite Tl, <- app_assoc; reflexivity|].
        destruct (find _ _); exact Tf.
      * destruct (IH kept w) as (Tl & Tf). fold player in Tl, Tf.
        split; [rewrite Tl, app_nil_r; reflexivity|].
        destruct (find _ _); exact Tf.
Qed.

(** The pickups that the power-up pass leaves, and the pass when no
    pickup is touched. *)
Lemma powerUps_after_updatePowerUps
    (cfg : Config) (deltaSpeed : Q) (now : Z) (w : World.t) :
  let player := World.player w in
  let after :=
    map (powerUpAfter cfg deltaSpeed (currentSpeed (World.gameState w)))
        (World.powerUps w) in
  let w' := updatePowerUps cfg deltaSpeed now w in
  World.powerUps w'
  = filter (fun p => negb (checkPowerUpCollision player p)
                     && powerUpOnCanvas (World.canvasHeight w) p) after /\
  (find (checkPowerUpCollision player) after = None ->
   World.gameState w' = World.gameState w /\
   World.visualFX w' = World.visualFX w).
Proof.
  cbv zeta. unfold updatePowerUps.
  destruct (updatePowerUps_loop_spec cfg deltaSpeed now
              (rev (World.powerUps w)) [] w) as (Tl & Tf).
  rewrite rev_involutive in Tl, Tf. rewrite app_nil_r in Tl.
  split; [exact Tl|]. intros Hn. rewrite Hn in Tf. exact Tf.
Qed.

(** X14. [updatePowerUps] removes every pickup that touches the player
    once it has moved and keeps, in order, the others still on the canvas.
    When several are touched in one frame the one with the lowest index
    decides the state: its type is the active one, its flag is set and the
    expiry is [now] plus its duration.  When none is touched the game
    state is left alone. *)
Theorem updatePowerUps_spec :
  forall (cfg : Config) (deltaSpeed : Q) (now : Z) (w : World.t),
    let player := World.player w in
    let after :=
      map (powerUpAfter cfg deltaSpeed (currentSpeed (World.gameState w)))
          (World.powerUps w) in
    let w' := updatePowerUps cfg deltaSpeed now w in
    World.powerUps w'
    = filter (fun p => negb (checkPowerUpCollision player p)
                       && powerUpOnCanvas (World.canvasHeight w) p) after /\
    match find (checkPowerUpCollision player) after with
    | Some p => pickedUp cfg now p w'
    | None => World.gameState w' = World.gameState w /\
              World.visualFX w' = World.visualFX w
    end.
Proof.
  intros cfg deltaSpeed now w player after w'.
  unfold w', updatePowerUps.
  destruct (updatePowerUps_loop_spec cfg deltaSpeed now
              (rev (World.powerUps w)) [] w) as (Tl & Tf).
  rewrite rev_involutive in Tl, Tf. rewrite app_nil_r in Tl.
  split; assumption.
Qed.

(** ** The passes of a frame, together *)

Lemma timerFields_gameOver (gs0 : GameState) (fx0 : VisualFX) :
  forall gs fx, timerFields gs0 fx0 gs fx -> timerFields gs0 fx0 (gameOver gs) fx.
Proof.
  intros gs fx (A & B & C & D & E). unfold timerFields, gameOver. simpl.
  destruct (topScore gs <? score gs); cbn;
    (split; [exact A|]); (split; [intros t; rewrite <- B; destruct t; reflexivity|]);
    repeat split; assumption.
Qed.

Lemma timerFields_handleDodge (cfg : Config) (gs0 : GameState) (fx0 : VisualFX) :
  forall now gs fx,
    timerFields gs0 fx0 gs fx ->
    timerFields gs0 fx0
      (handleDodge cfg now (set_dodgedCars (dodgedCars gs + 1) gs)) fx.
Proof.
  intros now gs fx (A & B & C & D & E). unfold timerFields, handleDodge.
  cbn -[Z.add Z.mul].
  destruct (_ <? _); cbn -[Z.add Z.mul];
    (split; [exact A|]); (split; [intros t; rewrite <- B; destruct t; reflexivity|]);
    repeat split; assumption.
Qed.

Lemma timerFields_collectCoin (cfg : Config) (gs0 : GameState) (fx0 : VisualFX) :
  forall coin gs fx,
    timerFields gs0 fx0 gs fx -> timerFields gs0 fx0 (collectCoin cfg coin gs) fx.
Proof.
  intros coin gs fx (A & B & C & D & E). unfold timerFields, collectCoin.
  cbn -[Z.add Z.mul].
  (split; [exact A|]); (split; [intros t; rewrite <- B; destruct t; reflexivity|]);
    repeat split; assumption.
Qed.

Lemma others_updateEnemies_loop (cfg : Config) (deltaSpeed : Q) (now : Z) :
  forall pending kept w,
    let w' := updateEnemies_loop cfg deltaSpeed now pending kept w in
    World.coins w' = World.coins w /\ World.powerUps w' = World.powerUps w.
Proof.
  induction pending as [|enemy rest IH]; intros kept w; cbv zeta in *.
  - split; reflexivity.
  - rewrite updateEnemies_loop_cons. cbv zeta.
    destruct (negb (hasShield (World.gameState w)) && enemyHits _ _ _ _);
      [split; reflexivity|].
    destruct (enemyDodged _ _ _ _); destruct (enemyOnCanvas _ _);
      match goal with
      | |- context [updateEnemies_loop _ _ _ _ ?k ?v] =>
          destruct (IH k v) as [A B]
      end; rewrite A, B; split; reflexivity.
Qed.

Lemma others_updateCoins_loop (cfg : Config) (deltaSpeed magnetRange : Q) :
  forall pending kept w,
    let w' := updateCoins_loop cfg deltaSpeed magnetRange pending kept w in
    World.enemies w' = World.enemies w /\ World.powerUps w' = World.powerUps w.
Proof.
  induction pending as [|coin rest IH]; intros kept w; cbv zeta in *.
  - split; reflexivity.
  - rewrite updateCoins_loop_cons. cbv zeta.
    destruct (checkCoinCollision _ _).
    + match goal with
      | |- context [updateCoins_loop _ _ _ _ ?k ?v] => destruct (IH k v) as [A B]
      end. rewrite A, B. split; reflexivity.
    + destruct (coinOnCanvas _ _); apply IH.
Qed.

Lemma others_updatePowerUps_loop (cfg : Config) (deltaSpeed : Q) (now : Z) :
  forall pending kept w,
    let w' := updatePowerUps_loop cfg deltaSpeed now pending kept w in
    World.enemies w' = World.enemies w /\ World.coins w' = World.coins w.
Proof.
  induction pending as [|p rest IH]; intros kept w; cbv zeta in *.
  - split; reflexivity.
  - rewrite updatePowerUps_loop_cons. cbv zeta.
    destruct (checkPowerUpCollision _ _).
    + match goal with
      | |- context [updatePowerUps_loop _ _ _ _ ?k ?v] => destruct (IH k v) as [A B]
      end.
      rewrite A, B. unfold collectPowerUp.
      destruct (activePowerUp (World.gameState w));
        match goal with
        | |- context [PowerUp.type ?q] => destruct (PowerUp.type q)
        end; split; reflexivity.
    + destruct (powerUpOnCanvas _ _); apply IH.
Qed.

Lemma others_updatePowerUpTimers (now : Z) (w : World.t) :
  let w' := updatePowerUpTimers now w in
  World.enemies w' = World.enemies w /\ World.coins w' = World.coins w /\
  World.powerUps w' = World.powerUps w.
Proof.
  cbv zeta. unfold updatePowerUpTimers.
  destruct (activePowerUp _); [destruct (_ <? _)|]; repeat split.
Qed.

(** The world on which the coin pass of a frame runs. *)
Lemma before_updateCoins (cfg : Config) (deltaSpeed : Q) (now : Z) (w : World.t) :
  let w' := updateEnemies cfg deltaSpeed now w in
  sameStage w w' /\
  holds (timerFields (World.gameState w) (World.visualFX w)) w' /\
  World.coins w' = World.coins w /\ World.powerUps w' = World.powerUps w.
Proof.
  cbv zeta. unfold updateEnemies.
  split; [apply sameStage_updateEnemies_loop|].
  split; [|apply others_updateEnemies_loop].
  apply (holds_updateEnemies_loop cfg
           (timerFields (World.gameState w) (World.visualFX w))).
  - apply timerFields_gameOver.
  - apply timerFields_handleDodge.
  - repeat split.
Qed.

(** The world on which the power-up pass of a frame runs. *)
Lemma before_updatePowerUps (cfg : Config) (deltaSpeed : Q) (now : Z) (w : World.t) :
  let w' := updateCoins cfg deltaSpeed (updateEnemies cfg deltaSpeed now w) in
  sameStage w w' /\
  holds (timerFields (World.gameState w) (World.visualFX w)) w' /\
  World.powerUps w' = World.powerUps w.
Proof.
  cbv zeta.
  destruct (before_updateCoins cfg deltaSpeed now w) as (S & T & _ & Pw).
  cbv zeta in S, T, Pw. unfold updateCoins.
  split; [eapply sameStage_trans; [exact S|apply sameStage_updateCoins_loop]|].
  split.
  - apply (holds_updateCoins_loop cfg
             (timerFields (World.gameState w) (World.visualFX w))).
    + apply timerFields_collectCoin.
    + exact T.
  - rewrite <- Pw. apply others_updateCoins_loop.
Qed.

(** X15. In a frame of a running game the coins and the pickups are each
    decided by their own pass, whatever the enemy pass did, a crash
    included: the coins left are the moved coins that do not touch the
    player after its lane transition and are still on the canvas, and the
    same holds of the pickups. *)
Theorem update_coins_and_powerUps :
  forall (cfg : Config) (now : Z) (w : World.t),
    isPlaying (World.gameState w) = true ->
    isPaused (World.gameState w) = false ->
    let gs := World.gameState w in
    let deltaSpeed : Q := if hasSlowMo gs then 0.5%Q else 1%Q in
    let speed := (currentSpeed gs + speedIncreaseRate cfg)%Q in
    let player := World.player (easePlayer cfg w) in
    let magnetRange : Q := if hasMagnet gs then 150%Q else 0%Q in
    let coinsAfter :=
      map (coinAfter cfg deltaSpeed speed (hasMagnet gs) magnetRange player)
          (World.coins w) in
    let powerUpsAfter := map (powerUpAfter cfg deltaSpeed speed) (World.powerUps w) in
    let w' := update cfg now w in
    World.coins w'
    = filter (fun c => negb (checkCoinCollision player c)
                       && coinOnCanvas (World.canvasHeight w) c) coinsAfter /\
    World.powerUps w'
    = filter (fun p => negb (checkPowerUpCollision player p)
                       && powerUpOnCanvas (World.canvasHeight w) p) powerUpsAfter.
Proof.
  intros cfg now w Hp Hq gs deltaSpeed speed player magnetRange coinsAfter
         powerUpsAfter w'.
  unfold w'. rewrite update_unfold. cbv zeta. rewrite Hp, Hq. cbn [negb orb].
  fold gs. fold deltaSpeed. unfold finishFrame. cbv zeta.
  set (w0 := easePlayer cfg
               (World.on_gameState
                  (advanceClock cfg deltaSpeed (if hasNitro gs then 1.8 else 1)) w)).
  assert (E1 : currentSpeed (World.gameState w0) = speed)
    by apply currentSpeed_advanceClock.
  assert (E2 : hasMagnet (World.gameState w0) = hasMagnet gs)
    by apply (proj2 (samePowerUp_advanceClock cfg _ _ gs) MAGNET).
  assert (E3 : World.player w0 = player) by reflexivity.
  assert (E4 : World.coins w0 = World.coins w) by reflexivity.
  assert (E5 : World.powerUps w0 = World.powerUps w) by reflexivity.
  assert (E6 : World.canvasHeight w0 = World.canvasHeight w) by reflexivity.
  set (w1 := updateEnemies cfg deltaSpeed now w0).
  set (w2 := updateCoins cfg deltaSpeed w1).
  set (w3 := updatePowerUps cfg deltaSpeed now w2).
  destruct (before_updateCoins cfg deltaSpeed now w0)
    as ((S1 & _ & _ & S4) & (_ & F & _ & Sp & _) & C1 & _).
  fold w1 in S1, S4, F, Sp, C1.
  destruct (before_updatePowerUps cfg deltaSpeed now w0)
    as ((T1 & _ & _ & T4) & (_ & _ & _ & Tp & _) & P2).
  fold w1 in T1, T4, Tp, P2. fold w2 in T1, T4, Tp, P2.
  pose proof (coins_after_updateCoins cfg deltaSpeed w1) as Hc.
  cbv zeta in Hc. fold w2 in Hc.
  pose proof (powerUps_after_updatePowerUps cfg deltaSpeed now w2) as (Hu & _).
  fold w3 in Hu.
  destruct (others_updatePowerUps_loop cfg deltaSpeed now
              (rev (World.powerUps w2)) [] w2) as (_ & K).
  fold (updatePowerUps cfg deltaSpeed now w2) in K. fold w3 in K.
  destruct (others_updatePowerUpTimers now w3) as (_ & L1 & L2).
  cbn [World.coins World.powerUps World.on_gameState World.set_gameState].
  rewrite L1, L2, K, Hc, Hu.
  rewrite (F MAGNET : hasMagnet _ = hasMagnet _), Sp, S1, S4, C1.
  rewrite Tp, T1, T4, P2.
  rewrite E1, E2, E3, E4, E5, E6.
  split; reflexivity.
Qed.

Lemma update_coins_and_powerUps_witness :
  World.coins (update CONFIG 5000 crash0) = [] /\
  World.powerUps (update CONFIG 5000 crash0) = [].
Proof.
  pose proof (update_coins_and_powerUps CONFIG 5000 crash0 eq_refl eq_refl)
    as [Hc Hp].
  split.
  - rewrite Hc. vm_compute. reflexivity.
  - rewrite Hp. reflexivity.
Defined.

(** ** Expiry of the active power-up *)

Lemma timerFields_advanceClock (cfg : Config) (d n : Q) (gs : GameState) :
  activePowerUp (advanceClock cfg d n gs) = activePowerUp gs /\
  (forall t, flag t (advanceClock cfg d n gs) = flag t gs) /\
  powerUpEndTime (advanceClock cfg d n gs) = powerUpEndTime gs.
Proof.
  destruct (samePowerUp_advanceClock cfg d n gs) as [A B].
  split; [exact A|]. split; [exact B|].
  unfold advanceClock; simpl.
  destruct (hasNitro gs) eqn:E; simpl;
    match goal with |- context [Qltb ?a ?b] => destruct (Qltb a b) end;
    reflexivity.
Qed.

Lemma timers_after (cfg : Config) (deltaSpeed : Q) (now : Z) (w : World.t) :
  let gs' :=
    World.gameState
      (World.on_gameState
         (fun gs => set_score (score gs + Qfloor (currentSpeed gs * deltaSpeed)) gs)
         (World.on_gameState (updateCombo cfg now) w)) in
  activePowerUp gs' = activePowerUp (World.gameState w) /\
  (forall t, flag t gs' = flag t (World.gameState w)) /\
  powerUpEndTime gs' = powerUpEndTime (World.gameState w).
Proof.
  cbv zeta. unfold updateCombo. cbn -[Z.add Z.sub].
  destruct (_ && _); cbn -[Z.add Z.sub];
    (split; [reflexivity|]); (split; [intros t; destruct t; reflexivity|]);
    reflexivity.
Qed.

(** X16. The power-up timer of a frame.  When no pickup is touched in the
    frame, an active power-up whose expiry lies strictly before [now] is
    switched off with all five flags and the nitro visual; at
    [now = powerUpEndTime] and before, and with no active power-up, the
    active power-up, the flags, the expiry and the nitro pair of
    [visualFX] are left as they were. *)
Theorem update_powerUp_expiry :
  forall (cfg : Config) (now : Z) (w : World.t),
    isPlaying (World.gameState w) = true ->
    isPaused (World.gameState w) = false ->
    let gs := World.gameState w in
    let deltaSpeed : Q := if hasSlowMo gs then 0.5%Q else 1%Q in
    let speed := (currentSpeed gs + speedIncreaseRate cfg)%Q in
    let player := World.player (easePlayer cfg w) in
    find (checkPowerUpCollision player)
         (map (powerUpAfter cfg deltaSpeed speed) (World.powerUps w)) = None ->
    let w' := update cfg now w in
    let gs' := World.gameState w' in
    (expired now gs = true ->
     activePowerUp gs' = None /\ (forall t, flag t gs' = false) /\
     nitroActive (World.visualFX w') = false) /\
    (expired now gs = false ->
     activePowerUp gs' = activePowerUp gs /\ (forall t, flag t gs' = flag t gs) /\
     powerUpEndTime gs' = powerUpEndTime gs /\
     nitroActive (World.visualFX w') = nitroActive (World.visualFX w) /\
     nitroEndTime (World.visualFX w') = nitroEndTime (World.visualFX w)).
Proof.
  intros cfg now w Hp Hq gs deltaSpeed speed player Hfind w' gs'.
  unfold gs', w'. clear gs' w'.
  rewrite update_unfold. cbv zeta. rewrite Hp, Hq. cbn [negb orb].
  fold gs. fold deltaSpeed. unfold finishFrame. cbv zeta.
  set (w0 := easePlayer cfg
               (World.on_gameState
                  (advanceClock cfg deltaSpeed (if hasNitro gs then 1.8 else 1)) w)).
  assert (E1 : currentSpeed (World.gameState w0) = speed)
    by apply currentSpeed_advanceClock.
  assert (E3 : World.player w0 = player) by reflexivity.
  assert (E5 : World.powerUps w0 = World.powerUps w) by reflexivity.
  assert (E7 : World.visualFX w0 = World.visualFX w) by reflexivity.
  destruct (timerFields_advanceClock cfg deltaSpeed
              (if hasNitro gs then 1.8 else 1)%Q gs) as (A0 & B0 & C0).
  change (advanceClock cfg deltaSpeed (if hasNitro gs then 1.8 else 1)%Q gs)
    with (World.gameState w0) in A0, B0, C0.
  set (w2 := updateCoins cfg deltaSpeed (updateEnemies cfg deltaSpeed now w0)).
  destruct (before_updatePowerUps cfg deltaSpeed now w0)
    as ((T1 & _) & (Ta & Tb & Tc & Tp & Tx) & P2).
  fold w2 in T1, Ta, Tb, Tc, Tp, Tx, P2.
  pose proof (powerUps_after_updatePowerUps cfg deltaSpeed now w2) as (_ & Hu).
  cbv zeta in Hu. rewrite Tp, T1, P2, E1, E3, E5 in Hu.
  destruct (Hu Hfind) as [G X]. clear Hu.
  set (w3 := updatePowerUps cfg deltaSpeed now w2) in *.
  assert (Fa : activePowerUp (World.gameState w3) = activePowerUp gs)
    by (rewrite G, Ta; exact A0).
  assert (Fc : powerUpEndTime (World.gameState w3) = powerUpEndTime gs)
    by (rewrite G, Tc; exact C0).
  assert (Fb : forall t, flag t (World.gameState w3) = flag t gs)
    by (intros t; rewrite G, Tb; apply B0).
  assert (Fx : World.visualFX w3 = World.visualFX w)
    by (rewrite X, Tx; exact E7).
  clearbody w3. clear G X Ta Tb Tc Tp Tx P2 T1 A0 B0 C0 E1 E3 E5 E7 Hfind.
  clearbody w0. clear w2 w0.
  destruct (timers_after cfg deltaSpeed now (updatePowerUpTimers now w3))
    as (Ra & Rb & Rc).
  cbv zeta in Ra, Rb, Rc.
  split; intros He.
  - rewrite Ra. split; [|split].
    + unfold updatePowerUpTimers. unfold expired in He. fold gs in He.
      rewrite Fa, Fc. destruct (activePowerUp gs); [|discriminate].
      rewrite He. reflexivity.
    + intros t. rewrite Rb. unfold updatePowerUpTimers.
      unfold expired in He. fold gs in He.
      rewrite Fa, Fc. destruct (activePowerUp gs); [|discriminate].
      rewrite He. destruct t; reflexivity.
    + cbn [World.visualFX World.on_gameState World.set_gameState].
      unfold updatePowerUpTimers. unfold expired in He. fold gs in He.
      rewrite Fa, Fc. destruct (activePowerUp gs); [|discriminate].
      rewrite He. reflexivity.
  - assert (Hsame : updatePowerUpTimers now w3 = w3).
    { unfold updatePowerUpTimers. unfold expired in He. fold gs in He.
      rewrite Fa, Fc. destruct (activePowerUp gs); [|reflexivity].
      rewrite He. reflexivity. }
    rewrite Hsame in Ra, Rb, Rc |- *.
    rewrite Ra, Rc. split; [exact Fa|].
    split; [|split; [exact Fc|]];
      [|split; [exact (f_equal nitroActive Fx)|exact (f_equal nitroEndTime Fx)]].
    intros t. rewrite Rb. apply Fb.
Qed.

Lemma update_powerUp_expiry_witness :
  activePowerUp (World.gameState (update CONFIG (shieldDuration CONFIG) shielded0))
  = Some SHIELD /\
  activePowerUp
    (World.gameState (update CONFIG (shieldDuration CONFIG + 1) shielded0)) = None.
Proof.
  split.
  - pose proof (update_powerUp_expiry CONFIG (shieldDuration CONFIG) shielded0
                  eq_refl eq_refl eq_refl) as [_ H].
    rewrite (proj1 (H eq_refl)). reflexivity.
  - pose proof (update_powerUp_expiry CONFIG (shieldDuration CONFIG + 1) shielded0
                  eq_refl eq_refl eq_refl) as [H _].
    exact (proj1 (H eq_refl)).
Defined.

(** ** Difficulty within a run *)

Lemma Qfloor_div_mono (a a' b : Q) :
  (0 < b)%Q -> (a <= a')%Q -> Qfloor (a / b) <= Qfloor (a' / b).
Proof.
  intros Hb Ha. apply Qfloor_resp_le. unfold Qdiv.
  apply Qmult_le_compat_r; [exact Ha|].
  apply Qlt_le_weak, Qinv_lt_0_compat. exact Hb.
Qed.

Lemma levelInv_update (cfg : Config) (now : Z) (w : World.t) :
  (0 <= speedIncreaseRate cfg)%Q -> (0 < difficultyIncreaseInterval cfg)%Q ->
  levelInv cfg (World.gameState w) ->
  levelInv cfg (World.gameState (update cfg now w)) /\
  (distance (World.gameState w) <= distance (World.gameState (update cfg now w)))%Q /\
  difficultyLevel (World.gameState w)
  <= difficultyLevel (World.gameState (update cfg now w)).
Proof.
  intros Hrate HI (Hd & Hs & Hl & Hu).
  assert (Hstay : update cfg now w = w ->
            levelInv cfg (World.gameState (update cfg now w)) /\
            (distance (World.gameState w)
             <= distance (World.gameState (update cfg now w)))%Q /\
            difficultyLevel (World.gameState w)
            <= difficultyLevel (World.gameState (update cfg now w))).
  { intros E. rewrite E. split; [repeat split; assumption|]. split; [lra|lia]. }
  destruct (isPlaying (World.gameState w)) eqn:Hp;
    [|apply Hstay; rewrite update_unfold; cbv zeta; rewrite Hp; reflexivity].
  destruct (isPaused (World.gameState w)) eqn:Hq;
    [apply Hstay; rewrite update_unfold; cbv zeta; rewrite Hp, Hq; reflexivity|].
  clear Hstay.
  destruct (update_clock cfg now w Hp Hq) as [Ed El].
  pose proof (currentSpeed_update cfg now w) as Es.
  rewrite Hp, Hq in Es. cbn [negb orb] in Es.
  unfold levelInv. rewrite El, Es, Ed.
  set (s := currentSpeed (World.gameState w)) in *.
  set (d := distance (World.gameState w)) in *.
  set (rate := speedIncreaseRate cfg) in *.
  set (I := difficultyIncreaseInterval cfg) in *.
  set (l := difficultyLevel (World.gameState w)) in *.
  assert (Hinc : (0 <= (s + rate)
                     * (if hasSlowMo (World.gameState w) then 0.5 else 1)
                     * (if hasNitro (World.gameState w) then 1.8 else 1))%Q).
  { destruct (hasSlowMo _), (hasNitro _); nra. }
  set (inc := ((s + rate)
               * (if hasSlowMo (World.gameState w) then 0.5 else 1)
               * (if hasNitro (World.gameState w) then 1.8 else 1))%Q) in *.
  clearbody inc.
  assert (Hm : Qfloor (d / I) <= Qfloor ((d + inc) / I))
    by (apply Qfloor_div_mono; [exact HI|lra]).
  clear El Ed Es.
  match goal with |- context [Qltb ?a ?b] => destruct (Qltb a b) end;
    repeat split; try lra; lia.
Qed.

Lemma levelInv_fresh (cfg : Config) (gs : GameState) :
  (0 < difficultyIncreaseInterval cfg)%Q ->
  distance gs = 0%Q -> currentSpeed gs = 1%Q -> difficultyLevel gs = 1 ->
  levelInv cfg gs.
Proof.
  intros HI Ed Es El. unfold levelInv. rewrite Ed, Es, El.
  rewrite Qfloor_zero_div by assumption.
  split; [lra|]. split; [lra|]. split; lia.
Qed.

Lemma levelInv_step (cfg : Config) (op : Op) (w : World.t) :
  (0 <= speedIncreaseRate cfg)%Q -> (0 < difficultyIncreaseInterval cfg)%Q ->
  levelInv cfg (World.gameState w) ->
  levelInv cfg (World.gameState (step cfg op w)) /\
  (restarts op w = false ->
   (distance (World.gameState w) <= distance (World.gameState (step cfg op w)))%Q /\
   difficultyLevel (World.gameState w)
   <= difficultyLevel (World.gameState (step cfg op w))).
Proof.
  intros Hrate HI Hw.
  assert (Hfresh : forall v, levelInv cfg (World.gameState (restartGame cfg v)))
    by (intros v; apply levelInv_fresh; [assumption|reflexivity..]).
  assert (Hkeep : forall w' : World.t,
             sameClock (World.gameState w) (World.gameState w') ->
             levelInv cfg (World.gameState w') /\
             (restarts op w = false ->
              (distance (World.gameState w) <= distance (World.gameState w'))%Q /\
              difficultyLevel (World.gameState w)
              <= difficultyLevel (World.gameState w'))).
  { intros w' (E1 & E2 & E3). unfold levelInv. rewrite E1, E2, E3.
    split; [exact Hw|]. intros _. split; [lra|lia]. }
  destruct op; simpl.
  - unfold render.
    assert (E : World.gameState (updateVisualFX now w) = World.gameState w)
      by (unfold updateVisualFX; destruct (_ && _); reflexivity).
    pose proof (levelInv_update cfg now (updateVisualFX now w) Hrate HI) as G.
    rewrite E in G. destruct (G Hw) as (G1 & G2 & G3).
    split; [exact G1|]. intros _. split; assumption.
  - apply Hkeep. unfold moveLeft.
    destruct (_ || _); [|destruct (_ <? _)]; same_clock.
  - apply Hkeep. unfold moveRight.
    destruct (_ || _); [|destruct (_ <? _)]; same_clock.
  - unfold togglePlayPause.
    destruct (isGameOver (World.gameState w)) eqn:Hgo;
      [split; [apply Hfresh | discriminate]|].
    destruct (negb _); [|destruct (isPaused _)];
      (split; [exact Hw|]); intros _; simpl; split; try lra; lia.
  - apply Hkeep. same_clock.
  - split; [apply Hfresh | discriminate].
  - apply Hkeep. same_clock.
  - apply Hkeep. same_clock.
  - apply Hkeep. unfold spawnEnemy.
    destruct (_ || _); [|destruct (negb _)]; same_clock.
  - apply Hkeep. unfold spawnCoin.
    destruct (_ || _); [|destruct (negb _)]; same_clock.
  - apply Hkeep. unfold spawnPowerUp.
    destruct (_ || _); [|destruct (Qltb _ _)]; same_clock.
Qed.

Lemma levelInv_run (cfg : Config) (ops : list Op) :
  (0 <= speedIncreaseRate cfg)%Q -> (0 < difficultyIncreaseInterval cfg)%Q ->
  forall w, levelInv cfg (World.gameState w) ->
            levelInv cfg (World.gameState (run cfg ops w)).
Proof.
  intros Hrate HI. induction ops as [|op ops IH]; intros w Hw; simpl.
  - exact Hw.
  - apply IH. apply levelInv_step; assumption.
Qed.

(** X17. In every world of a run the difficulty level is at least 1 and
    at most [floor(distance / interval) + 1]; no frame, lane shift, pause,
    resume, spawn, resize or top-score reset lowers the level or the
    distance: only a restart does. *)
Theorem difficultyLevel_never_decreases :
  forall cfg : Config,
    (0 <= speedIncreaseRate cfg)%Q -> (0 < difficultyIncreaseInterval cfg)%Q ->
    forall (ops : list Op) (top c tc : Z) (cw ch : Q),
      let w := run cfg ops (init cfg top c tc cw ch) in
      let gs := World.gameState w in
      (1 <= difficultyLevel gs /\
       difficultyLevel gs
       <= Qfloor (distance gs / difficultyIncreaseInterval cfg) + 1) /\
      (forall op,
         restarts op w = false ->
         (distance gs <= distance (World.gameState (step cfg op w)))%Q /\
         difficultyLevel gs <= difficultyLevel (World.gameState (step cfg op w))).
Proof.
  intros cfg Hrate HI ops top c tc cw ch w gs.
  assert (Hinv : levelInv cfg gs).
  { apply levelInv_run; try assumption.
    apply levelInv_fresh; [assumption|reflexivity..]. }
  split.
  - destruct Hinv as (_ & _ & H1 & H2). split; assumption.
  - intros op. apply levelInv_step; assumption.
Qed.

Lemma difficultyLevel_never_decreases_witness :
  let w := run CONFIG [OpCountdownDone; OpRender 16] (init CONFIG 0 0 0 400 800) in
  1 <= difficultyLevel (World.gameState w) /\
  difficultyLevel (World.gameState w)
  <= difficultyLevel (World.gameState (step CONFIG (OpRender 32) w)).
Proof.
  intros w.
  pose proof (difficultyLevel_never_decreases CONFIG
                ltac:(vm_compute; discriminate) ltac:(vm_compute; reflexivity)
                [OpCountdownDone; OpRender 16] 0 0 0 400 800) as [[H1 _] H2].
  split; [exact H1|]. exact (proj2 (H2 (OpRender 32) eq_refl)).
Defined.

(** X18. The interval that [startSpawners] gives the enemy spawner, in any
    world of a run: it is never below [minEnemySpawnRate], it is at most
    [enemySpawnRate - 100] unless that is below the minimum, it is the
    minimum from the level at which [enemySpawnRate - 100 * level] reaches
    it, and a later start within the same run never gives a longer one.
    The coin and power-up spawners always get their configured intervals. *)
Theorem startSpawners_enemy_interval :
  forall cfg : Config,
    (0 <= speedIncreaseRate cfg)%Q -> (0 < difficultyIncreaseInterval cfg)%Q ->
    forall (ops : list Op) (top c tc : Z) (cw ch : Q) (s : Spawners),
      let w := run cfg ops (init cfg top c tc cw ch) in
      let gs := World.gameState w in
      exists rate,
        startSpawners cfg gs s
        = {| enemySpawnTimer := Some rate;
             coinSpawnTimer := Some (coinSpawnRate cfg);
             powerUpSpawnTimer := Some (powerUpSpawnRate cfg) |} /\
        minEnemySpawnRate cfg <= rate /\
        rate <= Z.max (minEnemySpawnRate cfg) (enemySpawnRate cfg - 100) /\
        (enemySpawnRate cfg - minEnemySpawnRate cfg <= 100 * difficultyLevel gs ->
         rate = minEnemySpawnRate cfg) /\
        (forall op s' rate',
           restarts op w = false ->
           enemySpawnTimer (startSpawners cfg (World.gameState (step cfg op w)) s')
           = Some rate' ->
           rate' <= rate).
Proof.
  intros cfg Hrate HI ops top c tc cw ch s w gs.
  assert (Hinv : levelInv cfg gs).
  { apply levelInv_run; try assumption.
    apply levelInv_fresh; [assumption|reflexivity..]. }
  destruct Hinv as (H0 & Hs & H1 & H2).
  exists (Z.max (minEnemySpawnRate cfg) (enemySpawnRate cfg - difficultyLevel gs * 100)).
  split; [reflexivity|]. split; [lia|]. split; [lia|]. split; [lia|].
  intros op s' rate' Hop E.
  destruct (levelInv_step cfg op w Hrate HI) as [_ Hm].
  { repeat split; assumption. }
  destruct (Hm Hop) as [_ Hl]. fold gs in Hl.
  unfold startSpawners in E. cbn [enemySpawnTimer] in E.
  injection E as E. lia.
Qed.

Lemma startSpawners_enemy_interval_witness :
  enemySpawnTimer
    (startSpawners CONFIG
       (World.gameState (run CONFIG [OpCountdownDone] (init CONFIG 0 0 0 400 800)))
       {| enemySpawnTimer := None; coinSpawnTimer := None;
          powerUpSpawnTimer := None |})
  = Some 1400.
Proof.
  destruct (startSpawners_enemy_interval CONFIG
              ltac:(vm_compute; discriminate) ltac:(vm_compute; reflexivity)
              [OpCountdownDone] 0 0 0 400 800
              {| enemySpawnTimer := None; coinSpawnTimer := None;
                 powerUpSpawnTimer := None |}) as (rate & E & _).
  rewrite E. cbn [enemySpawnTimer].
  injection E as E. rewrite <- E. reflexivity.
Defined.

(** ** Combo streaks *)

Lemma handleDodge_in_window (cfg : Config) (t : Z) (gs : GameState) :
  (t - lastDodgeTime gs <? comboTimeout cfg) = true ->
  let gs' := handleDodge cfg t gs in
  combo gs' = combo gs + 1 /\
  score gs'
  = score gs + (combo gs + 1) * 50 * (if hasDoublePoints gs then 2 else 1) /\
  lastDodgeTime gs' = t /\ hasDoublePoints gs' = hasDoublePoints gs.
Proof.
  intros H. cbv zeta. unfold handleDodge. rewrite H. cbn -[Z.add Z.mul].
  repeat split.
Qed.

Lemma dodges_streak (cfg : Config) :
  forall (ts : list Z) (gs : GameState),
    streak (comboTimeout cfg) (lastDodgeTime gs) ts = true ->
    let n := Z.of_nat (length ts) in
    let m := if hasDoublePoints gs then 2 else 1 in
    combo (dodges cfg ts gs) = combo gs + n /\
    score (dodges cfg ts gs) = score gs + 25 * m * n * (2 * combo gs + n + 1) /\
    hasDoublePoints (dodges cfg ts gs) = hasDoublePoints gs.
Proof.
  induction ts as [|t rest IH]; intros gs Hs n m.
  - subst n m. cbn [dodges fold_left length Z.of_nat].
    repeat split; lia.
  - cbn [streak] in Hs. apply andb_true_iff in Hs. destruct Hs as [Ht Hr].
    destruct (handleDodge_in_window cfg t gs Ht) as (C & S & L & D).
    cbv zeta in C, S, L, D.
    unfold dodges. cbn [fold_left]. fold (dodges cfg rest (handleDodge cfg t gs)).
    rewrite <- L in Hr.
    destruct (IH (handleDodge cfg t gs) Hr) as (C' & S' & D').
    cbv zeta in C', S', D'.
    rewrite C', S', D', C, S, D.
    subst n m. rewrite length_cons, Nat2Z.inj_succ.
    set (k := Z.of_nat (length rest)). set (c := combo gs).
    split; [lia|]. split.
    + destruct (hasDoublePoints gs); lia.
    + reflexivity.
Qed.

(** X19. A streak of [n] dodges, each less than the combo timeout after
    the one before, raises the combo by [n] and the score by
    [25 * n * (2 * combo + n + 1)], twice that under DoublePoints: the
    k-th dodge of the streak pays [50 * (combo + k)]. *)
Theorem handleDodge_streak :
  forall (cfg : Config) (ts : list Z) (gs : GameState),
    streak (comboTimeout cfg) (lastDodgeTime gs) ts = true ->
    let n := Z.of_nat (length ts) in
    let m := if hasDoublePoints gs then 2 else 1 in
    combo (dodges cfg ts gs) = combo gs + n /\
    score (dodges cfg ts gs) = score gs + 25 * m * n * (2 * combo gs + n + 1).
Proof.
  intros cfg ts gs Hs n m.
  destruct (dodges_streak cfg ts gs Hs) as (C & S & _).
  split; assumption.
Qed.

Lemma handleDodge_streak_witness :
  let gs := set_lastDodgeTime 1000 (set_combo 2 (gameState0 0 0 0)) in
  combo (dodges CONFIG [1500; 3499; 5000] gs) = 5 /\
  score (dodges CONFIG [1500; 3499; 5000] gs) = 600.
Proof.
  intros gs.
  pose proof (handleDodge_streak CONFIG [1500; 3499; 5000] gs eq_refl) as [C S].
  split; [exact C|exact S].
Defined.

(** X20. The two ends of the combo window.  [updateCombo] drops a running
    combo only when strictly more than the timeout has passed since the
    last dodge, [handleDodge] extends it only when strictly less has
    passed: a dodge exactly [comboTimeout] ms after the last one finds the
    combo still standing and starts again at 1. *)
Theorem combo_window_edges :
  forall (cfg : Config) (now : Z) (gs : GameState),
    0 < combo gs ->
    let gap := now - lastDodgeTime gs in
    (gap <= comboTimeout cfg -> updateCombo cfg now gs = gs) /\
    (comboTimeout cfg < gap -> combo (updateCombo cfg now gs) = 0) /\
    (gap < comboTimeout cfg -> combo (handleDodge cfg now gs) = combo gs + 1) /\
    (comboTimeout cfg <= gap -> combo (handleDodge cfg now gs) = 1) /\
    (gap = comboTimeout cfg ->
     combo (handleDodge cfg now (updateCombo cfg now gs)) = 1).
Proof.
  intros cfg now gs Hc gap.
  assert (Hpos : (0 <? combo gs) = true) by (apply Z.ltb_lt; exact Hc).
  assert (Hup : gap <= comboTimeout cfg -> updateCombo cfg now gs = gs).
  { intros H. unfold updateCombo. rewrite Hpos. fold gap.
    replace (comboTimeout cfg <? gap) with false
      by (symmetry; apply Z.ltb_ge; exact H).
    reflexivity. }
  assert (Hre : comboTimeout cfg <= gap -> combo (handleDodge cfg now gs) = 1).
  { intros H. unfold handleDodge. fold gap.
    replace (gap <? comboTimeout cfg) with false
      by (symmetry; apply Z.ltb_ge; exact H).
    reflexivity. }
  split; [exact Hup|]. split; [|split; [|split; [exact Hre|]]].
  - intros H. unfold updateCombo. rewrite Hpos. fold gap.
    replace (comboTimeout cfg <? gap) with true
      by (symmetry; apply Z.ltb_lt; exact H).
    reflexivity.
  - intros H. unfold handleDodge. fold gap.
    replace (gap <? comboTimeout cfg) with true
      by (symmetry; apply Z.ltb_lt; exact H).
    reflexivity.
  - intros H. rewrite Hup by lia. apply Hre. lia.
Qed.

Lemma combo_window_edges_witness :
  let gs := set_lastDodgeTime 1000 (set_combo 2 (gameState0 0 0 0)) in
  updateCombo CONFIG 3000 gs = gs /\
  combo (handleDodge CONFIG 3000 (updateCombo CONFIG 3000 gs)) = 1.
Proof.
  intros gs.
  pose proof (combo_window_edges CONFIG 3000 gs ltac:(simpl; lia))
    as (H1 & _ & _ & _ & H5).
  split.
  - apply H1. vm_compute. discriminate.
  - apply H5. reflexivity.
Defined.

(** ** Spawning *)

(** X21. The enemy spawner leaves room at the top of a lane.  A car is
    added only when every car of that lane is at least two car heights
    down the canvas, so that a second call for the same lane with no frame
    in between adds nothing, and neither does the coin spawner for that
    lane right after a car was added. *)
Theorem spawnEnemy_keeps_gap :
  forall (cfg : Config) (lane : Z) (w : World.t),
    (0 < enemyHeight cfg)%Q -> (0 <= coinSize cfg)%Q ->
    let w' := spawnEnemy cfg lane w in
    spawnEnemy cfg lane w' = w' /\
    (World.enemies w' = World.enemies w \/
     exists e,
       World.enemies w' = World.enemies w ++ [e] /\
       Enemy.lane e = lane /\ Enemy.y e = (- enemyHeight cfg)%Q /\
       Enemy.passed e = false /\
       (forall e0, In e0 (World.enemies w) -> Enemy.lane e0 = lane ->
                   (enemyHeight cfg * 2 <= Enemy.y e0)%Q) /\
       spawnCoin cfg lane w' = w').
Proof.
  intros cfg lane w Hh Hc w'. unfold w'. clear w'.
  destruct (negb (isPlaying (World.gameState w)) || isPaused (World.gameState w))
    eqn:Hrun.
  { assert (E : spawnEnemy cfg lane w = w)
      by (unfold spawnEnemy; rewrite Hrun; reflexivity).
    split; [rewrite !E; reflexivity|]. rewrite E. left; reflexivity. }
  destruct (existsb
              (fun e => (Enemy.lane e =? lane)
                        && Qltb (Enemy.y e) (enemyHeight cfg * 2))
              (World.enemies w)) eqn:Hex.
  { assert (E : spawnEnemy cfg lane w = w)
      by (unfold spawnEnemy; rewrite Hrun; cbv zeta; rewrite Hex; reflexivity).
    split; [rewrite !E; reflexivity|]. rewrite E. left; reflexivity. }
  set (e := {| Enemy.x := getLaneX cfg (World.laneWidth w) lane;
               Enemy.y := - enemyHeight cfg;
               Enemy.width := enemyWidth cfg;
               Enemy.height := enemyHeight cfg;
               Enemy.lane := lane;
               Enemy.speed :=
                 initialEnemySpeed cfg
                 + inject_Z (difficultyLevel (World.gameState w)) * 0.5;
               Enemy.passed := false |}).
  assert (E : spawnEnemy cfg lane w
              = World.set_enemies (World.enemies w ++ [e]) w)
    by (unfold spawnEnemy; rewrite Hrun; cbv zeta; rewrite Hex; reflexivity).
  rewrite !E.
  assert (Hlt2 : Qltb (- enemyHeight cfg) (enemyHeight cfg * 2) = true)
    by (apply Qltb_lt; lra).
  assert (Hlt3 : Qltb (- enemyHeight cfg) (coinSize cfg * 3) = true)
    by (apply Qltb_lt; lra).
  split.
  - unfold spawnEnemy.
    cbn [World.gameState World.set_enemies World.enemies]. rewrite Hrun.
    cbv zeta. rewrite existsb_app. cbn [existsb].
    cbn [Enemy.lane Enemy.y e]. rewrite Z.eqb_refl, Hlt2.
    cbn [andb orb]. rewrite orb_true_r. reflexivity.
  - right. exists e. split; [reflexivity|].
    split; [reflexivity|]. split; [reflexivity|]. split; [reflexivity|].
    split.
    + intros e0 Hin Hl.
      assert (Hf : (Enemy.lane e0 =? lane)
                   && Qltb (Enemy.y e0) (enemyHeight cfg * 2) = false).
      { destruct ((Enemy.lane e0 =? lane)
                  && Qltb (Enemy.y e0) (enemyHeight cfg * 2)) eqn:E0;
          [|reflexivity].
        assert (Ht : existsb
                       (fun e1 => (Enemy.lane e1 =? lane)
                                  && Qltb (Enemy.y e1) (enemyHeight cfg * 2))
                       (World.enemies w) = true)
          by (apply existsb_exists; exists e0; split; assumption).
        rewrite Ht in Hex. discriminate. }
      apply Z.eqb_eq in Hl. rewrite Hl in Hf. cbn [andb] in Hf.
      apply Qltb_ge in Hf. exact Hf.
    + unfold spawnCoin.
      cbn [World.gameState World.set_enemies World.enemies]. rewrite Hrun.
      cbv zeta. rewrite existsb_app. cbn [existsb].
      cbn [Enemy.lane Enemy.y e]. rewrite Z.eqb_refl, Hlt3.
      cbn [andb orb]. rewrite orb_true_r. reflexivity.
Qed.

Lemma spawnEnemy_keeps_gap_witness :
  World.enemies (spawnEnemy CONFIG 1 (spawnEnemy CONFIG 1 playing0))
  = World.enemies (spawnEnemy CONFIG 1 playing0) /\
  length (World.enemies (spawnEnemy CONFIG 1 playing0)) = 1%nat.
Proof.
  pose proof (spawnEnemy_keeps_gap CONFIG 1 playing0
                ltac:(vm_compute; reflexivity) ltac:(vm_compute; discriminate))
    as [H _].
  split.
  - rewrite H. reflexivity.
  - reflexivity.
Defined.

(** ** The visual effects and the game *)

Lemma fxBlind_compose (F G : World.t -> World.t) :
  fxBlind F -> fxBlind G -> fxBlind (fun w => G (F w)).
Proof.
  intros HF HG w fx. destruct (HF w fx) as [fx1 E1]. rewrite E1.
  apply HG.
Qed.

Lemma fxBlind_on_gameState (f : GameState -> GameState) :
  fxBlind (World.on_gameState f).
Proof. intros w fx. exists fx. reflexivity. Qed.

Lemma fxBlind_deactivatePowerUp : fxBlind deactivatePowerUp.
Proof. intros w fx. eexists. reflexivity. Qed.

Lemma fxBlind_collectPowerUp (cfg : Config) (now : Z) (p : PowerUp.t) :
  fxBlind (collectPowerUp cfg now p).
Proof.
  intros w fx. unfold collectPowerUp.
  change (World.gameState (World.set_visualFX fx w)) with (World.gameState w).
  destruct (activePowerUp (World.gameState w)); destruct (PowerUp.type p);
    eexists; reflexivity.
Qed.

Lemma fxBlind_updateEnemies_loop (cfg : Config) (deltaSpeed : Q) (now : Z) :
  forall pending kept, fxBlind (updateEnemies_loop cfg deltaSpeed now pending kept).
Proof.
  induction pending as [|enemy rest IH]; intros kept w fx.
  - exists fx. reflexivity.
  - rewrite !updateEnemies_loop_cons. cbv zeta.
    change (World.gameState (World.set_visualFX fx w)) with (World.gameState w).
    change (World.player (World.set_visualFX fx w)) with (World.player w).
    change (World.canvasHeight (World.set_visualFX fx w))
      with (World.canvasHeight w).
    destruct (negb (hasShield (World.gameState w)) && enemyHits _ _ _ _);
      [exists fx; reflexivity|].
    destruct (enemyDodged _ _ _ _); destruct (enemyOnCanvas _ _);
      try apply IH;
      match goal with
      | |- context [World.on_gameState ?f (World.set_visualFX fx w)] =>
          change (World.on_gameState f (World.set_visualFX fx w))
            with (World.set_visualFX fx (World.on_gameState f w))
      end; apply IH.
Qed.

Lemma fxBlind_updateCoins_loop (cfg : Config) (deltaSpeed magnetRange : Q) :
  forall pending kept,
    fxBlind (updateCoins_loop cfg deltaSpeed magnetRange pending kept).
Proof.
  induction pending as [|coin rest IH]; intros kept w fx.
  - exists fx. reflexivity.
  - rewrite !updateCoins_loop_cons. cbv zeta.
    change (World.gameState (World.set_visualFX fx w)) with (World.gameState w).
    change (World.player (World.set_visualFX fx w)) with (World.player w).
    change (World.canvasHeight (World.set_visualFX fx w))
      with (World.canvasHeight w).
    destruct (checkCoinCollision _ _).
    + match goal with
      | |- context [World.on_gameState ?f (World.set_visualFX fx w)] =>
          change (World.on_gameState f (World.set_visualFX fx w))
            with (World.set_visualFX fx (World.on_gameState f w))
      end. apply IH.
    + destruct (coinOnCanvas _ _); apply IH.
Qed.

Lemma fxBlind_updatePowerUps_loop (cfg : Config) (deltaSpeed : Q) (now : Z) :
  forall pending kept,
    fxBlind (updatePowerUps_loop cfg deltaSpeed now pending kept).
Proof.
  induction pending as [|p rest IH]; intros kept w fx.
  - exists fx. reflexivity.
  - rewrite !updatePowerUps_loop_cons. cbv zeta.
    change (World.gameState (World.set_visualFX fx w)) with (World.gameState w).
    change (World.player (World.set_visualFX fx w)) with (World.player w).
    change (World.canvasHeight (World.set_visualFX fx w))
      with (World.canvasHeight w).
    destruct (checkPowerUpCollision _ _).
    + match goal with
      | |- context [collectPowerUp cfg now ?q (World.set_visualFX fx w)] =>
          destruct (fxBlind_collectPowerUp cfg now q w fx) as [fx1 E1]
      end.
      rewrite E1. apply IH.
    + destruct (powerUpOnCanvas _ _); apply IH.
Qed.

Lemma fxBlind_updateEnemies (cfg : Config) (deltaSpeed : Q) (now : Z) :
  fxBlind (updateEnemies cfg deltaSpeed now).
Proof.
  intros w fx. unfold updateEnemies.
  change (World.enemies (World.set_visualFX fx w)) with (World.enemies w).
  apply fxBlind_updateEnemies_loop.
Qed.

Lemma fxBlind_updateCoins (cfg : Config) (deltaSpeed : Q) :
  fxBlind (updateCoins cfg deltaSpeed).
Proof.
  intros w fx. unfold updateCoins.
  change (World.coins (World.set_visualFX fx w)) with (World.coins w).
  change (World.gameState (World.set_visualFX fx w)) with (World.gameState w).
  apply fxBlind_updateCoins_loop.
Qed.

Lemma fxBlind_updatePowerUps (cfg : Config) (deltaSpeed : Q) (now : Z) :
  fxBlind (updatePowerUps cfg deltaSpeed now).
Proof.
  intros w fx. unfold updatePowerUps.
  change (World.powerUps (World.set_visualFX fx w)) with (World.powerUps w).
  apply fxBlind_updatePowerUps_loop.
Qed.

Lemma fxBlind_updatePowerUpTimers (now : Z) : fxBlind (updatePowerUpTimers now).
Proof.
  intros w fx. unfold updatePowerUpTimers.
  change (World.gameState (World.set_visualFX fx w)) with (World.gameState w).
  destruct (activePowerUp _); [destruct (_ <? _)|]; eexists; reflexivity.
Qed.

Lemma fxBlind_easePlayer (cfg : Config) : fxBlind (easePlayer cfg).
Proof. intros w fx. exists fx. reflexivity. Qed.

Lemma fxBlind_finishFrame (cfg : Config) (deltaSpeed : Q) (now : Z) :
  fxBlind (finishFrame cfg deltaSpeed now).
Proof.
  unfold finishFrame.
  apply (fxBlind_compose
           (fun w => World.on_gameState (updateCombo cfg now)
                       (updatePowerUpTimers now
                          (updatePowerUps cfg deltaSpeed now
                             (updateCoins cfg deltaSpeed
                                (updateEnemies cfg deltaSpeed now
                                   (easePlayer cfg w))))))
           (World.on_gameState
              (fun gs =>
                 set_score (score gs + Qfloor (currentSpeed gs * deltaSpeed)) gs)));
    [|apply fxBlind_on_gameState].
  apply (fxBlind_compose
           (fun w => updatePowerUpTimers now
                       (updatePowerUps cfg deltaSpeed now
                          (updateCoins cfg deltaSpeed
                             (updateEnemies cfg deltaSpeed now
                                (easePlayer cfg w)))))
           (World.on_gameState (updateCombo cfg now)));
    [|apply fxBlind_on_gameState].
  apply (fxBlind_compose
           (fun w => updatePowerUps cfg deltaSpeed now
                       (updateCoins cfg deltaSpeed
                          (updateEnemies cfg deltaSpeed now (easePlayer cfg w))))
           (updatePowerUpTimers now));
    [|apply fxBlind_updatePowerUpTimers].
  apply (fxBlind_compose
           (fun w => updateCoins cfg deltaSpeed
                       (updateEnemies cfg deltaSpeed now (easePlayer cfg w)))
           (updatePowerUps cfg deltaSpeed now));
    [|apply fxBlind_updatePowerUps].
  apply (fxBlind_compose
           (fun w => updateEnemies cfg deltaSpeed now (easePlayer cfg w))
           (updateCoins cfg deltaSpeed));
    [|apply fxBlind_updateCoins].
  apply (fxBlind_compose (easePlayer cfg) (updateEnemies cfg deltaSpeed now));
    [apply fxBlind_easePlayer|apply fxBlind_updateEnemies].
Qed.

Lemma fxBlind_update (cfg : Config) (now : Z) : fxBlind (update cfg now).
Proof.
  intros w fx. rewrite !update_unfold. cbv zeta.
  change (World.gameState (World.set_visualFX fx w)) with (World.gameState w).
  destruct (negb (isPlaying (World.gameState w)) || isPaused (World.gameState w));
    [exists fx; reflexivity|].
  match goal with
  | |- context [World.on_gameState ?f (World.set_visualFX fx w)] =>
      change (World.on_gameState f (World.set_visualFX fx w))
        with (World.set_visualFX fx (World.on_gameState f w))
  end.
  apply fxBlind_finishFrame.
Qed.

Lemma set_visualFX_twice (fx fx' : VisualFX) (w : World.t) :
  World.set_visualFX fx (World.set_visualFX fx' w) = World.set_visualFX fx w.
Proof. reflexivity. Qed.

Lemma set_visualFX_same (w : World.t) : World.set_visualFX (World.visualFX w) w = w.
Proof. destruct w. reflexivity. Qed.

Lemma updateVisualFX_only_fx (now : Z) (w : World.t) :
  exists fx, updateVisualFX now w = World.set_visualFX fx w.
Proof.
  unfold updateVisualFX. destruct (_ && _).
  - eexists. reflexivity.
  - exists (World.visualFX w). symmetry. apply set_visualFX_same.
Qed.

Lemma render_is_update (cfg : Config) (now : Z) (w : World.t) :
  exists fx, render cfg now w = World.set_visualFX fx (update cfg now w).
Proof.
  unfold render. destruct (updateVisualFX_only_fx now w) as [fx1 E1].
  rewrite E1. apply fxBlind_update.
Qed.

Lemma fxBlind_render (cfg : Config) (now : Z) : fxBlind (render cfg now).
Proof.
  intros w fx.
  destruct (render_is_update cfg now (World.set_visualFX fx w)) as [fx1 E1].
  destruct (fxBlind_update cfg now w fx) as [fx2 E2].
  destruct (render_is_update cfg now w) as [fx3 E3].
  exists fx1. rewrite E1, E2, E3, !set_visualFX_twice. reflexivity.
Qed.

Lemma fxBlind_restartGame (cfg : Config) : fxBlind (restartGame cfg).
Proof.
  intros w fx.
  exists (World.visualFX (restartGame cfg (World.set_visualFX fx w))).
  destruct w as [gs fx0 pl en co pu tl lw ch]. destruct gs. destruct fx.
  destruct fx0. vm_compute. reflexivity.
Qed.

Lemma fxBlind_step (cfg : Config) (op : Op) : fxBlind (step cfg op).
Proof.
  destruct op; intros w fx; cbn [step].
  - apply fxBlind_render.
  - unfold moveLeft. cbv zeta.
    change (World.gameState (World.set_visualFX fx w)) with (World.gameState w).
    change (World.targetLane (World.set_visualFX fx w)) with (World.targetLane w).
    destruct (_ || _); [|destruct (_ <? _)]; exists fx; reflexivity.
  - unfold moveRight. cbv zeta.
    change (World.gameState (World.set_visualFX fx w)) with (World.gameState w).
    change (World.targetLane (World.set_visualFX fx w)) with (World.targetLane w).
    destruct (_ || _); [|destruct (_ <? _)]; exists fx; reflexivity.
  - unfold togglePlayPause. cbv zeta.
    change (World.gameState (World.set_visualFX fx w)) with (World.gameState w).
    destruct (isGameOver _); [apply fxBlind_restartGame|].
    destruct (negb _); [|destruct (isPaused _)]; exists fx; reflexivity.
  - apply fxBlind_on_gameState.
  - apply fxBlind_restartGame.
  - apply fxBlind_on_gameState.
  - exists fx. reflexivity.
  - unfold spawnEnemy. cbv zeta.
    change (World.gameState (World.set_visualFX fx w)) with (World.gameState w).
    change (World.enemies (World.set_visualFX fx w)) with (World.enemies w).
    destruct (_ || _); [|destruct (negb _)]; exists fx; reflexivity.
  - unfold spawnCoin. cbv zeta.
    change (World.gameState (World.set_visualFX fx w)) with (World.gameState w).
    change (World.enemies (World.set_visualFX fx w)) with (World.enemies w).
    destruct (_ || _); [|destruct (negb _)]; exists fx; reflexivity.
  - unfold spawnPowerUp. cbv zeta.
    change (World.gameState (World.set_visualFX fx w)) with (World.gameState w).
    destruct (_ || _); [|destruct (Qltb _ _)]; exists fx; reflexivity.
Qed.

(** X22. The visual effects never steer the game.  Two runs of the same
    operations from worlds that differ only in [visualFX] reach worlds
    that differ only in [visualFX]; and a frame drawn through [render],
    which lets the nitro visual lapse first, leaves the game state, the
    player and the entities as [update] alone does. *)
Theorem visualFX_never_steers_the_game :
  forall (cfg : Config) (ops : list Op) (w : World.t) (fx : VisualFX),
    (exists fx',
       run cfg ops (World.set_visualFX fx w)
       = World.set_visualFX fx' (run cfg ops w)) /\
    (forall now, exists fx',
       render cfg now w = World.set_visualFX fx' (update cfg now w)).
Proof.
  intros cfg ops w fx. split; [|intros now; apply render_is_update].
  revert w fx. induction ops as [|op ops IH]; intros w fx.
  - exists fx. reflexivity.
  - rewrite !run_cons.
    destruct (fxBlind_step cfg op w fx) as [fx1 E1]. rewrite E1. apply IH.
Qed.

(** ** Runs without the nitro power-up *)









(** ** Pause and resume *)

Lemma difficultyLevel_noRestart (cfg : Config) :
  (0 <= speedIncreaseRate cfg)%Q -> (0 < difficultyIncreaseInterval cfg)%Q ->
  forall ops w,
    levelInv cfg (World.gameState w) -> noRestart cfg ops w = true ->
    difficultyLevel (World.gameState w)
    <= difficultyLevel (World.gameState (run cfg ops w)).
Proof.
  intros Hrate HI. induction ops as [|op ops IH]; intros w Hw Hn.
  - cbn. lia.
  - cbn [noRestart] in Hn. apply andb_true_iff in Hn. destruct Hn as [Ho Hn].
    apply negb_true_iff in Ho.
    destruct (levelInv_step cfg op w Hrate HI Hw) as [Hi Hm].
    destruct (Hm Ho) as [_ Hl].
    rewrite run_cons. specialize (IH _ Hi Hn). lia.
Qed.

(** X8. On a running game that is neither paused nor over, the play/pause
    button pressed twice gives back the world it started from, and the
    world in between differs from it only by [isPaused].  The spawner
    timers do not come back as they were: the pause clears the three of
    them and the resume starts them again, the enemy spawner at the
    interval of the current difficulty level.  The countdown is not
    touched.  Since the level never falls within a run, a round trip can
    only shorten the enemy interval: if the world was reached, without a
    restart, from a world of a run at which the spawners would have been
    started at the interval [r0], the interval after the round trip is at
    most [r0]. *)
Theorem pause_resume_round_trip :
  forall (cfg : Config) (s : Session.t),
    let gs := World.gameState (Session.world s) in
    isPlaying gs = true -> isPaused gs = false -> isGameOver gs = false ->
    let s1 := Session.togglePlayPause cfg s in
    let s2 := Session.togglePlayPause cfg s1 in
    (Session.world s1 = World.on_gameState (set_isPaused true) (Session.world s) /\
     Session.spawners s1
     = {| enemySpawnTimer := None; coinSpawnTimer := None;
          powerUpSpawnTimer := None |}) /\
    (Session.world s2 = Session.world s /\
     Session.spawners s2 = spawnersAt cfg (Session.world s)) /\
    (Session.countdowns s2 = Session.countdowns s /\
     Session.countdownInterval s2 = Session.countdownInterval s /\
     Session.nextTimer s2 = Session.nextTimer s) /\
    ((0 <= speedIncreaseRate cfg)%Q -> (0 < difficultyIncreaseInterval cfg)%Q ->
     forall (ops ops1 : list Op) (top c tc : Z) (cw ch : Q) (r0 r2 : Z),
       let w0 := run cfg ops (init cfg top c tc cw ch) in
       noRestart cfg ops1 w0 = true ->
       Session.world s = run cfg ops1 w0 ->
       enemySpawnTimer (spawnersAt cfg w0) = Some r0 ->
       enemySpawnTimer (Session.spawners s2) = Some r2 ->
       r2 <= r0).
Proof.
  intros cfg s gs Hp Hq Hgo s1 s2.
  assert (E1 : s1 = Session.pauseGame s).
  { unfold s1, Session.togglePlayPause. fold gs. rewrite Hgo, Hp, Hq. reflexivity. }
  assert (E2 : s2 = Session.resumeGame cfg (Session.pauseGame s)).
  { unfold s2. rewrite E1. unfold Session.togglePlayPause.
    cbn [Session.pauseGame Session.world Session.set_world Session.set_spawners
         World.gameState World.on_gameState World.set_gameState].
    fold gs. unfold pauseGame.
    destruct gs; cbn in *. subst. reflexivity. }
  assert (Ew : Session.world s2 = Session.world s).
  { rewrite E2. destruct s as [w sp cd h n]. cbn in *.
    destruct w as [g fx pl en co pu tl lw ch]. cbn in *.
    destruct g. cbn in *. subst. reflexivity. }
  assert (Es : Session.spawners s2 = spawnersAt cfg (Session.world s)).
  { rewrite E2. reflexivity. }
  split; [rewrite E1; split; reflexivity|].
  split; [split; assumption|].
  split; [rewrite E2; repeat split|].
  intros Hrate HI ops ops1 top c tc cw ch r0 r2 w0 Hn Hw H0 H2.
  assert (Hinv : levelInv cfg (World.gameState w0)).
  { apply levelInv_run; try assumption.
    apply levelInv_fresh; [assumption|reflexivity..]. }
  pose proof (difficultyLevel_noRestart cfg Hrate HI ops1 w0 Hinv Hn) as Hl.
  rewrite <- Hw in Hl. rewrite Es in H2.
  unfold spawnersAt in H0, H2. cbn [enemySpawnTimer] in H0, H2.
  injection H0 as H0. injection H2 as H2. lia.
Qed.

Lemma pause_resume_round_trip_witness :
  let s := Session.startGame_callback CONFIG (Session.init world0) in
  let s2 := Session.togglePlayPause CONFIG (Session.togglePlayPause CONFIG s) in
  Session.world s2 = Session.world s /\
  Session.spawners (Session.togglePlayPause CONFIG s)
  = {| enemySpawnTimer := None; coinSpawnTimer := None; powerUpSpawnTimer := None |} /\
  enemySpawnTimer (Session.spawners s2) = Some 1400 /\
  (forall r2, enemySpawnTimer (Session.spawners s2) = Some r2 -> r2 <= 1400).
Proof.
  intros s s2.
  pose proof (pause_resume_round_trip CONFIG s eq_refl eq_refl eq_refl)
    as ((_ & H1) & (H2 & H3) & _ & H4).
  split; [exact H2|]. split; [exact H1|].
  split; [unfold s2; rewrite H3; reflexivity|].
  intros r2 Hr.
  exact (H4 ltac:(vm_compute; discriminate) ltac:(vm_compute; reflexivity)
            [OpCountdownDone] [] 0 0 0 400%Q 800%Q 1400 r2
            eq_refl eq_refl eq_refl Hr).
Defined.

(** ** The countdown *)

Lemma countOf_setCount (A id : nat) (c : Z) (l : list (nat * Z)) :
  Session.countOf A (Session.setCount id c l)
  = match Session.countOf A l with
    | Some c0 => Some (if Nat.eqb A id then c else c0)
    | None => None
    end.
Proof.
  unfold Session.countOf, Session.setCount.
  induction l as [|[i c0] l IH]; [reflexivity|].
  cbn [map find fst snd].
  destruct (Nat.eqb i id) eqn:Ei; cbn [fst snd].
  - apply Nat.eqb_eq in Ei. subst i.
    destruct (Nat.eqb id A) eqn:Ea.
    + apply Nat.eqb_eq in Ea. subst A. rewrite Nat.eqb_refl. reflexivity.
    + exact IH.
  - destruct (Nat.eqb i A) eqn:Ea.
    + apply Nat.eqb_eq in Ea. subst A. cbn [snd]. rewrite Ei. reflexivity.
    + exact IH.
Qed.

Lemma countOf_clearInterval (A : nat) (h : option nat) (l : list (nat * Z)) :
  h <> Some A ->
  Session.countOf A (Session.clearInterval h l) = Session.countOf A l.
Proof.
  intros Hh. destruct h as [id|]; [|reflexivity].
  assert (Hne : id <> A) by congruence.
  unfold Session.countOf, Session.clearInterval.
  induction l as [|[i c0] l IH]; [reflexivity|].
  cbn [filter find fst snd].
  destruct (Nat.eqb i id) eqn:Ei; cbn [negb].
  - apply Nat.eqb_eq in Ei. subst i.
    replace (Nat.eqb id A) with false by (symmetry; apply Nat.eqb_neq; exact Hne).
    exact IH.
  - cbn [find fst]. destruct (Nat.eqb i A); [reflexivity|exact IH].
Qed.

Lemma countOf_app (A : nat) (l l' : list (nat * Z)) :
  Session.countOf A (l ++ l')
  = match Session.countOf A l with
    | Some c => Some c
    | None => Session.countOf A l'
    end.
Proof.
  unfold Session.countOf.
  induction l as [|[i c0] l IH]; [cbn; destruct (find _ l'); reflexivity|].
  cbn [app find fst]. destruct (Nat.eqb i A); [reflexivity|exact IH].
Qed.

Lemma overtaken_showCountdown (A : nat) (s : Session.t) :
  overtaken A s -> overtaken A (Session.showCountdown s).
Proof.
  intros ((c & Hc & Hle) & Hh & Hn). unfold overtaken, Session.showCountdown.
  cbn [Session.countdowns Session.countdownInterval Session.nextTimer].
  split; [|split].
  - exists c. rewrite countOf_app, Hc. split; [reflexivity|exact Hle].
  - intros E. injection E as E. lia.
  - lia.
Qed.

Lemma overtaken_countdownTick (cfg : Config) (A id : nat) (s : Session.t) :
  overtaken A s -> overtaken A (Session.countdownTick cfg id s).
Proof.
  intros ((c & Hc & Hle) & Hh & Hn). unfold Session.countdownTick.
  destruct (Session.countOf id (Session.countdowns s)) as [ci|] eqn:Ei;
    [|split; [exists c; split; assumption|split; assumption]].
  cbv zeta.
  assert (Hs : exists c', Session.countOf A
                            (Session.setCount id (ci - 1) (Session.countdowns s))
                          = Some c' /\ c' <= 1).
  { rewrite countOf_setCount, Hc.
    destruct (Nat.eqb A id) eqn:Ea.
    - apply Nat.eqb_eq in Ea. subst id. rewrite Hc in Ei. injection Ei as Ei.
      exists (ci - 1). split; [reflexivity|lia].
    - exists c. split; [reflexivity|exact Hle]. }
  destruct (0 <? ci - 1).
  - split; [exact Hs|split; assumption].
  - destruct Hs as (c' & Hc' & Hle').
    split; [|split; assumption].
    exists c'. split; [|exact Hle'].
    cbn [Session.startGame_callback Session.countdowns Session.set_world
         Session.set_spawners Session.set_countdowns Session.countdownInterval].
    rewrite countOf_clearInterval by exact Hh. exact Hc'.
Qed.

Lemma overtaken_step (cfg : Config) (A : nat) (ev : Session.Event) (s : Session.t) :
  overtaken A s -> overtaken A (Session.step cfg ev s).
Proof.
  intros H. destruct ev; cbn [Session.step].
  - apply overtaken_countdownTick. exact H.
  - unfold Session.togglePlayPause. cbv zeta.
    destruct (isGameOver _);
      [apply (overtaken_showCountdown A
                (Session.set_world (restartGame cfg (Session.world s)) s));
       exact H|].
    destruct (negb _); [apply overtaken_showCountdown; exact H|].
    destruct (isPaused _); exact H.
  - apply (overtaken_showCountdown A
             (Session.set_world (restartGame cfg (Session.world s)) s)).
    exact H.
  - exact H.
Qed.

Lemma session_run_cons (cfg : Config) (ev : Session.Event)
    (evs : list Session.Event) (s : Session.t) :
  Session.run cfg (ev :: evs) s = Session.run cfg evs (Session.step cfg ev s).
Proof. reflexivity. Qed.

(** X9. A countdown that is started while another one runs is one too
    many.  [startGame], which both the restart button and the play button
    end in, starts a new countdown interval without clearing the running
    one and overwrites [countdownInterval]: two restarts in a row leave
    two intervals, and after two firings of the first it is overtaken.
    An overtaken countdown is never cleared, whatever happens later; and
    every firing of it runs the start callback again, which puts the game
    into the playing state, not paused and not over, and restarts the
    spawners.  A single countdown, for comparison, fires three times,
    starts the game and is gone. *)
Theorem overtaken_countdown_never_stops :
  forall cfg : Config,
    (forall s,
       Session.countdowns s = [] ->
       let A := Session.nextTimer s in
       let s' := Session.run cfg
                   [Session.Restart; Session.Tick A; Session.Tick A;
                    Session.Tick A] s in
       Session.countdowns s' = [] /\
       isPlaying (World.gameState (Session.world s')) = true) /\
    (forall s,
       Session.countOf (Session.nextTimer s) (Session.countdowns s) = None ->
       let A := Session.nextTimer s in
       overtaken A
         (Session.run cfg
            [Session.Restart; Session.Restart; Session.Tick A; Session.Tick A]
            s)) /\
    (forall A s evs, overtaken A s -> overtaken A (Session.run cfg evs s)) /\
    (forall A s,
       overtaken A s ->
       let s' := Session.countdownTick cfg A s in
       let gs' := World.gameState (Session.world s') in
       (isPlaying gs' = true /\ isPaused gs' = false /\ isGameOver gs' = false) /\
       Session.spawners s' = spawnersAt cfg (Session.world s') /\
       overtaken A s').
Proof.
  intros cfg. split; [|split; [|split]].
  - intros s Hs A s'. unfold s'. clear s'.
    rewrite !session_run_cons. cbn [Session.run fold_left Session.step].
    assert (Htick : forall (k : Z) (t : Session.t),
               Session.countdowns t = [(A, k)] ->
               Session.countdownInterval t = Some A ->
               let t' := Session.countdownTick cfg A t in
               if 0 <? k - 1
               then Session.countdowns t' = [(A, k - 1)] /\
                    Session.countdownInterval t' = Some A
               else Session.countdowns t' = [] /\
                    isPlaying (World.gameState (Session.world t')) = true).
    { intros k t Ec Eh. cbv zeta. unfold Session.countdownTick. rewrite Ec.
      unfold Session.countOf. cbn [find fst snd]. rewrite Nat.eqb_refl.
      cbv zeta. unfold Session.setCount. cbn [map fst snd].
      rewrite Nat.eqb_refl.
      destruct (0 <? k - 1).
      - split; [reflexivity|exact Eh].
      - cbn [Session.countdownInterval Session.set_countdowns
             Session.countdowns].
        rewrite Eh. unfold Session.clearInterval. cbn [filter fst].
        rewrite Nat.eqb_refl. split; reflexivity. }
    set (s1 := Session.restartGame cfg s).
    assert (E1 : Session.countdowns s1 = [(A, 3)] /\
                 Session.countdownInterval s1 = Some A).
    { unfold s1, Session.restartGame, Session.startGame, Session.showCountdown.
      cbn [Session.countdowns Session.countdownInterval Session.set_world
           Session.nextTimer].
      rewrite Hs. split; reflexivity. }
    clearbody s1. destruct E1 as [E1 H1].
    pose proof (Htick 3 s1 E1 H1) as T1. cbv zeta in T1.
    change (0 <? 3 - 1) with true in T1. cbv iota in T1.
    destruct T1 as [E2 H2]. change (3 - 1) with 2 in E2.
    pose proof (Htick 2 _ E2 H2) as T2. cbv zeta in T2.
    change (0 <? 2 - 1) with true in T2. cbv iota in T2.
    destruct T2 as [E3 H3]. change (2 - 1) with 1 in E3.
    pose proof (Htick 1 _ E3 H3) as T3. cbv zeta in T3.
    change (0 <? 1 - 1) with false in T3. cbv iota in T3.
    exact T3.
  - intros s Hfresh A.
    rewrite !session_run_cons. cbn [Session.run fold_left Session.step].
    set (s2 := Session.restartGame cfg (Session.restartGame cfg s)).
    assert (E0 : Session.countdowns s2
                 = (Session.countdowns s ++ [(A, 3)]) ++ [(S A, 3)])
      by reflexivity.
    assert (Eh : Session.countdownInterval s2 = Some (S A)) by reflexivity.
    assert (En : Session.nextTimer s2 = S (S A)) by reflexivity.
    assert (C0 : Session.countOf A (Session.countdowns s2) = Some 3).
    { rewrite E0, !countOf_app. fold A in Hfresh. rewrite Hfresh.
      unfold Session.countOf. cbn [find fst snd]. rewrite Nat.eqb_refl.
      reflexivity. }
    clearbody s2.
    set (s3 := Session.countdownTick cfg A s2).
    assert (H3 : Session.countOf A (Session.countdowns s3) = Some 2 /\
                 Session.countdownInterval s3 = Some (S A) /\
                 Session.nextTimer s3 = S (S A)).
    { unfold s3, Session.countdownTick. rewrite C0. cbv zeta.
      change (0 <? 3 - 1) with true. cbv iota.
      cbn [Session.countdowns Session.set_countdowns Session.countdownInterval
           Session.nextTimer].
      rewrite countOf_setCount, C0, Nat.eqb_refl.
      split; [reflexivity|split; assumption]. }
    clearbody s3. destruct H3 as (C3 & Eh3 & En3).
    unfold overtaken, Session.countdownTick. rewrite C3. cbv zeta.
    change (0 <? 2 - 1) with true. cbv iota.
    cbn [Session.countdowns Session.set_countdowns Session.countdownInterval
         Session.nextTimer].
    rewrite countOf_setCount, C3, Nat.eqb_refl, Eh3, En3.
    split; [exists 1; split; [reflexivity|lia]|].
    split; [intros E; injection E as E; lia|lia].
  - intros A s evs. revert s. induction evs as [|ev evs IH]; intros s H.
    + exact H.
    + rewrite session_run_cons. apply IH. apply overtaken_step. exact H.
  - intros A s H s' gs'.
    pose proof (overtaken_countdownTick cfg A A s H) as Hov. fold s' in Hov.
    split; [|split; [|exact Hov]].
    + destruct H as ((c & Hc & Hle) & Hh & Hn).
      unfold gs', s', Session.countdownTick. rewrite Hc. cbv zeta.
      replace (0 <? c - 1) with false by (symmetry; apply Z.ltb_ge; lia).
      repeat split.
    + destruct H as ((c & Hc & Hle) & Hh & Hn).
      unfold s', Session.countdownTick. rewrite Hc. cbv zeta.
      replace (0 <? c - 1) with false by (symmetry; apply Z.ltb_ge; lia).
      reflexivity.
Qed.

Lemma overtaken_countdown_never_stops_witness :
  let s := Session.run CONFIG
             [Session.Tick 0%nat; Session.TogglePlayPause]
             (Session.run CONFIG
                [Session.Restart; Session.Restart; Session.Tick 0%nat;
                 Session.Tick 0%nat]
                (Session.init world0)) in
  isPaused (World.gameState (Session.world s)) = true /\
  isPaused
    (World.gameState (Session.world (Session.countdownTick CONFIG 0%nat s)))
  = false.
Proof.
  intros s. split; [vm_compute; reflexivity|].
  destruct (overtaken_countdown_never_stops CONFIG) as (_ & Hmake & Hkeep & Hfire).
  pose proof (Hmake (Session.init world0) eq_refl) as H0.
  pose proof (Hkeep _ _ [Session.Tick 0%nat; Session.TogglePlayPause] H0) as H1.
  exact (proj1 (proj2 (proj1 (Hfire _ _ H1)))).
Defined.
